(** * FPL asset value model: fixture difficulty, clean-sheet predictor, asset values

    A shallow embedding of [src/fdr_value_model.py],
    [src/clean_sheet_points_model.py], [src/asset_value_model.py] and of the
    chip validation of [src/system.py].

    Numbers.  Python ints are [Z].  Python / numpy floats are modelled by
    [fl]: a real, or one of the IEEE special values [PInf], [NInf], [NaN].
    The columns read from the input tables (ratings, prices, per-match
    rates) and the regressor's answers are finite, so they are plain [R];
    the values that a division by a standard deviation can turn into NaN
    are [fl].

    Arithmetic.  The code is embedded twice, on the same state records.
    [FDRValueModel64] and [AssetValueModel64] follow the code over an
    interface [Float64]: every float operation is rounded by an
    unspecified [rnd], numpy's mean, standard deviation and rounding to two
    decimals and pandas' sort are unspecified functions of which only the
    laws [Float64_laws] are used.  What is proved of them holds in
    whatever way binary64 rounds and the sort orders equal keys.
    [FDRValueModel] and [AssetValueModel] are the instance [exact_float64]
    of that model (lemmas [get_fdr_value_exact], [compute_values_exact]):
    no rounding error, round half to even on the decimal value, a stable
    sort.  They serve for the properties that rounding error does not
    touch (which exception is raised, which table is written, NaN from
    0.0 / 0.0, bounds with a margin) and for the runs on example tables.

    Tables.  A data frame is the list of its rows; the columns that a method
    attaches are absent or present for all rows at once ([frame]).  The
    scikit-learn estimators are an interface ([Sklearn]).

    Effects.  Exceptions are values of [exn]; methods that mutate [self] are
    functions in the state-and-exception monad [M]: an exception keeps the
    mutations made before it was raised, as in Python. *)

From Stdlib Require Import Reals Psatz Lia ZArith List Bool String Permutation Sorted.
Import ListNotations.
Open Scope R_scope.

(* ================================================================= *)
(** ** Exceptions and the state-and-exception monad *)

Inductive exn : Type :=
| KeyError        (* a column label that the frame does not have *)
| IndexError      (* list / array index out of range *)
| ValueError      (* math domain error *)
| NotFittedError. (* sklearn estimator used before fit *)

Inductive result (A : Type) : Type :=
| Ok (a : A)
| Raise (e : exn).
Arguments Ok {A} a.
Arguments Raise {A} e.

Definition rbind {A B} (r : result A) (k : A -> result B) : result B :=
  match r with
  | Ok a => k a
  | Raise e => Raise e
  end.

Declare Scope res_scope.
Delimit Scope res_scope with res.
Notation "x <- c ;; k" := (rbind c (fun x => k))
  (at level 61, c at next level, right associativity) : res_scope.


Fixpoint mapR {A B} (f : A -> result B) (l : list A) : result (list B) :=
  match l with
  | [] => Ok []
  | a :: l' => (b <- f a ;; bs <- mapR f l' ;; Ok (b :: bs))%res
  end.

Fixpoint foldR {A B} (f : B -> A -> result B) (l : list A) (acc : B) : result B :=
  match l with
  | [] => Ok acc
  | a :: l' => (acc' <- f acc a ;; foldR f l' acc')%res
  end.

Definition M (S A : Type) : Type := S -> result A * S.

Definition ret {S A} (a : A) : M S A := fun s => (Ok a, s).
Definition raise {S A} (e : exn) : M S A := fun s => (Raise e, s).
Definition bind {S A B} (m : M S A) (k : A -> M S B) : M S B :=
  fun s => match m s with
           | (Ok a, s') => k a s'
           | (Raise e, s') => (Raise e, s')
           end.
Definition get {S} : M S S := fun s => (Ok s, s).
Definition put {S} (s : S) : M S unit := fun _ => (Ok tt, s).
Definition lift {S A} (r : result A) : M S A := fun s => (r, s).

(** Running a method of a sub-object stored in a field of [self]. *)
Definition zoom {S T A} (proj : S -> T) (upd : S -> T -> S) (m : M T A) : M S A :=
  fun s => let '(r, t) := m (proj s) in (r, upd s t).

Declare Scope monad_scope.
Delimit Scope monad_scope with monad.
Notation "x <- c ;; k" := (bind c (fun x => k))
  (at level 61, c at next level, right associativity) : monad_scope.
Notation "c ;;; k" := (bind c (fun _ => k))
  (at level 61, right associativity) : monad_scope.

(** [for x in l: body x], threading the state. *)
Fixpoint forM {S A B} (l : list A) (body : A -> M S B) : M S (list B) :=
  match l with
  | [] => ret []
  | a :: l' => (b <- body a ;; bs <- forM l' body ;; ret (b :: bs))%monad
  end.

(* ================================================================= *)
(** ** Python sequences *)

(** [range(a, b)] *)
Definition py_range (a b : Z) : list Z :=
  map (fun k => (a + Z.of_nat k)%Z) (seq 0 (Z.to_nat (b - a))).

(** [i in range(a, b)] *)
Definition in_range (i a b : Z) : bool := ((a <=? i) && (i <? b))%Z.

(** [l[j]]: a negative index counts from the end; out of range raises. *)
Definition py_getitem {A} (l : list A) (j : Z) : result A :=
  let n := Z.of_nat (List.length l) in
  let k := if (j <? 0)%Z then (n + j)%Z else j in
  if ((0 <=? k) && (k <? n))%Z then
    match nth_error l (Z.to_nat k) with
    | Some a => Ok a
    | None => Raise IndexError
    end
  else Raise IndexError.

(** [math.log(n)] on an int argument. *)
Definition math_log (n : Z) : result R :=
  if (n <=? 0)%Z then Raise ValueError else Ok (ln (IZR n)).

(* ================================================================= *)
(** ** Floats with IEEE special values *)

Inductive fl : Type :=
| Fin (r : R)
| PInf
| NInf
| NaN.

Definition fl_neg (a : fl) : fl :=
  match a with
  | Fin r => Fin (- r)
  | PInf => NInf
  | NInf => PInf
  | NaN => NaN
  end.

Definition fl_add (a b : fl) : fl :=
  match a, b with
  | NaN, _ | _, NaN => NaN
  | Fin x, Fin y => Fin (x + y)
  | PInf, NInf | NInf, PInf => NaN
  | PInf, _ | _, PInf => PInf
  | NInf, _ | _, NInf => NInf
  end.

(** Sign of a float that is neither NaN nor zero: [true] is positive. *)
Definition fl_sign (a : fl) : option bool :=
  match a with
  | Fin r => if Rlt_dec 0 r then Some true
             else if Rlt_dec r 0 then Some false else None
  | PInf => Some true
  | NInf => Some false
  | NaN => None
  end.

Definition signed_inf (pos : bool) : fl := if pos then PInf else NInf.

Definition fl_mul (a b : fl) : fl :=
  match a, b with
  | NaN, _ | _, NaN => NaN
  | Fin x, Fin y => Fin (x * y)
  | _, _ =>
      match fl_sign a, fl_sign b with
      | Some sa, Some sb => signed_inf (Bool.eqb sa sb)
      | _, _ => NaN   (* inf * 0 *)
      end
  end.

(** numpy true division: a zero divisor gives [nan] or a signed infinity
    (with a RuntimeWarning), never an exception. *)
Definition fl_div (a b : fl) : fl :=
  match a, b with
  | NaN, _ | _, NaN => NaN
  | Fin x, Fin y =>
      if Req_dec_T y 0 then
        match fl_sign a with
        | Some s => signed_inf s
        | None => NaN     (* 0 / 0 *)
        end
      else Fin (x / y)
  | Fin _, _ => Fin 0
  | _, Fin y =>
      match fl_sign a with
      | Some sa => signed_inf (Bool.eqb sa (if Rlt_dec y 0 then false else true))
      | None => NaN
      end
  | _, _ => NaN           (* inf / inf *)
  end.

(** [x ** y] for a base that is not negative and a positive exponent:
    [0.0 ** y] is [0.0].  For a negative base Python answers with a complex
    number; the definition is only used where the base is not negative. *)
Definition py_pow (x y : R) : R :=
  if Req_dec_T x 0 then 0 else Rpower x y.

(** Round half to even, to an integer. *)
Definition rint (x : R) : Z :=
  let f := Int_part x in
  if Rlt_dec (x - IZR f) (1/2) then f
  else if Rlt_dec (1/2) (x - IZR f) then (f + 1)%Z
  else if Z.even f then f else (f + 1)%Z.

(** [np.round(x, 2)] at exact arithmetic: scale by 100, round half to even,
    scale back.  numpy rounds the binary64 product, so that a decimal tie
    such as 1.015 can go the other way ([round64] below leaves it open). *)
Definition round2 (x : R) : R := IZR (rint (x * 100)) / 100.

Definition fl_round2 (a : fl) : fl :=
  match a with
  | Fin r => Fin (round2 r)
  | _ => a
  end.

(** A value that [round(2)] leaves alone. *)
Definition two_decimals (x : R) : Prop := round2 x = x.

(* ================================================================= *)
(** ** Data frames *)

(** A frame whose rows have the base columns [A]; the derived columns [B]
    are either absent ([Bare]) or present in every row ([Scored]). *)
Inductive frame (A B : Type) : Type :=
| Bare (rows : list A)
| Scored (rows : list (A * B)).
Arguments Bare {A B} rows.
Arguments Scored {A B} rows.

Definition base_rows {A B} (df : frame A B) : list A :=
  match df with
  | Bare rows => rows
  | Scored rows => map fst rows
  end.

Definition scored_rows {A B} (df : frame A B) : list (A * B) :=
  match df with
  | Bare _ => []
  | Scored rows => rows
  end.

(** Order of [sort_values(ascending=False)] on a float key: larger first,
    NaN last.  [desc_before a b] holds when a row with key [a] may stand in
    front of a row with key [b]. *)
Definition desc_before (a b : fl) : bool :=
  match a, b with
  | _, NaN => true
  | NaN, _ => false
  | PInf, _ => true
  | _, NInf => true
  | NInf, _ => false
  | Fin _, PInf => false
  | Fin x, Fin y => if Rle_dec y x then true else false
  end.

(** Sort by a float key, descending, as a stable sort: rows with equal keys
    keep their order.  pandas does not promise this order ([sort64] below
    leaves it open); the properties proved with this sort hold for any
    order of the rows with equal keys. *)
Fixpoint insert_desc {A} (key : A -> fl) (x : A) (l : list A) : list A :=
  match l with
  | [] => [x]
  | y :: l' => if desc_before (key x) (key y) then x :: y :: l'
               else y :: insert_desc key x l'
  end.

Fixpoint sort_values_desc {A} (key : A -> fl) (l : list A) : list A :=
  match l with
  | [] => []
  | x :: l' => insert_desc key x (sort_values_desc key l')
  end.

(* ================================================================= *)
(** ** [fdr_value_model.py] *)

(** One row of the fixture table: the team, its league position, and the
    columns whose label starts with "gw", in column order. *)
Record team_row : Type := mk_team_row {
  team : string;
  position : Z;
  ratings : list R
}.

Definition fixtures_df : Type := frame team_row fl.

Definition Rsum (a : list R) : R := fold_right Rplus 0 a.

Module FDRValueModel.

Record t : Type := mk { df : fixtures_df }.

(** [__init__(self, fixtures_df)] *)
Definition init (fixtures : list team_row) : t := {| df := Bare fixtures |}.

(** [np.mean(array)] at exact arithmetic; on an empty array numpy gives
    nan, which is then subtracted from no element.  numpy adds in binary64,
    so that its mean depends on the order of the elements and need not be
    the common value of a constant array ([mean64] below leaves it open). *)
Definition np_mean (array : list R) : R := Rsum array / INR (List.length array).

(** [np.std(array)] at exact arithmetic: the population standard
    deviation ([std64] below leaves numpy's rounding open). *)
Definition np_std (array : list R) : R :=
  let mu := np_mean array in
  sqrt (np_mean (map (fun x => (x - mu) * (x - mu)) array)).

Definition zscore_normalisation (array : list R) : list fl :=
  let mu := np_mean array in
  let sigma := np_std array in
  map (fun x => fl_div (Fin (x - mu)) (Fin sigma)) array.

(** [np.min(array)] and [np.max(array)]: reductions without an identity, an
    empty array raises ValueError. *)
Definition np_min (array : list R) : result R :=
  match array with
  | [] => Raise ValueError
  | x :: l => Ok (fold_left Rmin l x)
  end.

Definition np_max (array : list R) : result R :=
  match array with
  | [] => Raise ValueError
  | x :: l => Ok (fold_left Rmax l x)
  end.

Definition min_max_normalisation (array : list R) : result (list fl) :=
  (array_min <- np_min array ;;
   array_max <- np_max array ;;
   Ok (map (fun x => fl_div (Fin (x - array_min)) (Fin (array_max - array_min)))
           array))%res.

(** Body of [for i in range(gw, gw + 10)] when [wc_gw == 0]. *)
Definition no_wildcard_step (gw fh_gw : Z) (row : team_row)
    (fdr_value : R) (i : Z) : result R :=
  if (i =? fh_gw)%Z then Ok fdr_value
  else if in_range i gw (gw + 6) then
    (x <- py_getitem (ratings row) (i - 1) ;;
     w <- math_log (- i + 8) ;;
     Ok (fdr_value + x * w))%res
  else if in_range i (gw + 6) (gw + 10) then
    (x <- py_getitem (ratings row) (i - 1) ;;
     Ok (fdr_value + x * (- (IZR i / 25) + 0.5)))%res
  else Ok fdr_value.

(** Body of [for i in range(gw, wc_gw)] otherwise. *)
Definition wildcard_step (wc_gw fh_gw : Z) (row : team_row)
    (fdr_value : R) (i : Z) : result R :=
  if (i =? fh_gw)%Z then Ok fdr_value
  else
    (x <- py_getitem (ratings row) (i - 1) ;;
     w <- math_log (- i + wc_gw + 1) ;;
     Ok (fdr_value + x * w))%res.

(** The list [fdr_results] before normalisation. *)
Definition raw_fdr_results (gw wc_gw fh_gw : Z) (rows : list team_row)
    : result (list R) :=
  if (wc_gw =? 0)%Z then
    mapR (fun row => foldR (no_wildcard_step gw fh_gw row)
                           (py_range gw (gw + 10)) 0) rows
  else
    mapR (fun row => foldR (wildcard_step wc_gw fh_gw row)
                           (py_range gw wc_gw) 0) rows.

(** [- (fdr_results / 2) + 5] *)
Definition rescale (z : fl) : fl := fl_add (fl_neg (fl_div z (Fin 2))) (Fin 5).

(** [df.round(2)] on one row: float columns are rounded, the int and
    string columns are kept. *)
Definition round_row (r : team_row * fl) : team_row * fl :=
  ({| team := team (fst r);
      position := position (fst r);
      ratings := map round2 (ratings (fst r)) |},
   fl_round2 (snd r)).

Definition get_fdr_value (gw wc_gw fh_gw : Z) : M t fixtures_df :=
  (self <- get ;;
   let rows := base_rows (df self) in
   fdr_results <- lift (raw_fdr_results gw wc_gw fh_gw rows) ;;
   let fdr_results := zscore_normalisation fdr_results in
   let fdr_results := map rescale fdr_results in
   let df1 := combine rows fdr_results in        (* self.df["FDR value"] = ... *)
   let df2 := sort_values_desc snd df1 in
   let df3 := map round_row df2 in
   put {| df := Scored df3 |} ;;;
   ret (Scored df3))%monad.

(** [self.df.loc[self.df["team"] == team_name, "FDR value"].values[0]] *)
Definition get_fdr_value_by_team (team_name : string) : M t fl :=
  (self <- get ;;
   match df self with
   | Bare _ => raise KeyError
   | Scored rows =>
       match filter (fun r => String.eqb (team (fst r)) team_name) rows with
       | [] => raise IndexError
       | r :: _ => ret (snd r)
       end
   end)%monad.

End FDRValueModel.

(* ================================================================= *)
(** ** [clean_sheet_points_model.py] *)

(** The two scikit-learn estimators, as an interface: what a fit stores and
    how a fitted estimator maps a feature.  [fit] may raise. *)
Class Sklearn : Type := {
  scaler_params : Type;
  sgd_params : Type;
  scaler_fit : list R -> result scaler_params;
  scaler_transform : scaler_params -> R -> R;
  sgd_fit : list R -> list R -> result sgd_params;
  sgd_predict : sgd_params -> R -> R
}.

Module CleanSheetPointsModel.
Section WithSklearn.
Context {SK : Sklearn}.

Record t : Type := mk {
  x_data : list R;
  y_data : list R;
  scaler : option scaler_params;
  sgdr : option sgd_params;
  is_trained : bool;
  trainings : nat    (* instrumentation: how many times [train_model] ran *)
}.

Definition init (x y : list R) : t :=
  {| x_data := x; y_data := y; scaler := None; sgdr := None;
     is_trained := false; trainings := 0 |}.

Definition train_model : M t unit :=
  (self <- get ;;
   put (mk (x_data self) (y_data self) (scaler self) (sgdr self)
           (is_trained self) (S (trainings self))) ;;;
   self <- get ;;
   p <- lift (scaler_fit (x_data self)) ;;
   put (mk (x_data self) (y_data self) (Some p) (sgdr self)
           (is_trained self) (trainings self)) ;;;
   let x_data_norm := map (scaler_transform p) (x_data self) in
   q <- lift (sgd_fit x_data_norm (y_data self)) ;;
   put (mk (x_data self) (y_data self) (Some p) (Some q)
           true (trainings self)))%monad.

Definition predict (xgcp90 : R) : M t R :=
  (self <- get ;;
   (if negb (is_trained self) then train_model else ret tt) ;;;
   self <- get ;;
   match scaler self, sgdr self with
   | Some p, Some q => ret (sgd_predict q (scaler_transform p xgcp90))
   | _, _ => raise NotFittedError
   end)%monad.

End WithSklearn.
End CleanSheetPointsModel.

(* ================================================================= *)
(** ** [asset_value_model.py] *)

(** One row of a position table.  A column that a position's table does not
    have is never read by that position's method. *)
Record player_row : Type := mk_player_row {
  player : string;
  player_team : string;       (* "team" *)
  price : R;
  xGp90 : R;
  xAp90 : R;
  xGCp90 : R;
  saves : R;                  (* "saves p/match" *)
  bps : R;                    (* "BPS p/match" *)
  defcon : R;                 (* "defensive contributions p/match" *)
  yc : R                      (* "yellow cards p/match" *)
}.

(** The three columns written by [update_df]. *)
Record derived : Type := mk_derived {
  xPts : R;
  FDR_value : fl;
  value : fl
}.

Definition player_df : Type := frame player_row derived.

Module AssetValueModel.
Section WithSklearn.
Context {SK : Sklearn}.

Record t : Type := mk {
  goalkeepers : player_df;
  defenders : player_df;
  midfielders : player_df;
  forwards : player_df;
  fdr_value_model : FDRValueModel.t;
  clean_sheet_points_model_gk_def : CleanSheetPointsModel.t;
  clean_sheet_points_model_mid : CleanSheetPointsModel.t
}.

Definition init (watchlist : list player_row * list player_row
                             * list player_row * list player_row)
    (fixtures : list team_row)
    (xgcp90_data defensive_points_data clean_sheets_per_match : list R) : t :=
  let '(gk, de, mi, fw) := watchlist in
  {| goalkeepers := Bare gk; defenders := Bare de;
     midfielders := Bare mi; forwards := Bare fw;
     fdr_value_model := FDRValueModel.init fixtures;
     clean_sheet_points_model_gk_def :=
       CleanSheetPointsModel.init xgcp90_data defensive_points_data;
     clean_sheet_points_model_mid :=
       CleanSheetPointsModel.init xgcp90_data clean_sheets_per_match |}.

Definition set_goalkeepers (s : t) (d : player_df) : t :=
  mk d (defenders s) (midfielders s) (forwards s) (fdr_value_model s)
     (clean_sheet_points_model_gk_def s) (clean_sheet_points_model_mid s).
Definition set_defenders (s : t) (d : player_df) : t :=
  mk (goalkeepers s) d (midfielders s) (forwards s) (fdr_value_model s)
     (clean_sheet_points_model_gk_def s) (clean_sheet_points_model_mid s).
Definition set_midfielders (s : t) (d : player_df) : t :=
  mk (goalkeepers s) (defenders s) d (forwards s) (fdr_value_model s)
     (clean_sheet_points_model_gk_def s) (clean_sheet_points_model_mid s).
Definition set_forwards (s : t) (d : player_df) : t :=
  mk (goalkeepers s) (defenders s) (midfielders s) d (fdr_value_model s)
     (clean_sheet_points_model_gk_def s) (clean_sheet_points_model_mid s).
Definition set_fdr_value_model (s : t) (m : FDRValueModel.t) : t :=
  mk (goalkeepers s) (defenders s) (midfielders s) (forwards s) m
     (clean_sheet_points_model_gk_def s) (clean_sheet_points_model_mid s).
Definition set_gk_def (s : t) (m : CleanSheetPointsModel.t) : t :=
  mk (goalkeepers s) (defenders s) (midfielders s) (forwards s)
     (fdr_value_model s) m (clean_sheet_points_model_mid s).
Definition set_mid (s : t) (m : CleanSheetPointsModel.t) : t :=
  mk (goalkeepers s) (defenders s) (midfielders s) (forwards s)
     (fdr_value_model s) (clean_sheet_points_model_gk_def s) m.

(** [self.get_fdr_value(gw, wc_gw, fh_gw, team)] *)
Definition get_fdr_value (gw wc_gw fh_gw : Z) (team_name : string) : M t fl :=
  zoom fdr_value_model set_fdr_value_model
    (FDRValueModel.get_fdr_value gw wc_gw fh_gw ;;;
     FDRValueModel.get_fdr_value_by_team team_name)%monad.

(** [(12 * xpts + 8 * fdr_value) / price ** 0.25]; [fdr_value] is a numpy
    float, so the division follows numpy. *)
Definition asset_value (xpts : R) (fdr_value : fl) (price : R) : fl :=
  fl_div (fl_add (Fin (12 * xpts)) (fl_mul (Fin 8) fdr_value))
         (Fin (py_pow price 0.25)).

(** [df.round(2)] on one row of a position table. *)
Definition round_player (r : player_row * derived) : player_row * derived :=
  let p := fst r in
  let d := snd r in
  (mk_player_row (player p) (player_team p) (round2 (price p))
     (round2 (xGp90 p)) (round2 (xAp90 p)) (round2 (xGCp90 p))
     (round2 (saves p)) (round2 (bps p)) (round2 (defcon p)) (round2 (yc p)),
   mk_derived (round2 (xPts d)) (fl_round2 (FDR_value d)) (fl_round2 (value d))).

(** [update_df]: the three columns are written, the frame is sorted in
    place, and the frame returned by [df.round(2)] is dropped. *)
Definition update_df (df : player_df) (xpts_list : list R)
    (fdr_values asset_values : list fl) : player_df :=
  let df1 := combine (base_rows df)
               (map (fun c => mk_derived (fst (fst c)) (snd (fst c)) (snd c))
                    (combine (combine xpts_list fdr_values) asset_values)) in
  let df2 := sort_values_desc (fun r => value (snd r)) df1 in
  let _ := map round_player df2 in
  Scored df2.

Definition xpts_gk (cs_pts saves bps yc : R) : R :=
  2 + cs_pts + saves / 3 + bps - yc.

Definition xpts_def (xgp90 xap90 cs_pts bps defcon yc : R) : R :=
  if Rlt_dec defcon 5 then
    2 + xgp90 * 6 + xap90 * 3 + cs_pts + bps + defcon / 1000 - yc
  else if Rle_dec 5 defcon then
    if Rle_dec defcon 13.33 then
      2 + xgp90 * 6 + xap90 * 3 + cs_pts + bps
        + (((py_pow (defcon - 5) 1.2) / 6.38) + 0.005) - yc
    else 2 + xgp90 * 6 + xap90 * 3 + cs_pts + bps + 2 - yc
  else 2 + xgp90 * 6 + xap90 * 3 + cs_pts + bps + 2 - yc.

Definition xpts_mid (xgp90 xap90 cs_pts bps defcon yc : R) : R :=
  if Rlt_dec defcon 6 then
    2 + xgp90 * 5 + xap90 * 3 + cs_pts + bps + defcon / 1000 - yc
  else if Rle_dec 6 defcon then
    if Rle_dec defcon 16 then
      2 + xgp90 * 5 + xap90 * 3 + cs_pts + bps
        + (((py_pow (defcon - 6) 1.2) / 8) + 0.006) - yc
    else 2 + xgp90 * 5 + xap90 * 3 + cs_pts + bps + 2 - yc
  else 2 + xgp90 * 5 + xap90 * 3 + cs_pts + bps + 2 - yc.

Definition xpts_fwd (xgp90 xap90 bps defcon yc : R) : R :=
  if Rlt_dec defcon 6 then
    2 + xgp90 * 4 + xap90 * 3 + bps + defcon / 1000 - yc
  else if Rle_dec 6 defcon then
    if Rle_dec defcon 16 then
      2 + xgp90 * 4 + xap90 * 3 + bps
        + (((py_pow (defcon - 6) 1.2) / 8) + 0.006) - yc
    else 2 + xgp90 * 4 + xap90 * 3 + bps + 2 - yc
  else 2 + xgp90 * 4 + xap90 * 3 + bps + 2 - yc.

(** What one iteration of a position's loop appends to the three lists. *)
Definition appended : Type := R * fl * fl.

Definition finish (xpts : R) (fdr_value : fl) (price : R) : appended :=
  (xpts, fdr_value, asset_value xpts fdr_value price).

Definition write_columns (df : player_df) (res : list appended) : player_df :=
  update_df df (map (fun c => fst (fst c)) res)
               (map (fun c => snd (fst c)) res)
               (map snd res).

Definition get_asset_value_gk (gw wc_gw fh_gw : Z) : M t player_df :=
  (self <- get ;;
   res <- forM (base_rows (goalkeepers self)) (fun row =>
     cs_pts <- zoom clean_sheet_points_model_gk_def set_gk_def
                 (CleanSheetPointsModel.predict (xGCp90 row)) ;;
     let xpts := xpts_gk cs_pts (saves row) (bps row) (yc row) in
     fdr_value <- get_fdr_value gw wc_gw fh_gw (player_team row) ;;
     ret (finish xpts fdr_value (price row))) ;;
   self <- get ;;
   put (set_goalkeepers self (write_columns (goalkeepers self) res)) ;;;
   self <- get ;;
   ret (goalkeepers self))%monad.

Definition get_asset_value_def (gw wc_gw fh_gw : Z) : M t player_df :=
  (self <- get ;;
   res <- forM (base_rows (defenders self)) (fun row =>
     cs_pts <- zoom clean_sheet_points_model_gk_def set_gk_def
                 (CleanSheetPointsModel.predict (xGCp90 row)) ;;
     let xpts := xpts_def (xGp90 row) (xAp90 row) cs_pts (bps row)
                          (defcon row) (yc row) in
     fdr_value <- get_fdr_value gw wc_gw fh_gw (player_team row) ;;
     ret (finish xpts fdr_value (price row))) ;;
   self <- get ;;
   put (set_defenders self (write_columns (defenders self) res)) ;;;
   self <- get ;;
   ret (defenders self))%monad.

Definition get_asset_value_mid (gw wc_gw fh_gw : Z) : M t player_df :=
  (self <- get ;;
   res <- forM (base_rows (midfielders self)) (fun row =>
     cs_pts <- zoom clean_sheet_points_model_mid set_mid
                 (CleanSheetPointsModel.predict (xGCp90 row)) ;;
     let xpts := xpts_mid (xGp90 row) (xAp90 row) cs_pts (bps row)
                          (defcon row) (yc row) in
     fdr_value <- get_fdr_value gw wc_gw fh_gw (player_team row) ;;
     ret (finish xpts fdr_value (price row))) ;;
   self <- get ;;
   put (set_midfielders self (write_columns (midfielders self) res)) ;;;
   self <- get ;;
   ret (midfielders self))%monad.

Definition get_asset_value_fwd (gw wc_gw fh_gw : Z) : M t player_df :=
  (self <- get ;;
   res <- forM (base_rows (forwards self)) (fun row =>
     let xpts := xpts_fwd (xGp90 row) (xAp90 row) (bps row)
                          (defcon row) (yc row) in
     fdr_value <- get_fdr_value gw wc_gw fh_gw (player_team row) ;;
     ret (finish xpts fdr_value (price row))) ;;
   self <- get ;;
   put (set_forwards self (write_columns (forwards self) res)) ;;;
   self <- get ;;
   ret (forwards self))%monad.

End WithSklearn.
End AssetValueModel.

(* ================================================================= *)
(** ** [system.py]: the test that [get_chip_gw] applies to the typed int *)

Definition valid_chip_gw (gw chip_gw : Z) : bool :=
  (((1 <=? gw) && (gw <=? 19) && (Z.max 2 gw <=? chip_gw) && (chip_gw <=? 19))
   || ((20 <=? gw) && (gw <=? 38) && (Z.max 20 gw <=? chip_gw) && (chip_gw <=? 38))
   || (chip_gw =? 0))%Z.

Module System.

(** The console: one entry per [input()] call, [None] for a line on which
    [int(...)] raises ValueError.  Each function returns what it read and the
    lines that are left; the outer [None] is a console that ran out of lines
    while the function was still asking. *)
Definition console : Type := list (option Z).

(** [get_chip_gw]: ask until the typed int passes the test. *)
Fixpoint get_chip_gw (gw : Z) (lines : console) : option (Z * console) :=
  match lines with
  | [] => None
  | Some chip_gw :: rest =>
      if valid_chip_gw gw chip_gw then Some (chip_gw, rest)
      else get_chip_gw gw rest
  | None :: rest => get_chip_gw gw rest
  end.

(** [get_gw_number]: ask again after a ValueError, return any int. *)
Fixpoint get_gw_number (lines : console) : option (Z * console) :=
  match lines with
  | [] => None
  | Some gw_number :: rest => Some (gw_number, rest)
  | None :: rest => get_gw_number rest
  end.

(** The fields of [System] that [run] writes. *)
Record chips : Type := mk_chips {
  gw : Z;
  wc_gw : Z;
  fh_gw : Z;
  is_running : bool
}.

(** [__init__] as far as these fields go. *)
Definition init (gw_number : Z) : chips :=
  {| gw := gw_number; wc_gw := 0; fh_gw := 0; is_running := false |}.

(** [run]: the Wildcard is asked for first, then the Free Hit. *)
Definition run (self : chips) (lines : console) : option (chips * console) :=
  match get_chip_gw (gw self) lines with
  | None => None
  | Some (wc, rest) =>
      match get_chip_gw (gw self) rest with
      | None => None
      | Some (fh, rest') =>
          Some ({| gw := gw self; wc_gw := wc; fh_gw := fh; is_running := true |},
                rest')
      end
  end.

End System.

(* ================================================================= *)
(** ** The specification's wording, for comparison with the code *)

(** Weight of gameweek [i] in the ten-week window that starts at [gw]. *)
Definition window_weight (gw i : Z) : R :=
  if ((gw <=? i) && (i <=? gw + 5))%Z then ln (IZR (8 - i))
  else 0.5 - IZR i / 25.

(** The team's difficulty rating at the 1-based gameweek [i]. *)
Definition rating_at (row : team_row) (i : Z) : R :=
  nth (Z.to_nat (i - 1)) (ratings row) 0.

(** Sum over [i] from [gw] to [gw + 9], skipping [fh_gw]. *)
Definition weighted_sum (gw fh_gw : Z) (row : team_row) : R :=
  Rsum (map (fun i => rating_at row i * window_weight gw i)
            (filter (fun i => negb (i =? fh_gw)%Z) (py_range gw (gw + 10)))).

(** Sum over [i] from [gw] to [wc_gw - 1], skipping [fh_gw], of the rating
    times [ln (wc_gw - i + 1)]. *)
Definition wildcard_sum (gw wc_gw fh_gw : Z) (row : team_row) : R :=
  Rsum (map (fun i => rating_at row i * ln (IZR (wc_gw - i + 1)))
            (filter (fun i => negb (i =? fh_gw)%Z) (py_range gw wc_gw))).

(** [-(normalized / 2) + 5] with [normalized = (x - mean) / std]; undefined
    (NaN) when the standard deviation is zero. *)
Definition spec_score (mu sigma x : R) : fl :=
  if Req_dec_T sigma 0 then NaN else Fin (- ((x - mu) / sigma / 2) + 5).

(** The preconditions under which the no-wildcard branch returns: gameweeks
    are 1-based, the ten-week window lies inside the recorded columns, and
    the first six weeks (the free-hit week apart) stop at gameweek 7. *)
Definition no_wildcard_pre (gw fh_gw : Z) (rows : list team_row) : Prop :=
  (1 <= gw)%Z /\
  Forall (fun row => (gw + 9 <= Z.of_nat (List.length (ratings row)))%Z) rows /\
  (forall i, (gw <= i <= gw + 5)%Z -> i <> fh_gw -> (i <= 7)%Z).

(** The frame that [get_fdr_value] stores and returns, from the rows it
    read and the raw sums it accumulated. *)
Definition scored_table (rows : list team_row) (raws : list R)
    : list (team_row * fl) :=
  map FDRValueModel.round_row
    (sort_values_desc snd
       (combine rows
          (map FDRValueModel.rescale (FDRValueModel.zscore_normalisation raws)))).

(** What [round(2)] does to the base columns of a fixture row. *)
Definition round_ratings (row : team_row) : team_row :=
  {| team := team row; position := position row;
     ratings := map round2 (ratings row) |}.


(** IEEE [<] on floats: NaN is unordered. *)
Definition fl_lt (a b : fl) : Prop :=
  match a, b with
  | Fin x, Fin y => x < y
  | NInf, Fin _ | NInf, PInf | Fin _, PInf => True
  | _, _ => False
  end.


(** The piecewise term for defensive contributions. *)
Definition defcon_term (d low mid_hi k scale offset : R) : R :=
  if Rlt_dec d low then d / 1000
  else if Rle_dec d mid_hi then py_pow (d - low) k / scale + offset
  else 2.

(** The term with the defenders' parameters, and with the parameters shared
    by midfielders and forwards. *)
Definition defcon_term_def (d : R) : R := defcon_term d 5 13.33 1.2 6.38 0.005.
Definition defcon_term_mid_fwd (d : R) : R := defcon_term d 6 16 1.2 8 0.006.

(** The four position categories and their [compute_values]. *)
Inductive position_kind : Type := Goalkeeper | Defender | Midfielder | Forward.

Definition compute_values {SK : Sklearn} (pos : position_kind)
    (gw wc_gw fh_gw : Z) : M AssetValueModel.t player_df :=
  match pos with
  | Goalkeeper => AssetValueModel.get_asset_value_gk gw wc_gw fh_gw
  | Defender => AssetValueModel.get_asset_value_def gw wc_gw fh_gw
  | Midfielder => AssetValueModel.get_asset_value_mid gw wc_gw fh_gw
  | Forward => AssetValueModel.get_asset_value_fwd gw wc_gw fh_gw
  end.

Definition position_table {SK : Sklearn} (pos : position_kind)
    (s : AssetValueModel.t) : player_df :=
  match pos with
  | Goalkeeper => AssetValueModel.goalkeepers s
  | Defender => AssetValueModel.defenders s
  | Midfielder => AssetValueModel.midfielders s
  | Forward => AssetValueModel.forwards s
  end.

(** Compute, then look one team up: what [AssetValueModel.get_fdr_value]
    runs on its aggregator. *)
Definition fdr_lookup (gw wc_gw fh_gw : Z) (team_name : string)
    : M FDRValueModel.t fl :=
  (FDRValueModel.get_fdr_value gw wc_gw fh_gw ;;;
   FDRValueModel.get_fdr_value_by_team team_name)%monad.

(** The common shape of the four position methods: which predictor gives
    the clean-sheet points, and how the expected points are formed. *)
Inductive cs_source : Type := UseGkDef | UseMid | NoCleanSheet.

Definition set_position_table {SK : Sklearn} (pos : position_kind)
    (s : AssetValueModel.t) (d : player_df) : AssetValueModel.t :=
  match pos with
  | Goalkeeper => AssetValueModel.set_goalkeepers s d
  | Defender => AssetValueModel.set_defenders s d
  | Midfielder => AssetValueModel.set_midfielders s d
  | Forward => AssetValueModel.set_forwards s d
  end.

Definition clean_sheet_points {SK : Sklearn} (src : cs_source) (x : R)
    : M AssetValueModel.t R :=
  match src with
  | UseGkDef => zoom AssetValueModel.clean_sheet_points_model_gk_def
                     AssetValueModel.set_gk_def (CleanSheetPointsModel.predict x)
  | UseMid => zoom AssetValueModel.clean_sheet_points_model_mid
                   AssetValueModel.set_mid (CleanSheetPointsModel.predict x)
  | NoCleanSheet => ret 0
  end.

Definition row_body {SK : Sklearn} (src : cs_source)
    (xpts_of : R -> player_row -> R) (gw wc_gw fh_gw : Z) (row : player_row)
    : M AssetValueModel.t AssetValueModel.appended :=
  (cs_pts <- clean_sheet_points src (xGCp90 row) ;;
   fdr_value <- AssetValueModel.get_fdr_value gw wc_gw fh_gw (player_team row) ;;
   ret (AssetValueModel.finish (xpts_of cs_pts row) fdr_value (price row)))%monad.

Definition position_method {SK : Sklearn} (pos : position_kind) (src : cs_source)
    (xpts_of : R -> player_row -> R) (gw wc_gw fh_gw : Z)
    : M AssetValueModel.t player_df :=
  (self <- get ;;
   res <- forM (base_rows (position_table pos self))
               (row_body src xpts_of gw wc_gw fh_gw) ;;
   self <- get ;;
   put (set_position_table pos self
          (AssetValueModel.write_columns (position_table pos self) res)) ;;;
   self <- get ;;
   ret (position_table pos self))%monad.

Definition position_source (pos : position_kind) : cs_source :=
  match pos with
  | Goalkeeper | Defender => UseGkDef
  | Midfielder => UseMid
  | Forward => NoCleanSheet
  end.

Definition position_xpts (pos : position_kind) (cs_pts : R) (row : player_row) : R :=
  match pos with
  | Goalkeeper => AssetValueModel.xpts_gk cs_pts (saves row) (bps row) (yc row)
  | Defender => AssetValueModel.xpts_def (xGp90 row) (xAp90 row) cs_pts (bps row)
                                         (defcon row) (yc row)
  | Midfielder => AssetValueModel.xpts_mid (xGp90 row) (xAp90 row) cs_pts (bps row)
                                           (defcon row) (yc row)
  | Forward => AssetValueModel.xpts_fwd (xGp90 row) (xAp90 row) (bps row)
                                        (defcon row) (yc row)
  end.

(** The three written columns of one row. *)
Definition to_derived (c : AssetValueModel.appended) : derived :=
  mk_derived (fst (fst c)) (snd (fst c)) (snd c).

(** The operations of a predictor instance, and a caller that runs a
    sequence of them on one instance, going on after an exception. *)
Inductive predictor_op : Type :=
| TrainModel
| Predict (xgcp90 : R).

Definition run_op {SK : Sklearn} (o : predictor_op) : M CleanSheetPointsModel.t unit :=
  match o with
  | TrainModel => CleanSheetPointsModel.train_model
  | Predict x => (_ <- CleanSheetPointsModel.predict x ;; ret tt)%monad
  end.

Fixpoint run_ops {SK : Sklearn} (ops : list predictor_op)
    (self : CleanSheetPointsModel.t) : CleanSheetPointsModel.t :=
  match ops with
  | [] => self
  | o :: ops' => run_ops ops' (snd (run_op o self))
  end.

(** Estimators for the examples: the scaler centres on the mean, the
    regressor answers the mean of its targets. *)
Definition demo_sklearn : Sklearn := {|
  scaler_params := R;
  sgd_params := R;
  scaler_fit := fun x => Ok (FDRValueModel.np_mean x);
  scaler_transform := fun mu x => x - mu;
  sgd_fit := fun _ y => Ok (FDRValueModel.np_mean y);
  sgd_predict := fun b _ => b
|}.

(** The same estimators, with a scaler that refuses an empty array as
    scikit-learn's does. *)
Definition strict_sklearn : Sklearn := {|
  scaler_params := R;
  sgd_params := R;
  scaler_fit := fun x => match x with
                         | [] => Raise ValueError
                         | _ => Ok (FDRValueModel.np_mean x)
                         end;
  scaler_transform := fun mu x => x - mu;
  sgd_fit := fun _ y => Ok (FDRValueModel.np_mean y);
  sgd_predict := fun b _ => b
|}.

(* ================================================================= *)
(** ** The code over binary64 *)

(** Binary64 arithmetic and the library routines whose answers depend on
    it, as an interface.  [rnd] rounds a real to the nearest binary64
    number: a float operation of Python or numpy is the exact operation
    followed by [rnd].  [log64] is [math.log] on a positive int and [pow64]
    is [**] on floats with a base that is not negative (for a negative base
    Python answers with a complex number, which is left out).  [mean64],
    [std64] and [round64] are [np.mean], [np.std] and [np.round(x, 2)];
    [sort64] is [sort_values(ascending=False)] on a float key, whose order
    among rows with equal keys is not fixed.  Overflow is left out: an
    operation on finite values gives a finite value. *)
Class Float64 : Type := {
  rnd : R -> R;
  log64 : Z -> R;
  pow64 : R -> R -> R;
  mean64 : list R -> R;
  std64 : list R -> R;
  round64 : R -> R;
  sort64 : forall A : Type, (A -> fl) -> list A -> list A
}.
Arguments sort64 {Float64} {A} key l.

(** What the proofs use of the sort and of the rounding to two decimals:
    the sort permutes the rows and leaves them in descending order of the
    key, NaN last; an int (of at most 13 digits) has no decimals to round. *)
Record Float64_laws (F : Float64) : Prop := {
  sort64_perm : forall (A : Type) (key : A -> fl) (l : list A),
    Permutation (sort64 key l) l;
  sort64_sorted : forall (A : Type) (key : A -> fl) (l : list A),
    Sorted (fun x y => desc_before (key x) (key y) = true) (sort64 key l);
  round64_int : forall n : Z, (Z.abs n <= 10 ^ 13)%Z -> round64 (IZR n) = IZR n
}.

(** Float operations on finite values, and a decimal literal. *)
Definition fadd {F : Float64} (x y : R) : R := rnd (x + y).
Definition fsub {F : Float64} (x y : R) : R := rnd (x - y).
Definition fmul {F : Float64} (x y : R) : R := rnd (x * y).
Definition fdiv {F : Float64} (x y : R) : R := rnd (x / y).
Definition lit {F : Float64} (x : R) : R := rnd x.

Notation "x +! y" := (fadd x y) (at level 50, left associativity).
Notation "x -! y" := (fsub x y) (at level 50, left associativity).
Notation "x *! y" := (fmul x y) (at level 40, left associativity).
Notation "x /! y" := (fdiv x y) (at level 40, left associativity).

(** The same operations on numpy floats, special values included. *)
Definition fl_add64 {F : Float64} (a b : fl) : fl :=
  match a, b with
  | NaN, _ | _, NaN => NaN
  | Fin x, Fin y => Fin (x +! y)
  | PInf, NInf | NInf, PInf => NaN
  | PInf, _ | _, PInf => PInf
  | NInf, _ | _, NInf => NInf
  end.

Definition fl_mul64 {F : Float64} (a b : fl) : fl :=
  match a, b with
  | NaN, _ | _, NaN => NaN
  | Fin x, Fin y => Fin (x *! y)
  | _, _ =>
      match fl_sign a, fl_sign b with
      | Some sa, Some sb => signed_inf (Bool.eqb sa sb)
      | _, _ => NaN
      end
  end.

Definition fl_div64 {F : Float64} (a b : fl) : fl :=
  match a, b with
  | NaN, _ | _, NaN => NaN
  | Fin x, Fin y =>
      if Req_dec_T y 0 then
        match fl_sign a with
        | Some s => signed_inf s
        | None => NaN
        end
      else Fin (x /! y)
  | Fin _, _ => Fin 0
  | _, Fin y =>
      match fl_sign a with
      | Some sa => signed_inf (Bool.eqb sa (if Rlt_dec y 0 then false else true))
      | None => NaN
      end
  | _, _ => NaN
  end.

Definition fl_round64 {F : Float64} (a : fl) : fl :=
  match a with
  | Fin r => Fin (round64 r)
  | _ => a
  end.

(** [fdr_value_model.py], every float operation rounded.  The state is the
    record of [FDRValueModel]. *)
Module FDRValueModel64.
Section WithFloat64.
Context {F : Float64}.

Definition math_log (n : Z) : result R :=
  if (n <=? 0)%Z then Raise ValueError else Ok (log64 n).

Definition zscore_normalisation (array : list R) : list fl :=
  let mu := mean64 array in
  let sigma := std64 array in
  map (fun x => fl_div64 (Fin (x -! mu)) (Fin sigma)) array.

Definition no_wildcard_step (gw fh_gw : Z) (row : team_row)
    (fdr_value : R) (i : Z) : result R :=
  if (i =? fh_gw)%Z then Ok fdr_value
  else if in_range i gw (gw + 6) then
    (x <- py_getitem (ratings row) (i - 1) ;;
     w <- math_log (- i + 8) ;;
     Ok (fdr_value +! x *! w))%res
  else if in_range i (gw + 6) (gw + 10) then
    (x <- py_getitem (ratings row) (i - 1) ;;
     Ok (fdr_value +! x *! (- (IZR i /! 25) +! 0.5)))%res
  else Ok fdr_value.

Definition wildcard_step (wc_gw fh_gw : Z) (row : team_row)
    (fdr_value : R) (i : Z) : result R :=
  if (i =? fh_gw)%Z then Ok fdr_value
  else
    (x <- py_getitem (ratings row) (i - 1) ;;
     w <- math_log (- i + wc_gw + 1) ;;
     Ok (fdr_value +! x *! w))%res.

Definition raw_fdr_results (gw wc_gw fh_gw : Z) (rows : list team_row)
    : result (list R) :=
  if (wc_gw =? 0)%Z then
    mapR (fun row => foldR (no_wildcard_step gw fh_gw row)
                           (py_range gw (gw + 10)) 0) rows
  else
    mapR (fun row => foldR (wildcard_step wc_gw fh_gw row)
                           (py_range gw wc_gw) 0) rows.

(** [- (fdr_results / 2) + 5] *)
Definition rescale (z : fl) : fl :=
  fl_add64 (fl_neg (fl_div64 z (Fin 2))) (Fin 5).

Definition round_row (r : team_row * fl) : team_row * fl :=
  ({| team := team (fst r);
      position := position (fst r);
      ratings := map round64 (ratings (fst r)) |},
   fl_round64 (snd r)).

Definition get_fdr_value (gw wc_gw fh_gw : Z) : M FDRValueModel.t fixtures_df :=
  (self <- get ;;
   let rows := base_rows (FDRValueModel.df self) in
   fdr_results <- lift (raw_fdr_results gw wc_gw fh_gw rows) ;;
   let fdr_results := zscore_normalisation fdr_results in
   let fdr_results := map rescale fdr_results in
   let df1 := combine rows fdr_results in
   let df2 := sort64 snd df1 in
   let df3 := map round_row df2 in
   put {| FDRValueModel.df := Scored df3 |} ;;;
   ret (Scored df3))%monad.

End WithFloat64.
End FDRValueModel64.

(** [asset_value_model.py], every float operation rounded.  The state is
    the record of [AssetValueModel]; the predictors answer as there. *)
Module AssetValueModel64.
Section WithInterfaces.
Context {SK : Sklearn} {F : Float64}.

Definition get_fdr_value (gw wc_gw fh_gw : Z) (team_name : string)
    : M AssetValueModel.t fl :=
  zoom AssetValueModel.fdr_value_model AssetValueModel.set_fdr_value_model
    (FDRValueModel64.get_fdr_value gw wc_gw fh_gw ;;;
     FDRValueModel.get_fdr_value_by_team team_name)%monad.

(** [(12 * xpts + 8 * fdr_value) / price ** 0.25] *)
Definition asset_value (xpts : R) (fdr_value : fl) (price : R) : fl :=
  fl_div64 (fl_add64 (Fin (12 *! xpts)) (fl_mul64 (Fin 8) fdr_value))
           (Fin (pow64 price 0.25)).

Definition round_player (r : player_row * derived) : player_row * derived :=
  let p := fst r in
  let d := snd r in
  (mk_player_row (player p) (player_team p) (round64 (price p))
     (round64 (xGp90 p)) (round64 (xAp90 p)) (round64 (xGCp90 p))
     (round64 (saves p)) (round64 (bps p)) (round64 (defcon p)) (round64 (yc p)),
   mk_derived (round64 (xPts d)) (fl_round64 (FDR_value d)) (fl_round64 (value d))).

Definition update_df (df : player_df) (xpts_list : list R)
    (fdr_values asset_values : list fl) : player_df :=
  let df1 := combine (base_rows df)
               (map (fun c => mk_derived (fst (fst c)) (snd (fst c)) (snd c))
                    (combine (combine xpts_list fdr_values) asset_values)) in
  let df2 := sort64 (fun r => value (snd r)) df1 in
  let _ := map round_player df2 in
  Scored df2.

Definition xpts_gk (cs_pts saves bps yc : R) : R :=
  2 +! cs_pts +! saves /! 3 +! bps -! yc.

Definition xpts_def (xgp90 xap90 cs_pts bps defcon yc : R) : R :=
  if Rlt_dec defcon 5 then
    2 +! xgp90 *! 6 +! xap90 *! 3 +! cs_pts +! bps +! defcon /! 1000 -! yc
  else if Rle_dec 5 defcon then
    if Rle_dec defcon (lit 13.33) then
      2 +! xgp90 *! 6 +! xap90 *! 3 +! cs_pts +! bps
        +! (((pow64 (defcon -! 5) (lit 1.2)) /! lit 6.38) +! lit 0.005) -! yc
    else 2 +! xgp90 *! 6 +! xap90 *! 3 +! cs_pts +! bps +! 2 -! yc
  else 2 +! xgp90 *! 6 +! xap90 *! 3 +! cs_pts +! bps +! 2 -! yc.

Definition xpts_mid (xgp90 xap90 cs_pts bps defcon yc : R) : R :=
  if Rlt_dec defcon 6 then
    2 +! xgp90 *! 5 +! xap90 *! 3 +! cs_pts +! bps +! defcon /! 1000 -! yc
  else if Rle_dec 6 defcon then
    if Rle_dec defcon 16 then
      2 +! xgp90 *! 5 +! xap90 *! 3 +! cs_pts +! bps
        +! (((pow64 (defcon -! 6) (lit 1.2)) /! 8) +! lit 0.006) -! yc
    else 2 +! xgp90 *! 5 +! xap90 *! 3 +! cs_pts +! bps +! 2 -! yc
  else 2 +! xgp90 *! 5 +! xap90 *! 3 +! cs_pts +! bps +! 2 -! yc.

Definition xpts_fwd (xgp90 xap90 bps defcon yc : R) : R :=
  if Rlt_dec defcon 6 then
    2 +! xgp90 *! 4 +! xap90 *! 3 +! bps +! defcon /! 1000 -! yc
  else if Rle_dec 6 defcon then
    if Rle_dec defcon 16 then
      2 +! xgp90 *! 4 +! xap90 *! 3 +! bps
        +! (((pow64 (defcon -! 6) (lit 1.2)) /! 8) +! lit 0.006) -! yc
    else 2 +! xgp90 *! 4 +! xap90 *! 3 +! bps +! 2 -! yc
  else 2 +! xgp90 *! 4 +! xap90 *! 3 +! bps +! 2 -! yc.

Definition finish (xpts : R) (fdr_value : fl) (price : R)
    : AssetValueModel.appended :=
  (xpts, fdr_value, asset_value xpts fdr_value price).

Definition write_columns (df : player_df) (res : list AssetValueModel.appended)
    : player_df :=
  update_df df (map (fun c => fst (fst c)) res)
               (map (fun c => snd (fst c)) res)
               (map snd res).

Definition get_asset_value_gk (gw wc_gw fh_gw : Z) : M AssetValueModel.t player_df :=
  (self <- get ;;
   res <- forM (base_rows (AssetValueModel.goalkeepers self)) (fun row =>
     cs_pts <- zoom AssetValueModel.clean_sheet_points_model_gk_def
                 AssetValueModel.set_gk_def
                 (CleanSheetPointsModel.predict (xGCp90 row)) ;;
     let xpts := xpts_gk cs_pts (saves row) (bps row) (yc row) in
     fdr_value <- get_fdr_value gw wc_gw fh_gw (player_team row) ;;
     ret (finish xpts fdr_value (price row))) ;;
   self <- get ;;
   put (AssetValueModel.set_goalkeepers self
          (write_columns (AssetValueModel.goalkeepers self) res)) ;;;
   self <- get ;;
   ret (AssetValueModel.goalkeepers self))%monad.

Definition get_asset_value_def (gw wc_gw fh_gw : Z) : M AssetValueModel.t player_df :=
  (self <- get ;;
   res <- forM (base_rows (AssetValueModel.defenders self)) (fun row =>
     cs_pts <- zoom AssetValueModel.clean_sheet_points_model_gk_def
                 AssetValueModel.set_gk_def
                 (CleanSheetPointsModel.predict (xGCp90 row)) ;;
     let xpts := xpts_def (xGp90 row) (xAp90 row) cs_pts (bps row)
                          (defcon row) (yc row) in
     fdr_value <- get_fdr_value gw wc_gw fh_gw (player_team row) ;;
     ret (finish xpts fdr_value (price row))) ;;
   self <- get ;;
   put (AssetValueModel.set_defenders self
          (write_columns (AssetValueModel.defenders self) res)) ;;;
   self <- get ;;
   ret (AssetValueModel.defenders self))%monad.

Definition get_asset_value_mid (gw wc_gw fh_gw : Z) : M AssetValueModel.t player_df :=
  (self <- get ;;
   res <- forM (base_rows (AssetValueModel.midfielders self)) (fun row =>
     cs_pts <- zoom AssetValueModel.clean_sheet_points_model_mid
                 AssetValueModel.set_mid
                 (CleanSheetPointsModel.predict (xGCp90 row)) ;;
     let xpts := xpts_mid (xGp90 row) (xAp90 row) cs_pts (bps row)
                          (defcon row) (yc row) in
     fdr_value <- get_fdr_value gw wc_gw fh_gw (player_team row) ;;
     ret (finish xpts fdr_value (price row))) ;;
   self <- get ;;
   put (AssetValueModel.set_midfielders self
          (write_columns (AssetValueModel.midfielders self) res)) ;;;
   self <- get ;;
   ret (AssetValueModel.midfielders self))%monad.

Definition get_asset_value_fwd (gw wc_gw fh_gw : Z) : M AssetValueModel.t player_df :=
  (self <- get ;;
   res <- forM (base_rows (AssetValueModel.forwards self)) (fun row =>
     let xpts := xpts_fwd (xGp90 row) (xAp90 row) (bps row)
                          (defcon row) (yc row) in
     fdr_value <- get_fdr_value gw wc_gw fh_gw (player_team row) ;;
     ret (finish xpts fdr_value (price row))) ;;
   self <- get ;;
   put (AssetValueModel.set_forwards self
          (write_columns (AssetValueModel.forwards self) res)) ;;;
   self <- get ;;
   ret (AssetValueModel.forwards self))%monad.

End WithInterfaces.
End AssetValueModel64.

(** The four position methods over binary64, and their common shape. *)
Definition compute_values64 {SK : Sklearn} {F : Float64} (pos : position_kind)
    (gw wc_gw fh_gw : Z) : M AssetValueModel.t player_df :=
  match pos with
  | Goalkeeper => AssetValueModel64.get_asset_value_gk gw wc_gw fh_gw
  | Defender => AssetValueModel64.get_asset_value_def gw wc_gw fh_gw
  | Midfielder => AssetValueModel64.get_asset_value_mid gw wc_gw fh_gw
  | Forward => AssetValueModel64.get_asset_value_fwd gw wc_gw fh_gw
  end.


Definition row_body64 {SK : Sklearn} {F : Float64} (src : cs_source)
    (xpts_of : R -> player_row -> R) (gw wc_gw fh_gw : Z) (row : player_row)
    : M AssetValueModel.t AssetValueModel.appended :=
  (cs_pts <- clean_sheet_points src (xGCp90 row) ;;
   fdr_value <- AssetValueModel64.get_fdr_value gw wc_gw fh_gw (player_team row) ;;
   ret (AssetValueModel64.finish (xpts_of cs_pts row) fdr_value (price row)))%monad.

Definition position_method64 {SK : Sklearn} {F : Float64} (pos : position_kind)
    (src : cs_source) (xpts_of : R -> player_row -> R) (gw wc_gw fh_gw : Z)
    : M AssetValueModel.t player_df :=
  (self <- get ;;
   res <- forM (base_rows (position_table pos self))
               (row_body64 src xpts_of gw wc_gw fh_gw) ;;
   self <- get ;;
   put (set_position_table pos self
          (AssetValueModel64.write_columns (position_table pos self) res)) ;;;
   self <- get ;;
   ret (position_table pos self))%monad.

Definition position_xpts64 {F : Float64} (pos : position_kind) (cs_pts : R)
    (row : player_row) : R :=
  match pos with
  | Goalkeeper => AssetValueModel64.xpts_gk cs_pts (saves row) (bps row) (yc row)
  | Defender => AssetValueModel64.xpts_def (xGp90 row) (xAp90 row) cs_pts (bps row)
                                           (defcon row) (yc row)
  | Midfielder => AssetValueModel64.xpts_mid (xGp90 row) (xAp90 row) cs_pts (bps row)
                                             (defcon row) (yc row)
  | Forward => AssetValueModel64.xpts_fwd (xGp90 row) (xAp90 row) (bps row)
                                          (defcon row) (yc row)
  end.

(** The specification's wording over binary64.  The weight of gameweek
    [i]; the sum over [i] from [gw] to [gw + 9], skipping [fh_gw], taken
    from [0.0] in increasing order of [i]; and [-(normalized / 2) + 5] with
    [normalized = (x - mean) / std]. *)
Definition window_weight64 {F : Float64} (gw i : Z) : R :=
  if ((gw <=? i) && (i <=? gw + 5))%Z then log64 (8 - i)
  else 0.5 -! IZR i /! 25.

Definition weighted_sum64 {F : Float64} (gw fh_gw : Z) (row : team_row) : R :=
  fold_left (fun acc i => acc +! rating_at row i *! window_weight64 gw i)
            (filter (fun i => negb (i =? fh_gw)%Z) (py_range gw (gw + 10))) 0.

Definition spec_score64 {F : Float64} (mu sigma x : R) : fl :=
  let normalized := fl_div64 (Fin (x -! mu)) (Fin sigma) in
  fl_add64 (fl_neg (fl_div64 normalized (Fin 2))) (Fin 5).

(** What [round(2)] does to the base columns of a fixture row. *)
Definition round_ratings64 {F : Float64} (row : team_row) : team_row :=
  {| team := team row; position := position row;
     ratings := map round64 (ratings row) |}.

(** Every rating of the table is left alone by [round(2)]. *)
Definition unchanged_by_round64 {F : Float64} (rows : list team_row) : Prop :=
  Forall (fun row => Forall (fun x => round64 x = x) (ratings row)) rows.

(** Every rating of the table is an int of at most 13 digits. *)
Definition int_ratings (rows : list team_row) : Prop :=
  Forall (fun row =>
            Forall (fun x => exists n : Z, (Z.abs n <= 10 ^ 13)%Z /\ x = IZR n)
                   (ratings row)) rows.

(** The FDR computation for these gameweeks, run again on the table that it
    has just stored, returns and stores that same table. *)
Definition fdr_repeats {F : Float64} (gw wc_gw fh_gw : Z) (self : FDRValueModel.t)
    : Prop :=
  forall out self',
    FDRValueModel64.get_fdr_value gw wc_gw fh_gw self = (Ok out, self') ->
    FDRValueModel64.get_fdr_value gw wc_gw fh_gw self' = (Ok out, self').

(** No player of the table has a negative price. *)
Definition prices_not_negative (rows : list player_row) : Prop :=
  Forall (fun row => 0 <= price row) rows.

(** Arithmetic without rounding error and a stable sort: the instance at
    which the binary64 model is the idealised model of the sections
    above. *)
Definition exact_float64 : Float64 := {|
  rnd := fun x => x;
  log64 := fun n => ln (IZR n);
  pow64 := py_pow;
  mean64 := FDRValueModel.np_mean;
  std64 := FDRValueModel.np_std;
  round64 := round2;
  sort64 := @sort_values_desc
|}.

(** ** Example tables *)

(** A team whose ten recorded gameweeks all have the rating [c]. *)
Definition flat_row (name : string) (pos : Z) (c : R) : team_row :=
  {| team := name; position := pos; ratings := repeat c 10 |}.

(** The two-team scenario of the specification. *)
Definition fixtures_two : list team_row :=
  [flat_row "A" 1 3; flat_row "B" 2 1].

Definition fixtures_four : list team_row :=
  [flat_row "A" 1 1; flat_row "B" 2 2; flat_row "C" 3 2; flat_row "D" 4 5].

(** Team A has a rating with three decimals in gameweek 1. *)
Definition fine_row : team_row :=
  {| team := "A"; position := 1; ratings := 1.004 :: repeat 1 9 |}.

Definition fixtures_fine : list team_row := [fine_row; flat_row "B" 2 1].

(** A team whose 38 gameweeks all have the rating [c]. *)
Definition season_row (name : string) (pos : Z) (c : R) : team_row :=
  {| team := name; position := pos; ratings := repeat c 38 |}.

(** The total weight of the window that starts at gameweek 1. *)
Definition weight_gw1 : R := ln 7 + ln 6 + ln 5 + ln 4 + ln 3 + ln 2 + 0.64.

(** A forward with 1 defensive contribution per match and nothing else. *)
Definition quiet_forward (name team_name : string) : player_row :=
  {| player := name; player_team := team_name; price := 1;
     xGp90 := 0; xAp90 := 0; xGCp90 := 0; saves := 0; bps := 0;
     defcon := 1; yc := 0 |}.

Definition model_with_forward (fixtures : list team_row) (team_name : string)
    : AssetValueModel.t (SK := demo_sklearn) :=
  AssetValueModel.init (SK := demo_sklearn)
    ([], [], [], [quiet_forward "X" team_name]) fixtures [] [] [].

(* ================================================================= *)
(** * Proofs *)

(** ** Sequences and the result monad *)

#[local] Arguments Z.add : simpl never.
#[local] Arguments Z.sub : simpl never.
#[local] Arguments Z.opp : simpl never.
#[local] Arguments Z.mul : simpl never.
#[local] Arguments Z.leb : simpl never.
#[local] Arguments Z.ltb : simpl never.
#[local] Arguments Z.eqb : simpl never.
#[local] Arguments Z.of_nat : simpl never.
#[local] Arguments Z.to_nat : simpl never.

Lemma in_py_range (a b i : Z) : In i (py_range a b) <-> (a <= i < b)%Z.
Proof.
  unfold py_range. rewrite in_map_iff. split.
  - intros [k [<- Hk]]. apply in_seq in Hk. lia.
  - intros H. exists (Z.to_nat (i - a)). split; [lia|].
    apply in_seq. lia.
Qed.

Lemma py_range_empty (a b : Z) : (b <= a)%Z -> py_range a b = [].
Proof.
  intros H. unfold py_range.
  replace (Z.to_nat (b - a)) with 0%nat by lia. reflexivity.
Qed.

Lemma py_range_ten (gw : Z) :
  py_range gw (gw + 10) =
  [gw + 0; gw + 1; gw + 2; gw + 3; gw + 4; gw + 5; gw + 6; gw + 7; gw + 8; gw + 9]%Z.
Proof.
  unfold py_range. replace (gw + 10 - gw)%Z with 10%Z by lia. reflexivity.
Qed.

Lemma py_getitem_nth {A} (l : list A) (j : Z) (d : A) :
  (0 <= j < Z.of_nat (List.length l))%Z ->
  py_getitem l j = Ok (nth (Z.to_nat j) l d).
Proof.
  intros H. unfold py_getitem.
  destruct (Z.ltb_spec j 0); [lia|].
  destruct (Z.leb_spec 0 j); [|lia].
  destruct (Z.ltb_spec j (Z.of_nat (List.length l))); [|lia]. simpl.
  destruct (nth_error l (Z.to_nat j)) eqn:E.
  - f_equal. symmetry. now apply nth_error_nth.
  - apply nth_error_None in E. lia.
Qed.

Lemma mapR_ok {A B} (f : A -> result B) (g : A -> B) (l : list A) :
  (forall a, In a l -> f a = Ok (g a)) -> mapR f l = Ok (map g l).
Proof.
  induction l as [|a l IH]; intros H; simpl; [reflexivity|].
  rewrite (H a (or_introl eq_refl)). simpl.
  rewrite IH by (intros; apply H; now right). reflexivity.
Qed.

Lemma mapR_length {A B} (f : A -> result B) (l : list A) (bs : list B) :
  mapR f l = Ok bs -> List.length bs = List.length l.
Proof.
  revert bs. induction l as [|a l IH]; intros bs; simpl.
  - intros [= <-]. reflexivity.
  - destruct (f a); simpl; [|discriminate].
    destruct (mapR f l); simpl; [|discriminate].
    intros [= <-]. simpl. f_equal. now apply IH.
Qed.

Lemma mapR_ext {A B} (f g : A -> result B) (l : list A) :
  (forall a, In a l -> f a = g a) -> mapR f l = mapR g l.
Proof.
  induction l as [|a l IH]; intros H; simpl; [reflexivity|].
  rewrite (H a (or_introl eq_refl)).
  rewrite IH by (intros; apply H; now right). reflexivity.
Qed.

(** ** Raw weighted sums *)

Import FDRValueModel.

Lemma window_weight_first (gw i : Z) :
  (gw <= i < gw + 6)%Z -> window_weight gw i = ln (IZR (- i + 8)).
Proof.
  intros H. unfold window_weight.
  destruct (Z.leb_spec gw i); [|lia].
  destruct (Z.leb_spec i (gw + 5)); [|lia]. simpl.
  now replace (- i + 8)%Z with (8 - i)%Z by lia.
Qed.

Lemma window_weight_rest (gw i : Z) :
  (gw + 6 <= i)%Z -> window_weight gw i = - (IZR i / 25) + 0.5.
Proof.
  intros H. unfold window_weight.
  destruct (Z.leb_spec i (gw + 5)); [lia|].
  rewrite andb_false_r. lra.
Qed.

(** When the window lies inside the recorded columns and no logarithm is
    taken of a non-positive number, the loop of the no-wildcard branch
    returns the accumulated weighted terms. *)
Lemma no_wildcard_fold (gw fh_gw : Z) (row : team_row) (l : list Z) (acc : R) :
  (forall i, In i l -> i <> fh_gw ->
     (gw <= i < gw + 10)%Z /\
     (1 <= i <= Z.of_nat (List.length (ratings row)))%Z /\
     ((i < gw + 6)%Z -> (i <= 7)%Z)) ->
  foldR (no_wildcard_step gw fh_gw row) l acc =
  Ok (acc + Rsum (map (fun i => rating_at row i * window_weight gw i)
                      (filter (fun i => negb (i =? fh_gw)%Z) l))).
Proof.
  revert acc. induction l as [|i l IH]; intros acc H; simpl.
  - f_equal. lra.
  - assert (Hl : forall j, In j l -> j <> fh_gw ->
              (gw <= j < gw + 10)%Z /\
              (1 <= j <= Z.of_nat (List.length (ratings row)))%Z /\
              ((j < gw + 6)%Z -> (j <= 7)%Z))
      by (intros j Hj; apply H; now right).
    unfold no_wildcard_step at 1.
    destruct (Z.eqb_spec i fh_gw) as [->|Hne]; simpl.
    + now apply IH.
    + destruct (H i (or_introl eq_refl) Hne) as (Hw & Hc & Hlog).
      rewrite (py_getitem_nth _ _ 0) by lia. simpl.
      change (nth (Z.to_nat (i - 1)) (ratings row) 0) with (rating_at row i).
      unfold in_range.
      destruct (Z.leb_spec gw i); [|lia]. simpl.
      destruct (Z.ltb_spec i (gw + 6)); simpl.
      * unfold math_log. destruct (Z.leb_spec (- i + 8) 0); [lia|]. simpl.
        rewrite IH by assumption. f_equal.
        rewrite window_weight_first by lia. lra.
      * destruct (Z.leb_spec (gw + 6) i); [|lia].
        destruct (Z.ltb_spec i (gw + 10)); [|lia]. simpl.
        rewrite IH by assumption. f_equal.
        rewrite window_weight_rest by lia. lra.
Qed.

Lemma no_wildcard_raw (gw fh_gw : Z) (rows : list team_row) :
  no_wildcard_pre gw fh_gw rows ->
  raw_fdr_results gw 0 fh_gw rows = Ok (map (weighted_sum gw fh_gw) rows).
Proof.
  intros (Hgw & Hcols & Hlog). unfold raw_fdr_results. simpl.
  apply mapR_ok. intros row Hin.
  rewrite Forall_forall in Hcols. specialize (Hcols row Hin).
  rewrite no_wildcard_fold.
  - unfold weighted_sum. f_equal. lra.
  - intros i Hi Hne. apply in_py_range in Hi.
    repeat split; try lia. intros Hlt. apply Hlog; [lia|assumption].
Qed.

(** An empty window: every raw sum is the initial [0.0]. *)
Lemma wildcard_raw_empty (gw wc_gw fh_gw : Z) (rows : list team_row) :
  wc_gw <> 0%Z -> (wc_gw <= gw)%Z ->
  raw_fdr_results gw wc_gw fh_gw rows = Ok (map (fun _ => 0) rows).
Proof.
  intros Hwc Hle. unfold raw_fdr_results.
  destruct (Z.eqb_spec wc_gw 0); [contradiction|].
  apply mapR_ok. intros row _. now rewrite py_range_empty.
Qed.

(** From gameweek 8 on, the first index of the window that is not the
    free-hit week asks for the logarithm of a non-positive number. *)
Lemma no_wildcard_fold_raises (gw fh_gw : Z) (row : team_row) :
  (8 <= gw)%Z -> (gw < Z.of_nat (List.length (ratings row)))%Z ->
  foldR (no_wildcard_step gw fh_gw row) (py_range gw (gw + 10)) 0 = Raise ValueError.
Proof.
  intros Hgw Hcols. rewrite py_range_ten.
  assert (Hstep : forall i acc, (gw <= i <= gw + 1)%Z -> i <> fh_gw ->
            no_wildcard_step gw fh_gw row acc i = Raise ValueError).
  { intros i acc Hi Hne. unfold no_wildcard_step.
    destruct (Z.eqb_spec i fh_gw); [contradiction|].
    unfold in_range. destruct (Z.leb_spec gw i); [|lia].
    destruct (Z.ltb_spec i (gw + 6)); [|lia]. simpl.
    rewrite (py_getitem_nth _ _ 0) by lia. simpl.
    unfold math_log. destruct (Z.leb_spec (- i + 8) 0); [reflexivity|lia]. }
  cbn [foldR].
  destruct (Z.eq_dec (gw + 0) fh_gw) as [E|E].
  - unfold no_wildcard_step at 1.
    destruct (Z.eqb_spec (gw + 0) fh_gw); [|contradiction]. simpl.
    rewrite Hstep by lia. reflexivity.
  - rewrite Hstep by lia. reflexivity.
Qed.

(** Whatever the columns, from gameweek 8 on the loop raises. *)
Lemma no_wildcard_fold_fails (gw fh_gw : Z) (row : team_row) :
  (8 <= gw)%Z ->
  exists e, foldR (no_wildcard_step gw fh_gw row) (py_range gw (gw + 10)) 0 = Raise e.
Proof.
  intros Hgw. rewrite py_range_ten.
  assert (Hstep : forall i acc, (gw <= i <= gw + 1)%Z -> i <> fh_gw ->
            exists e, no_wildcard_step gw fh_gw row acc i = Raise e).
  { intros i acc Hi Hne. unfold no_wildcard_step.
    destruct (Z.eqb_spec i fh_gw); [contradiction|].
    unfold in_range. destruct (Z.leb_spec gw i); [|lia].
    destruct (Z.ltb_spec i (gw + 6)); [|lia]. simpl.
    destruct (py_getitem (ratings row) (i - 1)); simpl; [|now eexists].
    unfold math_log. destruct (Z.leb_spec (- i + 8) 0); [now eexists|lia]. }
  cbn [foldR].
  destruct (Z.eq_dec (gw + 0) fh_gw) as [E|E].
  - unfold no_wildcard_step at 1.
    destruct (Z.eqb_spec (gw + 0) fh_gw); [|contradiction]. simpl.
    destruct (Hstep (gw + 1)%Z 0) as [x Hx]; [lia|lia|]. rewrite Hx. now eexists.
  - destruct (Hstep (gw + 0)%Z 0) as [x Hx]; [lia|lia|]. rewrite Hx. now eexists.
Qed.

(** ** Sorting *)

Lemma insert_desc_perm {A} (key : A -> fl) (x : A) (l : list A) :
  Permutation (insert_desc key x l) (x :: l).
Proof.
  induction l as [|y l IH]; simpl; [reflexivity|].
  destruct (desc_before (key x) (key y)); [reflexivity|].
  rewrite IH. apply perm_swap.
Qed.

Lemma sort_values_desc_perm {A} (key : A -> fl) (l : list A) :
  Permutation (sort_values_desc key l) l.
Proof.
  induction l as [|x l IH]; simpl; [reflexivity|].
  rewrite insert_desc_perm. now constructor.
Qed.

Lemma sort_values_desc_length {A} (key : A -> fl) (l : list A) :
  List.length (sort_values_desc key l) = List.length l.
Proof. apply Permutation_length, sort_values_desc_perm. Qed.

(** ** Running [get_fdr_value] *)

Lemma get_fdr_value_returns (self : FDRValueModel.t) (gw wc_gw fh_gw : Z)
    (raws : list R) :
  raw_fdr_results gw wc_gw fh_gw (base_rows (df self)) = Ok raws ->
  get_fdr_value gw wc_gw fh_gw self =
  (Ok (Scored (scored_table (base_rows (df self)) raws)),
   {| df := Scored (scored_table (base_rows (df self)) raws) |}).
Proof.
  intros H. unfold get_fdr_value, bind, get, lift, put, ret.
  rewrite H. reflexivity.
Qed.

Lemma get_fdr_value_raises (self : FDRValueModel.t) (gw wc_gw fh_gw : Z) (e : exn) :
  raw_fdr_results gw wc_gw fh_gw (base_rows (df self)) = Raise e ->
  get_fdr_value gw wc_gw fh_gw self = (Raise e, self).
Proof.
  intros H. unfold get_fdr_value, bind, get, lift, put, ret.
  rewrite H. reflexivity.
Qed.

(** Every outcome of [get_fdr_value] is one of the two above. *)
Lemma get_fdr_value_cases (self : FDRValueModel.t) (gw wc_gw fh_gw : Z) :
  (exists raws,
     raw_fdr_results gw wc_gw fh_gw (base_rows (df self)) = Ok raws /\
     get_fdr_value gw wc_gw fh_gw self =
     (Ok (Scored (scored_table (base_rows (df self)) raws)),
      {| df := Scored (scored_table (base_rows (df self)) raws) |})) \/
  (exists e, get_fdr_value gw wc_gw fh_gw self = (Raise e, self)).
Proof.
  destruct (raw_fdr_results gw wc_gw fh_gw (base_rows (df self))) as [raws|e] eqn:E.
  - left. exists raws. split; [reflexivity|]. now apply get_fdr_value_returns.
  - right. exists e. now apply get_fdr_value_raises.
Qed.

Lemma raw_fdr_results_length (gw wc_gw fh_gw : Z) (rows : list team_row) (raws : list R) :
  raw_fdr_results gw wc_gw fh_gw rows = Ok raws ->
  List.length raws = List.length rows.
Proof.
  unfold raw_fdr_results. destruct (wc_gw =? 0)%Z; apply mapR_length.
Qed.

(** ** Normalisation *)

Lemma Rsum_map_const_zero {A} (l : list A) : Rsum (map (fun _ => 0) l) = 0.
Proof. induction l; simpl; [reflexivity|]. rewrite IHl. lra. Qed.

Lemma Rsum_nonneg (l : list R) : (forall x, In x l -> 0 <= x) -> 0 <= Rsum l.
Proof.
  induction l as [|x l IH]; intros H; simpl; [lra|].
  assert (0 <= x) by (apply H; now left).
  assert (0 <= Rsum l) by (apply IH; intros; apply H; now right). lra.
Qed.

Lemma Rsum_zero_all_zero (l : list R) :
  (forall x, In x l -> 0 <= x) -> Rsum l = 0 -> forall x, In x l -> x = 0.
Proof.
  induction l as [|y l IH]; intros Hpos Hsum x Hin; [contradiction|].
  simpl in Hsum.
  assert (0 <= y) by (apply Hpos; now left).
  assert (0 <= Rsum l) by (apply Rsum_nonneg; intros; apply Hpos; now right).
  destruct Hin as [<-|Hin]; [lra|].
  apply IH; try assumption; [intros; apply Hpos; now right | lra].
Qed.

(** A zero standard deviation means that every element equals the mean. *)
Lemma np_std_zero (a : list R) :
  np_std a = 0 -> forall x, In x a -> x = np_mean a.
Proof.
  intros Hs x Hin. unfold np_std in Hs.
  remember (np_mean a) as mu eqn:Emu.
  remember (map (fun x => (x - mu) * (x - mu)) a) as sq eqn:Esq.
  assert (Hpos : forall y, In y sq -> 0 <= y).
  { intros y Hy. subst sq. apply in_map_iff in Hy. destruct Hy as [z [<- _]]. apply Rle_0_sqr. }
  assert (Hn : 0 < INR (List.length sq)).
  { subst sq. rewrite length_map. destruct a; [contradiction|].
    simpl List.length. apply lt_0_INR. lia. }
  assert (Hm : 0 <= np_mean sq).
  { unfold np_mean. apply Rmult_le_pos; [now apply Rsum_nonneg|].
    left. now apply Rinv_0_lt_compat. }
  apply sqrt_eq_0 in Hs; [|assumption].
  assert (Hsum : Rsum sq = 0).
  { unfold np_mean in Hs. apply Rmult_integral in Hs. destruct Hs as [Hs|Hs]; [assumption|].
    exfalso. apply (Rinv_neq_0_compat (INR (List.length sq))); [lra|assumption]. }
  assert (Hz : (x - mu) * (x - mu) = 0).
  { apply (Rsum_zero_all_zero sq Hpos Hsum). subst sq. apply in_map_iff. now exists x. }
  nra.
Qed.

Lemma rescale_fin (z : R) : rescale (Fin z) = Fin (- (z / 2) + 5).
Proof.
  unfold rescale, fl_div. destruct (Req_dec_T 2 0); [lra|]. reflexivity.
Qed.

(** The code's normalise-then-rescale, element by element, in the
    specification's words. *)
Lemma rescale_zscore (a : list R) :
  map rescale (zscore_normalisation a) =
  map (spec_score (np_mean a) (np_std a)) a.
Proof.
  unfold zscore_normalisation. rewrite map_map.
  apply map_ext_in. intros x Hin. unfold spec_score, fl_div.
  destruct (Req_dec_T (np_std a) 0) as [Hs|Hs].
  - rewrite (np_std_zero a Hs x Hin). unfold fl_sign.
    destruct (Rlt_dec 0 (np_mean a - np_mean a)); [lra|].
    destruct (Rlt_dec (np_mean a - np_mean a) 0); [lra|]. reflexivity.
  - apply rescale_fin.
Qed.

Lemma np_std_const_zero {A} (l : list A) : np_std (map (fun _ => 0) l) = 0.
Proof.
  unfold np_std.
  assert (Hmu : np_mean (map (fun _ : A => 0) l) = 0).
  { unfold np_mean. rewrite Rsum_map_const_zero. lra. }
  rewrite Hmu, map_map.
  replace (np_mean _) with 0; [apply sqrt_0|].
  unfold np_mean. symmetry.
  erewrite map_ext; [rewrite Rsum_map_const_zero; lra|].
  intros; simpl; lra.
Qed.

Lemma combine_map_r {A B} (f : A -> B) (l : list A) :
  combine l (map f l) = map (fun a => (a, f a)) l.
Proof. induction l; simpl; [reflexivity|]. now rewrite IHl. Qed.

Lemma scored_table_length (rows : list team_row) (raws : list R) :
  List.length raws = List.length rows ->
  List.length (scored_table rows raws) = List.length rows.
Proof.
  intros H. unfold scored_table, zscore_normalisation.
  rewrite length_map, sort_values_desc_length, length_combine, !length_map, H.
  apply Nat.min_id.
Qed.

(** A row of the stored frame is a row that was read, rounded, with the
    rounded rescaled score of its raw sum. *)
Lemma scored_table_in (rows : list team_row) (raws : list R) (r : team_row * fl) :
  In r (scored_table rows raws) ->
  exists row s, In (row, s) (combine rows (map rescale (zscore_normalisation raws))) /\
                r = round_row (row, s).
Proof.
  unfold scored_table. intros H. apply in_map_iff in H.
  destruct H as [[row s] [<- H]].
  exists row, s. split; [|reflexivity].
  eapply Permutation_in; [apply sort_values_desc_perm|exact H].
Qed.

(** ** The no-wildcard branch from gameweek 8 on, and the empty wildcard window *)

Lemma foldR_raises_at {A B} (step : B -> A -> result B) (l : list A) (i : A) :
  In i l -> (forall acc, exists e, step acc i = Raise e) ->
  forall acc, exists e, foldR step l acc = Raise e.
Proof.
  intros Hin Hi. induction l as [|a l IH]; intros acc; [contradiction|].
  simpl. destruct Hin as [->|Hin].
  - destruct (Hi acc) as [e He]. rewrite He. now exists e.
  - destruct (step acc a) as [acc'|e]; simpl; [now apply IH|now exists e].
Qed.

(** The logarithm of a non-positive number is already asked for when the
    first six weeks reach gameweek 8: from gameweek 4 on two of them do, and
    the free-hit week can hide only one. *)
Lemma no_wildcard_raises_from_gw4 (self : FDRValueModel.t) (gw fh_gw : Z) :
  base_rows (df self) <> [] -> (4 <= gw)%Z ->
  exists e, get_fdr_value gw 0 fh_gw self = (Raise e, self).
Proof.
  intros Hne Hgw.
  destruct (base_rows (df self)) as [|row rows] eqn:Erows; [contradiction|].
  assert (Hstep : forall i, (gw <= i < gw + 6)%Z -> (8 <= i)%Z -> i <> fh_gw ->
            forall acc, exists e, no_wildcard_step gw fh_gw row acc i = Raise e).
  { intros i Hi H8 Hfh acc. unfold no_wildcard_step.
    destruct (Z.eqb_spec i fh_gw); [contradiction|].
    unfold in_range. destruct (Z.leb_spec gw i); [|lia].
    destruct (Z.ltb_spec i (gw + 6)); [|lia]. simpl.
    destruct (py_getitem (ratings row) (i - 1)); simpl; [|now eexists].
    unfold math_log. destruct (Z.leb_spec (- i + 8) 0); [now eexists|lia]. }
  set (a := Z.max gw 8).
  set (i := if (a =? fh_gw)%Z then (a + 1)%Z else a).
  assert (Hi : (gw <= i < gw + 6)%Z /\ (8 <= i)%Z /\ i <> fh_gw).
  { unfold i, a. destruct (Z.eqb_spec (Z.max gw 8) fh_gw); lia. }
  destruct Hi as (Hw & H8 & Hfh).
  destruct (foldR_raises_at (no_wildcard_step gw fh_gw row)
              (py_range gw (gw + 10)) i) with (acc := 0) as [e He].
  - apply in_py_range. lia.
  - now apply Hstep.
  - exists e. apply get_fdr_value_raises.
    rewrite Erows. unfold raw_fdr_results. simpl. now rewrite He.
Qed.

(** C9 (amended).  With no wildcard planned and a non-empty fixture table, a
    call returns a table only if the gameweek is at most 7, whatever the
    gameweek is otherwise (a gameweek below 1 is not refused); from
    gameweek 8 on, when the table has more than [gw] gameweek columns, the
    call raises the math domain error and leaves the model as it was. *)
Theorem no_wildcard_returns_only_up_to_gw7
    (self : FDRValueModel.t) (gw fh_gw : Z) :
  base_rows (df self) <> [] ->
  (forall out self',
     get_fdr_value gw 0 fh_gw self = (Ok out, self') -> (gw <= 7)%Z) /\
  ((8 <= gw)%Z ->
   Forall (fun row => (gw < Z.of_nat (List.length (ratings row)))%Z)
          (base_rows (df self)) ->
   get_fdr_value gw 0 fh_gw self = (Raise ValueError, self)).
Proof.
  intros Hne. destruct (base_rows (df self)) as [|row rows] eqn:Erows; [contradiction|].
  split.
  - intros out self' Hrun.
    destruct (Z.le_gt_cases gw 7) as [Hle|Hgt]; [lia|].
    destruct (no_wildcard_fold_fails gw fh_gw row) as [e He]; [lia|].
    rewrite (get_fdr_value_raises self gw 0 fh_gw e) in Hrun; [discriminate|].
    rewrite Erows. unfold raw_fdr_results. simpl. now rewrite He.
  - intros Hgw Hcols. apply get_fdr_value_raises.
    rewrite Erows. unfold raw_fdr_results. simpl.
    rewrite no_wildcard_fold_raises; [reflexivity|assumption|].
    now inversion Hcols.
Qed.

(** C10.  In the wildcard branch with [wc_gw <= gw] every raw sum is [0.0],
    the standard deviation of the raw sums is zero, and the call returns a
    table (no exception) in which every team's FDR value is NaN; the chip
    validation accepts a wildcard gameweek equal to the current one. *)
Theorem empty_wildcard_window_gives_nan
    (self : FDRValueModel.t) (gw wc_gw fh_gw : Z) :
  wc_gw <> 0%Z -> (wc_gw <= gw)%Z ->
  let rows := base_rows (df self) in
  raw_fdr_results gw wc_gw fh_gw rows = Ok (map (fun _ => 0) rows) /\
  np_std (map (fun _ => 0) rows) = 0 /\
  (exists out,
     get_fdr_value gw wc_gw fh_gw self = (Ok (Scored out), {| df := Scored out |}) /\
     List.length out = List.length rows /\
     forall r, In r out -> snd r = NaN) /\
  (forall g, (2 <= g <= 38)%Z -> valid_chip_gw g g = true).
Proof.
  intros Hwc Hle rows.
  pose proof (wildcard_raw_empty gw wc_gw fh_gw rows Hwc Hle) as Hraw.
  split; [exact Hraw|]. split; [apply np_std_const_zero|]. split.
  - exists (scored_table rows (map (fun _ => 0) rows)). split; [|split].
    + now apply get_fdr_value_returns.
    + apply scored_table_length. now rewrite length_map.
    + intros r Hr. apply scored_table_in in Hr.
      destruct Hr as (row & s & Hin & ->).
      apply in_combine_r in Hin. rewrite rescale_zscore in Hin.
      apply in_map_iff in Hin. destruct Hin as [x [<- _]].
      unfold spec_score. rewrite np_std_const_zero.
      destruct (Req_dec_T 0 0); [reflexivity|contradiction].
  - intros g Hg. unfold valid_chip_gw.
    rewrite !orb_true_iff, !andb_true_iff, !Z.leb_le, Z.eqb_eq. lia.
Qed.

(** ** The stored frame after a computation *)

Lemma map_fst_combine {A B} (l : list A) (l' : list B) :
  List.length l' = List.length l -> map fst (combine l l') = l.
Proof.
  revert l'. induction l as [|a l IH]; intros [|b l'] H; simpl in *;
    try reflexivity; try discriminate.
  f_equal. apply IH. lia.
Qed.

Lemma scored_table_base (rows : list team_row) (raws : list R) :
  List.length raws = List.length rows ->
  Permutation (map fst (scored_table rows raws)) (map round_ratings rows).
Proof.
  intros H. unfold scored_table. rewrite map_map.
  change (fun x : team_row * fl => fst (round_row x))
    with (fun x : team_row * fl => round_ratings (fst x)).
  rewrite <- (map_map fst round_ratings).
  apply Permutation_map.
  rewrite (Permutation_map fst (sort_values_desc_perm snd _)).
  rewrite map_fst_combine; [reflexivity|].
  unfold zscore_normalisation. now rewrite !length_map.
Qed.

Lemma round_ratings_id (row : team_row) :
  Forall two_decimals (ratings row) -> round_ratings row = row.
Proof.
  intros H. destruct row as [t p rs]. unfold round_ratings. simpl in *.
  f_equal. induction H as [|x l Hx _ IH]; simpl; [reflexivity|].
  now rewrite Hx, IH.
Qed.



(** ** C8: lookup by team *)

Lemma lookup_bare (self : FDRValueModel.t) (team_name : string) (rows : list team_row) :
  df self = Bare rows ->
  get_fdr_value_by_team team_name self = (Raise KeyError, self).
Proof.
  intros H. unfold get_fdr_value_by_team, bind, get. now rewrite H.
Qed.

Lemma lookup_scored (self : FDRValueModel.t) (team_name : string)
    (rows : list (team_row * fl)) :
  df self = Scored rows ->
  get_fdr_value_by_team team_name self =
  match filter (fun r => String.eqb (team (fst r)) team_name) rows with
  | [] => (Raise IndexError, self)
  | r :: _ => (Ok (snd r), self)
  end.
Proof.
  intros H. unfold get_fdr_value_by_team, bind, get. rewrite H.
  now destruct (filter _ rows).
Qed.

Lemma NoDup_map_inj {A B} (f : A -> B) (l : list A) (a b : A) :
  NoDup (map f l) -> In a l -> In b l -> f a = f b -> a = b.
Proof.
  induction l as [|x l IH]; intros Hnd Ha Hb Hf; [contradiction|].
  simpl in Hnd. inversion Hnd as [|? ? Hx Hl]; subst.
  destruct Ha as [->|Ha], Hb as [->|Hb]; try reflexivity.
  - exfalso. apply Hx. rewrite Hf. now apply in_map.
  - exfalso. apply Hx. rewrite <- Hf. now apply in_map.
  - now apply IH.
Qed.

Lemma scored_table_teams (rows : list team_row) (raws : list R) :
  List.length raws = List.length rows ->
  Permutation (map (fun r => team (fst r)) (scored_table rows raws)) (map team rows).
Proof.
  intros H. rewrite <- (map_map fst team).
  rewrite (Permutation_map team (scored_table_base rows raws H)).
  now rewrite map_map.
Qed.

(** C8.  The lookup raises [KeyError] while the table has no FDR column (no
    computation has returned yet); it raises when no row of the table has the
    requested team; and after a computation that returned, for a team of the
    table, it returns the FDR value of that team's row in the table just
    computed (of its first row there; of its only row when team names are
    unique).  A lookup never changes the model. *)
Theorem lookup_by_team (self : FDRValueModel.t) (team_name : string) :
  (forall rows, df self = Bare rows ->
     get_fdr_value_by_team team_name self = (Raise KeyError, self)) /\
  ((forall row, In row (base_rows (df self)) -> team row <> team_name) ->
     exists e, get_fdr_value_by_team team_name self = (Raise e, self)) /\
  (forall gw wc_gw fh_gw out self',
     get_fdr_value gw wc_gw fh_gw self = (Ok out, self') ->
     (exists row, In row (base_rows (df self)) /\ team row = team_name) ->
     exists r rest,
       filter (fun r => String.eqb (team (fst r)) team_name) (scored_rows out)
         = r :: rest /\
       In r (scored_rows out) /\ team (fst r) = team_name /\
       get_fdr_value_by_team team_name self' = (Ok (snd r), self') /\
       (NoDup (map team (base_rows (df self))) ->
        forall r', In r' (scored_rows out) -> team (fst r') = team_name ->
                   snd r' = snd r)).
Proof.
  split; [|split].
  - intros rows H. now apply (lookup_bare self team_name rows).
  - intros Habs. destruct (df self) as [rows|rows] eqn:E.
    + exists KeyError. now apply (lookup_bare self team_name rows).
    + exists IndexError. rewrite (lookup_scored self team_name rows E).
      destruct (filter _ rows) as [|r l] eqn:F; [reflexivity|].
      exfalso. assert (Hr : In r (filter (fun r => String.eqb (team (fst r)) team_name) rows))
        by (rewrite F; now left).
      apply filter_In in Hr. destruct Hr as [Hr Heq].
      apply String.eqb_eq in Heq. apply (Habs (fst r)); [|assumption].
      simpl. now apply in_map.
  - intros gw wc_gw fh_gw out self' Hrun (row & Hin & Hteam).
    destruct (get_fdr_value_cases self gw wc_gw fh_gw) as [(raws & Hraw & H)|(e & H)];
      rewrite H in Hrun; [|discriminate].
    injection Hrun as <- <-. simpl scored_rows.
    set (tbl := scored_table (base_rows (df self)) raws).
    pose proof (raw_fdr_results_length _ _ _ _ _ Hraw) as Hlen.
    pose proof (scored_table_teams _ _ Hlen) as Hperm. fold tbl in Hperm.
    assert (Hex : In team_name (map (fun r => team (fst r)) tbl)).
    { eapply Permutation_in; [symmetry; exact Hperm|].
      rewrite <- Hteam. now apply in_map. }
    apply in_map_iff in Hex. destruct Hex as (r0 & Hr0 & Hin0).
    assert (Hf : In r0 (filter (fun r => String.eqb (team (fst r)) team_name) tbl)).
    { apply filter_In. split; [assumption|]. now apply String.eqb_eq. }
    destruct (filter (fun r => String.eqb (team (fst r)) team_name) tbl)
      as [|r rest] eqn:F; [contradiction|].
    assert (Hr : In r (filter (fun r => String.eqb (team (fst r)) team_name) tbl))
      by (rewrite F; now left).
    apply filter_In in Hr. destruct Hr as [Hr Heq]. cbv beta in Heq.
    apply String.eqb_eq in Heq.
    exists r, rest. repeat split; try assumption.
    + rewrite (lookup_scored {| df := Scored tbl |} team_name tbl eq_refl).
      now rewrite F.
    + intros Hnd r' Hr' Hteam'. f_equal.
      apply (NoDup_map_inj (fun r => team (fst r)) tbl); try assumption.
      * eapply Permutation_NoDup; [symmetry; exact Hperm|exact Hnd].
      * now rewrite Heq.
Qed.

(** ** C7: the predictor's life cycle *)

Section Predictor.
Context {SK : Sklearn}.
Import CleanSheetPointsModel.

Lemma train_model_keeps_trained (self : CleanSheetPointsModel.t) :
  is_trained self = true -> is_trained (snd (train_model self)) = true.
Proof.
  intros H. unfold train_model, bind, get, put, lift. simpl.
  destruct (scaler_fit (x_data self)) as [p|e]; simpl; [|assumption].
  destruct (sgd_fit _ (y_data self)) as [q|e]; simpl; [reflexivity|assumption].
Qed.

Lemma train_model_counts (self : CleanSheetPointsModel.t) :
  trainings (snd (train_model self)) = S (trainings self).
Proof.
  unfold train_model, bind, get, put, lift. simpl.
  destruct (scaler_fit (x_data self)) as [p|e]; simpl; [|reflexivity].
  destruct (sgd_fit _ (y_data self)) as [q|e]; reflexivity.
Qed.

Lemma predict_trained (self : CleanSheetPointsModel.t) (x : R) :
  is_trained self = true -> snd (predict x self) = self.
Proof.
  intros H. unfold predict, bind, get, ret, raise. rewrite H. simpl.
  destruct (scaler self); [destruct (sgdr self)|]; reflexivity.
Qed.

Lemma predict_untrained (self : CleanSheetPointsModel.t) (x : R)
    (p : scaler_params) (q : sgd_params) :
  is_trained self = false ->
  scaler_fit (x_data self) = Ok p ->
  sgd_fit (map (scaler_transform p) (x_data self)) (y_data self) = Ok q ->
  predict x self =
  (Ok (sgd_predict q (scaler_transform p x)),
   mk (x_data self) (y_data self) (Some p) (Some q) true (S (trainings self))).
Proof.
  intros H Hp Hq.
  unfold predict, train_model, bind, get, put, lift, ret. rewrite H. simpl.
  rewrite Hp. simpl. rewrite Hq. reflexivity.
Qed.

Lemma predict_untrained_counts (self : CleanSheetPointsModel.t) (x : R) :
  is_trained self = false ->
  trainings (snd (predict x self)) = S (trainings self).
Proof.
  intros H. pose proof (train_model_counts self) as Ht.
  unfold predict, bind, get, ret, raise. rewrite H. simpl.
  destruct (train_model self) as [[[]|e] s]; simpl in *; [|assumption].
  destruct (scaler s); [destruct (sgdr s)|]; assumption.
Qed.

Lemma run_op_keeps_trained (o : predictor_op) (self : CleanSheetPointsModel.t) :
  is_trained self = true -> is_trained (snd (run_op o self)) = true.
Proof.
  intros H. destruct o as [|x]; simpl.
  - now apply train_model_keeps_trained.
  - pose proof (predict_trained self x H) as Hp.
    unfold bind, ret. destruct (predict x self) as [[v|e] s]; simpl in *; now subst.
Qed.

Lemma predict_cached (self : CleanSheetPointsModel.t) (x : R)
    (p : scaler_params) (q : sgd_params) :
  is_trained self = true -> scaler self = Some p -> sgdr self = Some q ->
  predict x self = (Ok (sgd_predict q (scaler_transform p x)), self).
Proof.
  intros H Hp Hq. unfold predict, bind, get, ret, raise. rewrite H. simpl.
  now rewrite Hp, Hq.
Qed.

Lemma predicts_keep_state (xs : list R) (self : CleanSheetPointsModel.t) :
  is_trained self = true -> run_ops (map Predict xs) self = self.
Proof.
  intros H. induction xs as [|x xs IH]; simpl; [reflexivity|].
  pose proof (predict_trained self x H) as Hp.
  unfold bind, ret. destruct (predict x self) as [[v|e] s]; simpl in *; subst s;
    exact IH.
Qed.

(** C7.  A [predict] on an untrained instance runs [train_model] exactly
    once and, when both fits succeed, answers from the parameters just
    fitted and leaves the instance trained.  A [predict] on a trained
    instance answers from the parameters that the instance holds and
    leaves the instance exactly as it was (same parameters, no further
    training): after the first [predict], whatever further [predict] calls
    were made, every [predict] answers from the parameters fitted by that
    first call, and the count of trainings stays at one more than before
    it.  After any sequence of [train_model] and [predict] calls a trained
    instance is still trained. *)
Theorem predictor_trains_once_and_stays_trained :
  (forall self x p q,
     is_trained self = false ->
     scaler_fit (x_data self) = Ok p ->
     sgd_fit (map (scaler_transform p) (x_data self)) (y_data self) = Ok q ->
     predict x self =
     (Ok (sgd_predict q (scaler_transform p x)),
      mk (x_data self) (y_data self) (Some p) (Some q) true
         (S (trainings self)))) /\
  (forall self x,
     is_trained self = false ->
     trainings (snd (predict x self)) = S (trainings self)) /\
  (forall self x,
     is_trained self = true -> snd (predict x self) = self) /\
  (forall self x p q,
     is_trained self = true -> scaler self = Some p -> sgdr self = Some q ->
     predict x self = (Ok (sgd_predict q (scaler_transform p x)), self)) /\
  (forall self x p q xs x',
     is_trained self = false ->
     scaler_fit (x_data self) = Ok p ->
     sgd_fit (map (scaler_transform p) (x_data self)) (y_data self) = Ok q ->
     let later := run_ops (map Predict xs) (snd (predict x self)) in
     predict x' later = (Ok (sgd_predict q (scaler_transform p x')), later) /\
     trainings later = S (trainings self)) /\
  (forall ops self,
     is_trained self = true -> is_trained (run_ops ops self) = true).
Proof.
  split; [|split; [|split; [|split; [|split]]]].
  - intros. now apply predict_untrained.
  - intros. now apply predict_untrained_counts.
  - intros. now apply predict_trained.
  - intros. now apply predict_cached.
  - intros self x p q xs x' Ht Hp Hq later. unfold later.
    rewrite (predict_untrained self x p q Ht Hp Hq). simpl.
    rewrite predicts_keep_state by reflexivity.
    split; [now apply predict_cached|reflexivity].
  - induction ops as [|o ops IH]; intros self H; simpl; [assumption|].
    apply IH. now apply run_op_keeps_trained.
Qed.

End Predictor.

(** ** C5: the composite value as a function of the price *)

Lemma py_pow_pos (x y : R) : 0 < x -> py_pow x y = Rpower x y /\ 0 < py_pow x y.
Proof.
  intros H. unfold py_pow. destruct (Req_dec_T x 0); [lra|].
  split; [reflexivity|]. unfold Rpower. apply exp_pos.
Qed.

Lemma asset_value_finite (xpts f price : R) :
  0 < price ->
  AssetValueModel.asset_value xpts (Fin f) price =
  Fin ((12 * xpts + 8 * f) / Rpower price 0.25).
Proof.
  intros H. destruct (py_pow_pos price 0.25 H) as [E Hpos].
  unfold AssetValueModel.asset_value. simpl. unfold fl_div.
  destruct (Req_dec_T (py_pow price 0.25) 0); [lra|]. now rewrite E.
Qed.

Lemma Rpower_quarter_16 : Rpower 16 0.25 = 2.
Proof.
  replace 16 with (Rpower 2 4).
  - rewrite Rpower_mult. replace (4 * 0.25) with 1 by lra.
    apply Rpower_1. lra.
  - replace 4 with (INR 4) by (simpl; lra). rewrite Rpower_pow by lra. simpl. lra.
Qed.

(** C5 (amended).  For a finite FDR score and [12 * xpts + 8 * fdr > 0], the
    composite value is strictly decreasing in the price on [price > 0]. *)
Theorem asset_value_decreasing_in_price (xpts f p1 p2 : R) :
  0 < 12 * xpts + 8 * f ->
  0 < p1 -> p1 < p2 ->
  fl_lt (AssetValueModel.asset_value xpts (Fin f) p2)
        (AssetValueModel.asset_value xpts (Fin f) p1).
Proof.
  intros Hnum Hp1 Hlt.
  rewrite !asset_value_finite by lra. simpl.
  assert (H1 : 0 < Rpower p1 0.25) by (unfold Rpower; apply exp_pos).
  assert (H12 : Rpower p1 0.25 < Rpower p2 0.25)
    by (apply Rlt_Rpower_l; lra).
  unfold Rdiv. apply Rmult_lt_compat_l; [assumption|].
  apply Rinv_lt_contravar; [|assumption].
  apply Rmult_lt_0_compat; lra.
Qed.

(** C5, as stated, fails when [12 * xpts + 8 * fdr] is negative: with
    expected points -4 and FDR score 5 the value is -8 at price 1 and -4 at
    price 16. *)
Lemma asset_value_not_decreasing_for_negative_numerator :
  0 < 1 /\ 1 < 16 /\
  AssetValueModel.asset_value (-4) (Fin 5) 1 = Fin (-8) /\
  AssetValueModel.asset_value (-4) (Fin 5) 16 = Fin (-4) /\
  ~ fl_lt (AssetValueModel.asset_value (-4) (Fin 5) 16)
          (AssetValueModel.asset_value (-4) (Fin 5) 1).
Proof.
  assert (E1 : AssetValueModel.asset_value (-4) (Fin 5) 1 = Fin (-8)).
  { rewrite asset_value_finite by lra. f_equal.
    unfold Rpower. rewrite ln_1, Rmult_0_r, exp_0. lra. }
  assert (E16 : AssetValueModel.asset_value (-4) (Fin 5) 16 = Fin (-4)).
  { rewrite asset_value_finite by lra. f_equal.
    rewrite Rpower_quarter_16. lra. }
  repeat split; try lra; try assumption.
  rewrite E1, E16. simpl. lra.
Qed.

(** ** C6: the defensive-contribution term *)

Lemma Rpower_six_fifths (x : R) : 0 < x -> (Rpower x 1.2) ^ 5 = x ^ 6.
Proof.
  intros H.
  rewrite <- (Rpower_pow 5 (Rpower x 1.2)) by (unfold Rpower; apply exp_pos).
  rewrite Rpower_mult.
  replace (1.2 * INR 5) with (INR 6) by (simpl; lra).
  now apply Rpower_pow.
Qed.

Lemma Rpower_six_fifths_lt (x c : R) :
  0 < x -> 0 < c -> x ^ 6 < c ^ 5 -> Rpower x 1.2 < c.
Proof.
  intros Hx Hc H. destruct (Rlt_le_dec (Rpower x 1.2) c) as [|Hle]; [assumption|].
  exfalso. pose proof (pow_incr c (Rpower x 1.2) 5 (conj (Rlt_le _ _ Hc) Hle)) as Hp.
  rewrite Rpower_six_fifths in Hp by assumption. lra.
Qed.

Lemma Rpower_six_fifths_gt (x c : R) :
  0 < x -> c ^ 5 < x ^ 6 -> c < Rpower x 1.2.
Proof.
  intros Hx H. destruct (Rlt_le_dec c (Rpower x 1.2)) as [|Hle]; [assumption|].
  exfalso.
  assert (H0 : 0 <= Rpower x 1.2) by (left; unfold Rpower; apply exp_pos).
  pose proof (pow_incr (Rpower x 1.2) c 5 (conj H0 Hle)) as Hp.
  rewrite Rpower_six_fifths in Hp by assumption. lra.
Qed.

(** Below 1 the power 1.2 is below the identity. *)
Lemma Rpower_six_fifths_small (h : R) : 0 < h -> h < 1 -> Rpower h 1.2 < h.
Proof.
  intros H0 H1. unfold Rpower.
  rewrite <- (exp_ln h H0) at 2. apply exp_increasing.
  assert (ln h < 0) by (rewrite <- ln_1; apply ln_increasing; lra). lra.
Qed.

Lemma py_pow_nonneg (x y : R) : 0 <= py_pow x y.
Proof.
  unfold py_pow. destruct (Req_dec_T x 0); [lra|].
  left. unfold Rpower. apply exp_pos.
Qed.

Lemma py_pow_monotone (x1 x2 y : R) :
  0 <= y -> 0 <= x1 -> x1 <= x2 -> py_pow x1 y <= py_pow x2 y.
Proof.
  intros Hy H1 H12. unfold py_pow at 1.
  destruct (Req_dec_T x1 0); [apply py_pow_nonneg|].
  unfold py_pow. destruct (Req_dec_T x2 0); [lra|].
  apply Rle_Rpower_l; lra.
Qed.

Section DefconTerm.
Variables low mid_hi scale offset : R.
Hypothesis offset_matches : offset = low / 1000.
Hypothesis scale_large : 1 <= scale.
Hypothesis window_wide : low + 1 <= mid_hi.

Let f (d : R) : R := defcon_term d low mid_hi 1.2 scale offset.

Lemma defcon_term_below (d : R) : d < low -> f d = d / 1000.
Proof.
  intros H. unfold f, defcon_term. destruct (Rlt_dec d low); [reflexivity|lra].
Qed.

Lemma defcon_term_middle (d : R) :
  low <= d -> d <= mid_hi -> f d = py_pow (d - low) 1.2 / scale + offset.
Proof.
  intros H1 H2. unfold f, defcon_term. destruct (Rlt_dec d low); [lra|].
  destruct (Rle_dec d mid_hi); [reflexivity|lra].
Qed.

Lemma defcon_term_above (d : R) : mid_hi < d -> f d = 2.
Proof.
  intros H. unfold f, defcon_term. destruct (Rlt_dec d low); [lra|].
  destruct (Rle_dec d mid_hi); [lra|reflexivity].
Qed.

Lemma defcon_term_at_low : f low = offset.
Proof.
  rewrite defcon_term_middle by lra. unfold py_pow.
  replace (low - low) with 0 by lra.
  destruct (Req_dec_T 0 0); [|contradiction]. lra.
Qed.

Lemma defcon_term_monotone (d1 d2 : R) :
  d1 <= d2 -> d2 <= mid_hi -> f d1 <= f d2.
Proof.
  intros H12 H2.
  destruct (Rlt_le_dec d1 low) as [Hd1|Hd1]; destruct (Rlt_le_dec d2 low) as [Hd2|Hd2].
  - rewrite !defcon_term_below by assumption. lra.
  - rewrite defcon_term_below, defcon_term_middle by assumption.
    pose proof (py_pow_nonneg (d2 - low) 1.2) as Hp.
    assert (0 <= py_pow (d2 - low) 1.2 / scale)
      by (apply Rmult_le_pos; [assumption|left; apply Rinv_0_lt_compat; lra]).
    lra.
  - lra.
  - rewrite !defcon_term_middle by lra.
    pose proof (py_pow_monotone (d1 - low) (d2 - low) 1.2) as Hp.
    assert (py_pow (d1 - low) 1.2 / scale <= py_pow (d2 - low) 1.2 / scale).
    { apply Rmult_le_compat_r; [left; apply Rinv_0_lt_compat; lra|].
      apply Hp; lra. }
    lra.
Qed.

Lemma defcon_term_continuous_at_low : continuity_pt f low.
Proof.
  intros eps Heps. exists (Rmin 1 eps). split.
  - apply Rmin_pos; lra.
  - intros d [_ Hd]. cbn [dist R_met] in *. unfold Rdist in *.
    rewrite defcon_term_at_low.
    assert (Ha1 : Rabs (d - low) < 1) by (eapply Rlt_le_trans; [exact Hd|apply Rmin_l]).
    assert (Hae : Rabs (d - low) < eps) by (eapply Rlt_le_trans; [exact Hd|apply Rmin_r]).
    destruct (Rlt_le_dec d low) as [Hlt|Hge].
    + rewrite defcon_term_below by assumption.
      rewrite Rabs_left in Hae by lra. rewrite Rabs_left by lra. lra.
    + destruct (Req_dec_T d low) as [->|Hne].
      * rewrite defcon_term_at_low. replace (offset - offset) with 0 by lra.
        rewrite Rabs_R0. assumption.
      * rewrite Rabs_right in Ha1, Hae by lra.
        rewrite defcon_term_middle by lra.
        destruct (py_pow_pos (d - low) 1.2) as [E Hpos]; [lra|].
        rewrite E in *.
        pose proof (Rpower_six_fifths_small (d - low)) as Hs.
        assert (Hq : Rpower (d - low) 1.2 / scale <= Rpower (d - low) 1.2).
        { unfold Rdiv. rewrite <- (Rmult_1_r (Rpower (d - low) 1.2)) at 2.
          apply Rmult_le_compat_l; [lra|].
          rewrite <- Rinv_1. apply Rinv_le_contravar; lra. }
        assert (0 < Rpower (d - low) 1.2 / scale)
          by (apply Rmult_lt_0_compat; [assumption|apply Rinv_0_lt_compat; lra]).
        rewrite Rabs_right by lra.
        assert (Rpower (d - low) 1.2 < d - low) by (apply Hs; lra). lra.
Qed.

(** A value below the cap at [mid_hi] is a jump. *)
Lemma defcon_term_jump (gap : R) :
  0 < gap -> gap <= Rabs (2 - f mid_hi) -> ~ continuity_pt f mid_hi.
Proof.
  intros Hg Hjump Hc. destruct (Hc gap Hg) as (alp & Halp & H).
  specialize (H (mid_hi + alp / 2)).
  cbn [dist R_met] in H. unfold Rdist in H. rewrite defcon_term_above in H by lra.
  assert (Hd : Rabs (mid_hi + alp / 2 - mid_hi) < alp).
  { replace (mid_hi + alp / 2 - mid_hi) with (alp / 2) by lra.
    rewrite Rabs_right; lra. }
  assert (Hx : D_x no_cond mid_hi (mid_hi + alp / 2))
    by (split; [exact I|lra]).
  specialize (H (conj Hx Hd)). lra.
Qed.

End DefconTerm.

Lemma xpts_def_defcon (xg xa cs b d y : R) :
  AssetValueModel.xpts_def xg xa cs b d y =
  2 + xg * 6 + xa * 3 + cs + b + defcon_term_def d - y.
Proof.
  unfold AssetValueModel.xpts_def, defcon_term_def, defcon_term.
  destruct (Rlt_dec d 5); [reflexivity|].
  destruct (Rle_dec 5 d); [|lra].
  destruct (Rle_dec d 13.33); [lra|reflexivity].
Qed.

Lemma xpts_mid_defcon (xg xa cs b d y : R) :
  AssetValueModel.xpts_mid xg xa cs b d y =
  2 + xg * 5 + xa * 3 + cs + b + defcon_term_mid_fwd d - y.
Proof.
  unfold AssetValueModel.xpts_mid, defcon_term_mid_fwd, defcon_term.
  destruct (Rlt_dec d 6); [reflexivity|].
  destruct (Rle_dec 6 d); [|lra].
  destruct (Rle_dec d 16); [lra|reflexivity].
Qed.

Lemma xpts_fwd_defcon (xg xa b d y : R) :
  AssetValueModel.xpts_fwd xg xa b d y =
  2 + xg * 4 + xa * 3 + b + defcon_term_mid_fwd d - y.
Proof.
  unfold AssetValueModel.xpts_fwd, defcon_term_mid_fwd, defcon_term.
  destruct (Rlt_dec d 6); [reflexivity|].
  destruct (Rle_dec 6 d); [|lra].
  destruct (Rle_dec d 16); [lra|reflexivity].
Qed.

(** The value at the upper breakpoint: just above the cap for defenders,
    more than a hundredth below it for midfielders and forwards. *)
Lemma defcon_term_def_at_mid_hi :
  2 < defcon_term_def 13.33 /\ defcon_term_def 13.33 < 2.0001.
Proof.
  unfold defcon_term_def.
  rewrite defcon_term_middle by lra.
  replace (13.33 - 5) with 8.33 by lra.
  destruct (py_pow_pos 8.33 1.2) as [-> _]; [lra|].
  assert (H1 : 12.7281 < Rpower 8.33 1.2)
    by (apply Rpower_six_fifths_gt; [lra|simpl; lra]).
  assert (H2 : Rpower 8.33 1.2 < 12.728738)
    by (apply Rpower_six_fifths_lt; [lra|lra|simpl; lra]).
  lra.
Qed.

Lemma defcon_term_mid_fwd_at_mid_hi :
  1.98 < defcon_term_mid_fwd 16 /\ defcon_term_mid_fwd 16 < 1.99.
Proof.
  unfold defcon_term_mid_fwd.
  rewrite defcon_term_middle by lra.
  replace (16 - 6) with 10 by lra.
  destruct (py_pow_pos 10 1.2) as [-> _]; [lra|].
  assert (H1 : 15.792 < Rpower 10 1.2)
    by (apply Rpower_six_fifths_gt; [lra|simpl; lra]).
  assert (H2 : Rpower 10 1.2 < 15.872)
    by (apply Rpower_six_fifths_lt; [lra|lra|simpl; lra]).
  lra.
Qed.

(** C6 (amended).  The three position formulas add the piecewise term with
    the stated parameters.  For both parameter sets the term is continuous
    at [d = low], non-decreasing for [d <= mid_hi] and constantly 2 for
    [d > mid_hi].  At [d = mid_hi] it is within 0.0001 of the cap for
    defenders and within 0.02 of the cap for midfielders and forwards. *)
Theorem defcon_term_shape :
  (forall xg xa cs b d y,
     AssetValueModel.xpts_def xg xa cs b d y =
     2 + xg * 6 + xa * 3 + cs + b + defcon_term_def d - y) /\
  (forall xg xa cs b d y,
     AssetValueModel.xpts_mid xg xa cs b d y =
     2 + xg * 5 + xa * 3 + cs + b + defcon_term_mid_fwd d - y) /\
  (forall xg xa b d y,
     AssetValueModel.xpts_fwd xg xa b d y =
     2 + xg * 4 + xa * 3 + b + defcon_term_mid_fwd d - y) /\
  (continuity_pt defcon_term_def 5 /\
   (forall d1 d2, d1 <= d2 -> d2 <= 13.33 -> defcon_term_def d1 <= defcon_term_def d2) /\
   (forall d, 13.33 < d -> defcon_term_def d = 2) /\
   Rabs (defcon_term_def 13.33 - 2) < 0.0001) /\
  (continuity_pt defcon_term_mid_fwd 6 /\
   (forall d1 d2, d1 <= d2 -> d2 <= 16 ->
                  defcon_term_mid_fwd d1 <= defcon_term_mid_fwd d2) /\
   (forall d, 16 < d -> defcon_term_mid_fwd d = 2) /\
   Rabs (defcon_term_mid_fwd 16 - 2) < 0.02).
Proof.
  split; [exact xpts_def_defcon|]. split; [exact xpts_mid_defcon|].
  split; [exact xpts_fwd_defcon|]. split; repeat split.
  - apply defcon_term_continuous_at_low; lra.
  - intros d1 d2. apply defcon_term_monotone; lra.
  - intros d. apply defcon_term_above; lra.
  - destruct defcon_term_def_at_mid_hi. rewrite Rabs_right; lra.
  - apply defcon_term_continuous_at_low; lra.
  - intros d1 d2. apply defcon_term_monotone; lra.
  - intros d. apply defcon_term_above; lra.
  - destruct defcon_term_mid_fwd_at_mid_hi. rewrite Rabs_left; lra.
Qed.

(** C6, as stated, fails at the upper breakpoint of the midfielders' and
    forwards' parameters: the term is below 1.99 at [d = 16] and 2 right
    after, a jump of more than a hundredth, so it is not continuous there. *)
Lemma defcon_term_mid_fwd_jumps_at_16 :
  defcon_term_mid_fwd 16 < 1.99 /\
  (forall d, 16 < d -> defcon_term_mid_fwd d = 2) /\
  ~ continuity_pt defcon_term_mid_fwd 16.
Proof.
  destruct defcon_term_mid_fwd_at_mid_hi as [Hlo Hhi].
  split; [assumption|]. split.
  - intros d. apply defcon_term_above; lra.
  - apply (defcon_term_jump 6 16 8 0.006) with (gap := 0.01); try lra.
    fold (defcon_term_mid_fwd 16). rewrite Rabs_right; lra.
Qed.

(** ** Rounding to two decimals *)

Lemma rint_down (x : R) (n : Z) : IZR n <= x -> x < IZR n + 1/2 -> rint x = n.
Proof.
  intros H1 H2. unfold rint.
  assert (E : n = Int_part x) by (apply Int_part_spec; lra).
  rewrite <- E. destruct (Rlt_dec (x - IZR n) (1/2)); [reflexivity|lra].
Qed.

Lemma rint_up (x : R) (n : Z) :
  IZR n + 1/2 < x -> x < IZR n + 1 -> rint x = (n + 1)%Z.
Proof.
  intros H1 H2. unfold rint.
  assert (E : n = Int_part x) by (apply Int_part_spec; lra).
  rewrite <- E. destruct (Rlt_dec (x - IZR n) (1/2)); [lra|].
  destruct (Rlt_dec (1/2) (x - IZR n)); [reflexivity|lra].
Qed.

Lemma round2_exact (x : R) (n : Z) : x * 100 = IZR n -> round2 x = x.
Proof.
  intros H. unfold round2. rewrite (rint_down (x * 100) n) by lra. lra.
Qed.

Lemma round2_down (x : R) (n : Z) :
  IZR n <= x * 100 -> x * 100 < IZR n + 1/2 -> round2 x = IZR n / 100.
Proof. intros H1 H2. unfold round2. now rewrite (rint_down (x * 100) n). Qed.

Lemma round2_up (x : R) (n : Z) :
  IZR n + 1/2 < x * 100 -> x * 100 < IZR n + 1 -> round2 x = IZR (n + 1) / 100.
Proof. intros H1 H2. unfold round2. now rewrite (rint_up (x * 100) n). Qed.

(** Rounding twice is rounding once. *)
Lemma round2_idempotent (x : R) : round2 (round2 x) = round2 x.
Proof.
  apply (round2_exact _ (rint (x * 100))). unfold round2. lra.
Qed.

Lemma two_decimals_IZR (n : Z) : two_decimals (IZR n).
Proof.
  apply (round2_exact _ (n * 100)%Z). rewrite mult_IZR. reflexivity.
Qed.

Lemma round2_1 : round2 1 = 1.
Proof. apply (two_decimals_IZR 1). Qed.

Lemma round2_repeat_1 (n : nat) : map round2 (repeat 1 n) = repeat 1 n.
Proof. induction n; simpl; [reflexivity|]. now rewrite round2_1, IHn. Qed.

Lemma round2_fine : round2 1.004 = 1.
Proof. rewrite (round2_down 1.004 100); lra. Qed.

Lemma not_two_decimals_fine : ~ two_decimals 1.004.
Proof. unfold two_decimals. rewrite round2_fine. lra. Qed.

(** ** Two teams *)

Lemma np_mean_two (a b : R) : np_mean [a; b] = (a + b) / 2.
Proof. unfold np_mean. simpl. lra. Qed.

Lemma np_std_two (a b : R) : b <= a -> np_std [a; b] = (a - b) / 2.
Proof.
  intros H. unfold np_std. rewrite np_mean_two. simpl map. rewrite np_mean_two.
  replace (((a - (a + b) / 2) * (a - (a + b) / 2)
            + (b - (a + b) / 2) * (b - (a + b) / 2)) / 2)
    with ((a - b) / 2 * ((a - b) / 2)) by lra.
  apply sqrt_square. lra.
Qed.

(** With two teams the harder schedule scores 4.5 and the easier one 5.5. *)
Lemma two_team_scores (a b : R) :
  b < a -> map rescale (zscore_normalisation [a; b]) = [Fin 4.5; Fin 5.5].
Proof.
  intros H. rewrite rescale_zscore, np_mean_two, np_std_two by lra.
  unfold spec_score. simpl.
  destruct (Req_dec_T ((a - b) / 2) 0); [lra|].
  assert (E1 : (a - (a + b) / 2) / ((a - b) / 2) = 1) by (field; lra).
  assert (E2 : (b - (a + b) / 2) / ((a - b) / 2) = -1) by (field; lra).
  rewrite E1, E2. f_equal; [|f_equal]; f_equal; lra.
Qed.


Lemma round2_4_5 : round2 4.5 = 4.5.
Proof. apply (round2_exact _ 450). lra. Qed.

Lemma round2_5_5 : round2 5.5 = 5.5.
Proof. apply (round2_exact _ 550). lra. Qed.

(** The frame stored for two teams whose first raw sum is the larger. *)
Lemma scored_table_two (r1 r2 : team_row) (a b : R) :
  b < a ->
  scored_table [r1; r2] [a; b] =
  [(round_ratings r2, Fin 5.5); (round_ratings r1, Fin 4.5)].
Proof.
  intros H. unfold scored_table. rewrite two_team_scores by assumption.
  simpl. destruct (Rle_dec 5.5 4.5); [lra|].
  simpl. unfold round_row. simpl. now rewrite round2_4_5, round2_5_5.
Qed.


(** ** The wildcard branch with a one-week window *)

Lemma ln_2_pos : 0 < ln 2.
Proof. rewrite <- ln_1. apply ln_increasing; lra. Qed.

(** [gw = 1], [wc_gw = 2], no free hit: the window is gameweek 1 alone,
    with weight [ln 2]. *)
Lemma wildcard_raw_one_week (rows : list team_row) :
  Forall (fun row => ratings row <> []) rows ->
  raw_fdr_results 1 2 0 rows =
  Ok (map (fun row => 0 + rating_at row 1 * ln 2) rows).
Proof.
  intros H. unfold raw_fdr_results.
  change (2 =? 0)%Z with false. cbv iota.
  apply mapR_ok. intros row Hin.
  rewrite Forall_forall in H. specialize (H row Hin).
  change (py_range 1 2) with [1%Z]. cbn [foldR].
  unfold wildcard_step. change (1 =? 0)%Z with false. cbv iota.
  rewrite (py_getitem_nth _ _ 0).
  - reflexivity.
  - destruct (ratings row); [contradiction|]. simpl List.length. lia.
Qed.

(** ** Sorting an already sorted frame *)


Lemma desc_before_total (a b : fl) :
  desc_before a b = false -> desc_before b a = true.
Proof.
  destruct a as [x| | |], b as [y| | |]; simpl; try congruence.
  destruct (Rle_dec y x); [discriminate|].
  destruct (Rle_dec x y); [reflexivity|lra].
Qed.

Section SortedFrames.
Context {A : Type} (key : A -> fl).

Let before (x y : A) : Prop := desc_before (key x) (key y) = true.

Lemma insert_desc_hd (x y : A) (l : list A) :
  before y x -> HdRel before y l -> HdRel before y (insert_desc key x l).
Proof.
  intros Hyx Hl. destruct l as [|z l]; simpl; [now constructor|].
  destruct (desc_before (key x) (key z)); constructor; [assumption|].
  now inversion Hl.
Qed.

Lemma insert_desc_sorted (x : A) (l : list A) :
  Sorted before l -> Sorted before (insert_desc key x l).
Proof.
  induction l as [|y l IH]; intros Hs; simpl.
  - repeat constructor.
  - inversion Hs as [|? ? Hl Hhd]; subst.
    destruct (desc_before (key x) (key y)) eqn:E.
    + constructor; [assumption|]. now constructor.
    + constructor; [now apply IH|].
      apply insert_desc_hd; [|assumption]. now apply desc_before_total.
Qed.

Lemma sort_values_desc_sorted (l : list A) :
  Sorted before (sort_values_desc key l).
Proof.
  induction l as [|x l IH]; simpl; [constructor|].
  now apply insert_desc_sorted.
Qed.



End SortedFrames.



(** ** Recomputing the FDR table at exact arithmetic *)








(** ** The position methods *)

Section PositionMethods.
Context {SK : Sklearn}.
Import AssetValueModel.

(** The four methods of the source are instances of one shape. *)
Lemma compute_values_shape (pos : position_kind) (gw wc_gw fh_gw : Z) :
  compute_values pos gw wc_gw fh_gw =
  position_method pos (position_source pos) (position_xpts pos) gw wc_gw fh_gw.
Proof. destruct pos; reflexivity. Qed.

Lemma write_columns_eq (d : player_df) (res : list appended) :
  write_columns d res =
  Scored (sort_values_desc (fun r => value (snd r))
            (combine (base_rows d) (map to_derived res))).
Proof.
  unfold write_columns, update_df. apply f_equal. apply f_equal. apply f_equal.
  induction res as [|c res IH]; simpl; [reflexivity|]. now rewrite IH.
Qed.

End PositionMethods.

Lemma lookup_keeps_model (self : FDRValueModel.t) (team_name : string) :
  snd (get_fdr_value_by_team team_name self) = self.
Proof.
  unfold get_fdr_value_by_team, bind, get, raise, ret. simpl.
  destruct (df self) as [rows|rows]; [reflexivity|].
  now destruct (filter _ rows).
Qed.


Section PositionLoop.
Context {SK : Sklearn}.
Import AssetValueModel.

Lemma predict_settles (x : R) (c c' : CleanSheetPointsModel.t) (v : R) :
  CleanSheetPointsModel.predict x c = (Ok v, c') ->
  CleanSheetPointsModel.is_trained c' = true /\
  CleanSheetPointsModel.predict x c' = (Ok v, c').
Proof.
  intros H. destruct (CleanSheetPointsModel.is_trained c) eqn:Et.
  - pose proof (predict_trained c x Et) as Hk. rewrite H in Hk. simpl in Hk.
    subst c'. split; assumption.
  - unfold CleanSheetPointsModel.predict, CleanSheetPointsModel.train_model,
      bind, get, put, lift, ret, raise in H. rewrite Et in H. simpl in H.
    destruct (scaler_fit (CleanSheetPointsModel.x_data c)) as [p|e]; simpl in H;
      [|discriminate].
    destruct (sgd_fit _ (CleanSheetPointsModel.y_data c)) as [q|e]; simpl in H;
      [|discriminate].
    injection H as <- <-. split; reflexivity.
Qed.

(** What a clean-sheet prediction leaves behind. *)
Lemma clean_sheet_points_settles (src : cs_source) (x : R) (s s' : t) (v : R) :
  clean_sheet_points src x s = (Ok v, s') ->
  (forall x', snd (clean_sheet_points src x' s') = s') /\
  clean_sheet_points src x s' = (Ok v, s') /\
  fdr_value_model s' = fdr_value_model s /\
  (forall pos, position_table pos s' = position_table pos s).
Proof.
  destruct src; unfold clean_sheet_points, zoom, ret.
  - destruct (CleanSheetPointsModel.predict x (clean_sheet_points_model_gk_def s))
      as [r c'] eqn:E.
    intros [= -> <-]. destruct (predict_settles _ _ _ _ E) as [Ht Hp].
    split; [|split; [|split]].
    + intros x'. simpl.
      pose proof (predict_trained c' x' Ht) as Hk.
      destruct (CleanSheetPointsModel.predict x' c') as [r' c'']. simpl in *.
      now subst.
    + simpl. now rewrite Hp.
    + reflexivity.
    + intros []; reflexivity.
  - destruct (CleanSheetPointsModel.predict x (clean_sheet_points_model_mid s))
      as [r c'] eqn:E.
    intros [= -> <-]. destruct (predict_settles _ _ _ _ E) as [Ht Hp].
    split; [|split; [|split]].
    + intros x'. simpl.
      pose proof (predict_trained c' x' Ht) as Hk.
      destruct (CleanSheetPointsModel.predict x' c') as [r' c'']. simpl in *.
      now subst.
    + simpl. now rewrite Hp.
    + reflexivity.
    + intros []; reflexivity.
  - intros [= <- <-]. split; [|split; [|split]]; reflexivity.
Qed.

Lemma clean_sheet_points_frame_fdr (src : cs_source) (x : R) (s : t)
    (F : FDRValueModel.t) :
  clean_sheet_points src x (set_fdr_value_model s F) =
  (fst (clean_sheet_points src x s),
   set_fdr_value_model (snd (clean_sheet_points src x s)) F).
Proof.
  destruct src; unfold clean_sheet_points, zoom, ret; simpl; try reflexivity.
  - now destruct (CleanSheetPointsModel.predict x (clean_sheet_points_model_gk_def s)).
  - now destruct (CleanSheetPointsModel.predict x (clean_sheet_points_model_mid s)).
Qed.


Lemma row_body_tables (src : cs_source) (xpts_of : R -> player_row -> R)
    (gw wc_gw fh_gw : Z) (row : player_row) (pos : position_kind) (s : t) :
  position_table pos (snd (row_body src xpts_of gw wc_gw fh_gw row s)) =
  position_table pos s.
Proof.
  unfold row_body, bind, AssetValueModel.get_fdr_value, zoom, ret.
  destruct pos, src; unfold clean_sheet_points, zoom, ret; simpl;
    repeat match goal with
           | |- context [CleanSheetPointsModel.predict ?x ?c] =>
               destruct (CleanSheetPointsModel.predict x c) as [[?|?] ?]; simpl
           | |- context [bind ?m ?k ?F] =>
               destruct (bind m k F) as [[?|?] ?]; simpl
           end; reflexivity.
Qed.

End PositionLoop.

Section PositionTwice.
Context {SK : Sklearn}.
Import AssetValueModel.

Variables (src : cs_source) (xpts_of : R -> player_row -> R) (gw wc_gw fh_gw : Z).

Let body := row_body src xpts_of gw wc_gw fh_gw.

Lemma forM_tables (pos : position_kind) (rows : list player_row) (s : t) :
  position_table pos (snd (forM rows body s)) = position_table pos s.
Proof.
  revert s. induction rows as [|row rows IH]; intros s; simpl; [reflexivity|].
  unfold bind. pose proof (row_body_tables src xpts_of gw wc_gw fh_gw row pos s) as Hb.
  fold body in Hb.
  destruct (body row s) as [[v|e] s1]; simpl in *; [|assumption].
  specialize (IH s1). destruct (forM rows body s1) as [[vs|e] s2]; simpl in *;
    congruence.
Qed.


End PositionTwice.

Section ComputeValuesTwice.
Context {SK : Sklearn}.
Import AssetValueModel.

Lemma position_table_set (pos : position_kind) (s : t) (d : player_df) :
  position_table pos (set_position_table pos s d) = d.
Proof. destruct pos; reflexivity. Qed.



End ComputeValuesTwice.

(** ** Runs on the example tables *)

Lemma two_decimals_repeat_IZR (k : Z) (n : nat) : Forall two_decimals (repeat (IZR k) n).
Proof. induction n; simpl; constructor; [apply two_decimals_IZR|assumption]. Qed.

Lemma round_ratings_flat (name : string) (pos k : Z) :
  round_ratings (flat_row name pos (IZR k)) = flat_row name pos (IZR k).
Proof. apply round_ratings_id. apply two_decimals_repeat_IZR. Qed.

Lemma round_ratings_fine : round_ratings fine_row = flat_row "A" 1 1.
Proof.
  unfold round_ratings, flat_row, fine_row. cbn [team position ratings].
  change (map round2 (1.004 :: repeat 1 9))
    with (round2 1.004 :: map round2 (repeat 1 9)).
  now rewrite round2_fine, round2_repeat_1.
Qed.


(** The wildcard call for gameweek 1 with the wildcard in gameweek 2, on
    the two-team table. *)
Lemma fdr_run_two :
  get_fdr_value 1 2 0 (FDRValueModel.init fixtures_two) =
  (Ok (Scored [(flat_row "B" 2 1, Fin 5.5); (flat_row "A" 1 3, Fin 4.5)]),
   {| df := Scored [(flat_row "B" 2 1, Fin 5.5); (flat_row "A" 1 3, Fin 4.5)] |}).
Proof.
  rewrite (get_fdr_value_returns _ 1 2 0
             [0 + 3 * ln 2; 0 + 1 * ln 2]).
  - simpl base_rows. unfold fixtures_two.
    rewrite scored_table_two by (pose proof ln_2_pos; lra).
    now rewrite !round_ratings_flat.
  - simpl base_rows. rewrite wildcard_raw_one_week; [reflexivity|].
    repeat constructor; discriminate.
Qed.

(** The same call on the table with a three-decimal rating, and once more
    on the table that the first call stored. *)
Lemma fdr_run_fine :
  get_fdr_value 1 2 0 (FDRValueModel.init fixtures_fine) =
  (Ok (Scored [(flat_row "B" 2 1, Fin 5.5); (flat_row "A" 1 1, Fin 4.5)]),
   {| df := Scored [(flat_row "B" 2 1, Fin 5.5); (flat_row "A" 1 1, Fin 4.5)] |}).
Proof.
  rewrite (get_fdr_value_returns _ 1 2 0
             [0 + 1.004 * ln 2; 0 + 1 * ln 2]).
  - simpl base_rows. unfold fixtures_fine.
    rewrite scored_table_two by (pose proof ln_2_pos; lra).
    now rewrite round_ratings_fine, round_ratings_flat.
  - simpl base_rows. rewrite wildcard_raw_one_week; [reflexivity|].
    repeat constructor; discriminate.
Qed.


(** C3, as stated, fails on a rating with three decimals: the call returns,
    and team A's rating for gameweek 1, 1.004 in the table that was read,
    is 1 in the table that is stored. *)
Lemma stored_rating_changes :
  exists out self',
    get_fdr_value 1 2 0 (FDRValueModel.init fixtures_fine) = (Ok out, self') /\
    In fine_row (base_rows (df (FDRValueModel.init fixtures_fine))) /\
    team fine_row = "A"%string /\
    rating_at fine_row 1 = 1.004 /\
    (forall row, In row (base_rows (df self')) -> team row = "A"%string ->
                 rating_at row 1 = 1) /\
    rating_at fine_row 1 <> 1.
Proof.
  eexists. eexists. split; [exact fdr_run_fine|].
  split; [now left|]. split; [reflexivity|]. split; [reflexivity|]. split.
  - simpl. intros row [<-|[<-|[]]]; [discriminate|reflexivity].
  - change (rating_at fine_row 1) with 1.004. lra.
Qed.

Lemma asset_value_price_one (xpts f : R) :
  AssetValueModel.asset_value xpts (Fin f) 1 = Fin (12 * xpts + 8 * f).
Proof.
  rewrite asset_value_finite by lra. f_equal.
  unfold Rpower. rewrite ln_1, Rmult_0_r, exp_0. lra.
Qed.

Lemma xpts_quiet_forward : AssetValueModel.xpts_fwd 0 0 0 1 0 = 2.001.
Proof.
  unfold AssetValueModel.xpts_fwd. destruct (Rlt_dec 1 6); lra.
Qed.

Section ForwardRuns.
Context {SK : Sklearn}.
Import AssetValueModel.

(** A forwards table of one row: the method computes the FDR table,
    looks the player's team up, and writes the three unrounded columns. *)
Lemma forward_single_run (s : t) (gw wc_gw fh_gw : Z) (p : player_row)
    (out : fixtures_df) (F : FDRValueModel.t) (fdr : fl) :
  base_rows (forwards s) = [p] ->
  FDRValueModel.get_fdr_value gw wc_gw fh_gw (fdr_value_model s) = (Ok out, F) ->
  FDRValueModel.get_fdr_value_by_team (player_team p) F = (Ok fdr, F) ->
  let d := to_derived (finish (xpts_fwd (xGp90 p) (xAp90 p) (bps p) (defcon p) (yc p))
                              fdr (price p)) in
  get_asset_value_fwd gw wc_gw fh_gw s =
  (Ok (Scored [(p, d)]),
   set_forwards (set_fdr_value_model s F) (Scored [(p, d)])).
Proof.
  intros Hrows Hrun Hlook d.
  unfold get_asset_value_fwd, bind, get, put, ret. rewrite Hrows.
  cbn [forM]. unfold bind, AssetValueModel.get_fdr_value, zoom, bind.
  rewrite Hrun, Hlook. unfold ret. cbn [forwards set_fdr_value_model].
  rewrite write_columns_eq. cbn [forwards set_forwards set_fdr_value_model].
  rewrite Hrows. reflexivity.
Qed.

End ForwardRuns.

(** C2: on a forward with 1 defensive contribution per match, price 1, of
    the easier team of the two-team table, the method returns expected
    points 2.001 and value 68.012: values with three decimals, which
    rounding to two decimals would have changed. *)
Theorem returned_table_is_not_rounded :
  exists s',
    AssetValueModel.get_asset_value_fwd 1 2 0 (model_with_forward fixtures_two "B") =
    (Ok (Scored [(quiet_forward "X" "B",
                  {| xPts := 2.001; FDR_value := Fin 5.5; value := Fin 68.012 |})]),
     s') /\
    round2 2.001 = 2 /\ round2 68.012 = 68.01 /\
    ~ two_decimals 2.001 /\ ~ two_decimals 68.012.
Proof.
  eexists. split.
  - rewrite (forward_single_run (SK := demo_sklearn)
               (model_with_forward fixtures_two "B") 1 2 0
               (quiet_forward "X" "B") _ _ (Fin 5.5) eq_refl fdr_run_two eq_refl).
    cbn [quiet_forward xGp90 xAp90 bps defcon yc price].
    unfold to_derived, AssetValueModel.finish. cbn [fst snd].
    rewrite xpts_quiet_forward, asset_value_price_one.
    replace (12 * 2.001 + 8 * 5.5) with 68.012 by lra. reflexivity.
  - assert (E1 : round2 2.001 = 2)
      by (rewrite (round2_down 2.001 200); lra).
    assert (E2 : round2 68.012 = 68.01)
      by (rewrite (round2_down 68.012 6801); lra).
    unfold two_decimals. rewrite E1, E2. repeat split; lra.
Qed.


(** ** The no-wildcard call on four flat schedules *)

Lemma no_wildcard_table (self : FDRValueModel.t) (gw fh_gw : Z) :
  no_wildcard_pre gw fh_gw (base_rows (df self)) ->
  let rows := base_rows (df self) in
  let raws := map (weighted_sum gw fh_gw) rows in
  let score := fun row =>
    spec_score (np_mean raws) (np_std raws) (weighted_sum gw fh_gw row) in
  let out := map round_row
               (sort_values_desc snd (map (fun row => (row, score row)) rows)) in
  get_fdr_value gw 0 fh_gw self = (Ok (Scored out), {| df := Scored out |}).
Proof.
  intros Hpre rows raws score out.
  pose proof (no_wildcard_raw gw fh_gw rows Hpre) as Hraw.
  rewrite (get_fdr_value_returns self gw 0 fh_gw raws Hraw). fold rows.
  assert (Htab : scored_table rows raws = out).
  { unfold scored_table, out. rewrite rescale_zscore. unfold raws.
    now rewrite map_map, combine_map_r. }
  now rewrite Htab.
Qed.

Lemma weight_gw1_pos : 0 < weight_gw1.
Proof.
  assert (H : forall x, 1 < x -> 0 < ln x)
    by (intros x Hx; rewrite <- ln_1; apply ln_increasing; lra).
  unfold weight_gw1.
  pose proof (H 7). pose proof (H 6). pose proof (H 5).
  pose proof (H 4). pose proof (H 3). pose proof (H 2). lra.
Qed.

Lemma weighted_sum_flat (name : string) (pos : Z) (c : R) :
  weighted_sum 1 0 (flat_row name pos c) = c * weight_gw1.
Proof.
  unfold weighted_sum.
  change (filter (fun i => negb (i =? 0)%Z) (py_range 1 (1 + 10)))
    with [1; 2; 3; 4; 5; 6; 7; 8; 9; 10]%Z.
  cbn [map Rsum fold_right].
  change (rating_at (flat_row name pos c) 1) with c.
  change (rating_at (flat_row name pos c) 2) with c.
  change (rating_at (flat_row name pos c) 3) with c.
  change (rating_at (flat_row name pos c) 4) with c.
  change (rating_at (flat_row name pos c) 5) with c.
  change (rating_at (flat_row name pos c) 6) with c.
  change (rating_at (flat_row name pos c) 7) with c.
  change (rating_at (flat_row name pos c) 8) with c.
  change (rating_at (flat_row name pos c) 9) with c.
  change (rating_at (flat_row name pos c) 10) with c.
  rewrite !window_weight_first by lia.
  rewrite !window_weight_rest by lia.
  change (IZR (- (1) + 8)) with 7. change (IZR (- (2) + 8)) with 6.
  change (IZR (- (3) + 8)) with 5. change (IZR (- (4) + 8)) with 4.
  change (IZR (- (5) + 8)) with 3. change (IZR (- (6) + 8)) with 2.
  unfold weight_gw1. lra.
Qed.

Lemma no_wildcard_pre_flat (rows : list team_row) :
  Forall (fun row => List.length (ratings row) = 10%nat) rows ->
  no_wildcard_pre 1 0 rows.
Proof.
  intros H. split; [lia|]. split; [|intros; lia].
  eapply Forall_impl; [|exact H]. intros row ->. lia.
Qed.

Lemma round2_25_6 : round2 (25 / 6) = 4.17.
Proof.
  rewrite (round2_up (25 / 6) 416) by lra.
  change (416 + 1)%Z with 417%Z. lra.
Qed.

Lemma spec_score_four :
  let raws := map (weighted_sum 1 0) fixtures_four in
  spec_score (np_mean raws) (np_std raws) (weighted_sum 1 0 (flat_row "D" 4 5))
  = Fin (25 / 6).
Proof.
  pose proof weight_gw1_pos as HW.
  cbv zeta. unfold fixtures_four. cbn [map]. rewrite !weighted_sum_flat.
  set (W := weight_gw1) in *.
  assert (Emu : np_mean [1 * W; 2 * W; 2 * W; 5 * W] = 2.5 * W)
    by (unfold np_mean; simpl; lra).
  assert (Esd : np_std [1 * W; 2 * W; 2 * W; 5 * W] = 1.5 * W).
  { unfold np_std. rewrite Emu. cbn [map].
    replace (np_mean _) with (1.5 * W * (1.5 * W))
      by (unfold np_mean; simpl; lra).
    apply sqrt_square. lra. }
  rewrite Emu, Esd. unfold spec_score.
  destruct (Req_dec_T (1.5 * W) 0); [lra|].
  f_equal.
  replace (5 * W - 2.5 * W) with (5 / 2 * W) by lra.
  replace (1.5 * W) with (3 / 2 * W) by lra.
  field. lra.
Qed.

(** C1, as stated, fails on the score's last step: for four teams with flat
    ratings 1, 2, 2 and 5, [-(normalized / 2) + 5] of team D is 25/6, and the
    table that the call returns carries 4.17 for team D. *)
Lemma final_score_is_rounded :
  no_wildcard_pre 1 0 fixtures_four /\
  (let raws := map (weighted_sum 1 0) fixtures_four in
   spec_score (np_mean raws) (np_std raws) (weighted_sum 1 0 (flat_row "D" 4 5))
   = Fin (25 / 6)) /\
  exists out self',
    get_fdr_value 1 0 0 (FDRValueModel.init fixtures_four) = (Ok (Scored out), self') /\
    (exists r, In r out /\ team (fst r) = "D"%string) /\
    (forall r, In r out -> team (fst r) = "D"%string -> snd r = Fin 4.17) /\
    Fin 4.17 <> Fin (25 / 6).
Proof.
  assert (Hpre : no_wildcard_pre 1 0 fixtures_four)
    by (apply no_wildcard_pre_flat; repeat constructor).
  split; [exact Hpre|]. split; [exact spec_score_four|].
  pose proof (no_wildcard_table (FDRValueModel.init fixtures_four) 1 0 Hpre) as Hrun.
  cbv zeta in Hrun. simpl base_rows in Hrun.
  eexists. eexists. split; [exact Hrun|].
  set (raws := map (weighted_sum 1 0) fixtures_four) in *.
  set (score := fun row => spec_score (np_mean raws) (np_std raws)
                                      (weighted_sum 1 0 row)) in *.
  assert (HD : forall r,
            In r (map round_row (sort_values_desc snd
                    (map (fun row => (row, score row)) fixtures_four))) <->
            exists row, In row fixtures_four /\ r = round_row (row, score row)).
  { intros r. rewrite in_map_iff. split.
    - intros [[row s] [<- Hin]].
      apply (Permutation_in _ (sort_values_desc_perm snd _)) in Hin.
      apply in_map_iff in Hin. destruct Hin as [row' [[= <- <-] Hin]].
      now exists row'.
    - intros [row [Hin ->]]. exists (row, score row). split; [reflexivity|].
      apply (Permutation_in _ (Permutation_sym (sort_values_desc_perm snd _))).
      apply in_map_iff. now exists row. }
  split; [|split].
  - exists (round_row (flat_row "D" 4 5, score (flat_row "D" 4 5))).
    split; [|reflexivity]. apply HD. exists (flat_row "D" 4 5).
    split; [|reflexivity]. unfold fixtures_four. simpl. tauto.
  - intros r Hr Hteam. apply HD in Hr. destruct Hr as [row [Hin ->]].
    simpl in Hteam. unfold fixtures_four in Hin. simpl in Hin.
    destruct Hin as [<-|[<-|[<-|[<-|[]]]]]; try discriminate Hteam.
    pose proof spec_score_four as E. cbv zeta in E.
    simpl snd. unfold score, raws. rewrite E. simpl.
    now rewrite round2_25_6.
  - intros [= H]. lra.
Qed.

(** ** The theorems at concrete inputs *)

Lemma no_wildcard_pre_two : no_wildcard_pre 1 0 fixtures_two.
Proof. apply no_wildcard_pre_flat; repeat constructor. Defined.


Lemma asset_value_decreasing_in_price_witness :
  fl_lt (AssetValueModel.asset_value 2 (Fin 5) 8)
        (AssetValueModel.asset_value 2 (Fin 5) 4).
Proof.
  apply (asset_value_decreasing_in_price 2 5 4 8); lra.
Defined.

Lemma defcon_term_shape_witness :
  defcon_term_def 3 <= defcon_term_def 7 /\
  defcon_term_def 14 = 2 /\
  defcon_term_mid_fwd 3 <= defcon_term_mid_fwd 7 /\
  defcon_term_mid_fwd 17 = 2.
Proof.
  destruct defcon_term_shape as (_ & _ & _ & (_ & Hd1 & Hd2 & _) & (_ & Hm1 & Hm2 & _)).
  split; [apply Hd1; lra|]. split; [apply Hd2; lra|].
  split; [apply Hm1; lra|apply Hm2; lra].
Defined.

Lemma predictor_trains_once_and_stays_trained_witness :
  let fresh := CleanSheetPointsModel.init (SK := demo_sklearn) [1; 2] [3; 5] in
  let trained := snd (CleanSheetPointsModel.predict (SK := demo_sklearn) 1 fresh) in
  let later := run_ops (SK := demo_sklearn) [Predict 7; Predict 8] trained in
  CleanSheetPointsModel.predict (SK := demo_sklearn) 1 fresh =
  (Ok (np_mean [3; 5]),
   CleanSheetPointsModel.mk (SK := demo_sklearn) [1; 2] [3; 5] (Some (np_mean [1; 2]))
     (Some (np_mean [3; 5])) true 1) /\
  CleanSheetPointsModel.trainings trained = 1%nat /\
  snd (CleanSheetPointsModel.predict (SK := demo_sklearn) 2 trained) = trained /\
  CleanSheetPointsModel.predict (SK := demo_sklearn) 2 trained
  = (Ok (np_mean [3; 5]), trained) /\
  CleanSheetPointsModel.predict (SK := demo_sklearn) 9 later
  = (Ok (np_mean [3; 5]), later) /\
  CleanSheetPointsModel.trainings later = 1%nat /\
  CleanSheetPointsModel.is_trained
    (run_ops (SK := demo_sklearn) [Predict 2; TrainModel; Predict 3] trained) = true.
Proof.
  intros fresh trained later.
  destruct (predictor_trains_once_and_stays_trained (SK := demo_sklearn))
    as (H1 & H2 & H3 & H4 & H5 & H6).
  assert (E : CleanSheetPointsModel.predict (SK := demo_sklearn) 1 fresh =
              (Ok (np_mean [3; 5]),
               CleanSheetPointsModel.mk (SK := demo_sklearn) [1; 2] [3; 5] (Some (np_mean [1; 2]))
                 (Some (np_mean [3; 5])) true 1))
    by (apply (H1 fresh 1 (np_mean [1; 2]) (np_mean [3; 5])); reflexivity).
  assert (Ht : CleanSheetPointsModel.is_trained trained = true)
    by (unfold trained; rewrite E; reflexivity).
  assert (Hs : CleanSheetPointsModel.scaler trained = Some (np_mean [1; 2]))
    by (unfold trained; rewrite E; reflexivity).
  assert (Hq : CleanSheetPointsModel.sgdr trained = Some (np_mean [3; 5]))
    by (unfold trained; rewrite E; reflexivity).
  destruct (H5 fresh 1 (np_mean [1; 2]) (np_mean [3; 5]) [7; 8] 9
              eq_refl eq_refl eq_refl) as [H5a H5b].
  split; [exact E|]. split; [|split; [|split; [|split; [|split]]]].
  - apply (H2 fresh 1). reflexivity.
  - apply (H3 trained 2 Ht).
  - apply (H4 trained 2 _ _ Ht Hs Hq).
  - exact H5a.
  - exact H5b.
  - apply (H6 _ trained Ht).
Defined.

Lemma lookup_by_team_witness :
  get_fdr_value_by_team "B" (FDRValueModel.init fixtures_two)
  = (Raise KeyError, FDRValueModel.init fixtures_two) /\
  (exists e, get_fdr_value_by_team "Z" (FDRValueModel.init fixtures_two)
             = (Raise e, FDRValueModel.init fixtures_two)) /\
  exists r self',
    In r [(flat_row "B" 2 1, Fin 5.5); (flat_row "A" 1 3, Fin 4.5)] /\
    team (fst r) = "B"%string /\
    get_fdr_value_by_team "B" self' = (Ok (snd r), self').
Proof.
  destruct (lookup_by_team (FDRValueModel.init fixtures_two) "B") as (H1 & _ & H3).
  destruct (lookup_by_team (FDRValueModel.init fixtures_two) "Z") as (_ & H2 & _).
  split; [apply (H1 fixtures_two); reflexivity|]. split.
  - apply H2. simpl. intros row [<-|[<-|[]]]; discriminate.
  - destruct (H3 1%Z 2%Z 0%Z _ _ fdr_run_two) as (r & rest & _ & Hin & Hteam & Hlook & _).
    + exists (flat_row "B" 2 1). split; [simpl; tauto|reflexivity].
    + exists r. eexists. split; [exact Hin|]. split; [exact Hteam|exact Hlook].
Defined.

Lemma no_wildcard_returns_only_up_to_gw7_witness :
  get_fdr_value 8 0 0 (FDRValueModel.init fixtures_two)
  = (Raise ValueError, FDRValueModel.init fixtures_two) /\
  exists out self',
    get_fdr_value 1 0 0 (FDRValueModel.init fixtures_two) = (Ok out, self') /\
    (1 <= 7)%Z.
Proof.
  assert (Hne : base_rows (df (FDRValueModel.init fixtures_two)) <> [])
    by (simpl; discriminate).
  split.
  - apply (proj2 (no_wildcard_returns_only_up_to_gw7
                    (FDRValueModel.init fixtures_two) 8 0 Hne)); [lia|].
    simpl. repeat constructor; simpl; lia.
  - pose proof (no_wildcard_table (FDRValueModel.init fixtures_two) 1 0
                  no_wildcard_pre_two) as Hrun.
    cbv zeta in Hrun.
    eexists. eexists. split; [exact Hrun|].
    exact (proj1 (no_wildcard_returns_only_up_to_gw7
                    (FDRValueModel.init fixtures_two) 1 0 Hne) _ _ Hrun).
Defined.

Lemma empty_wildcard_window_gives_nan_witness :
  raw_fdr_results 5 5 0 fixtures_two = Ok [0; 0] /\
  (exists out,
     get_fdr_value 5 5 0 (FDRValueModel.init fixtures_two)
     = (Ok (Scored out), {| df := Scored out |}) /\
     List.length out = 2%nat /\
     forall r, In r out -> snd r = NaN) /\
  valid_chip_gw 5 5 = true.
Proof.
  assert (H0 : 5%Z <> 0%Z) by discriminate.
  assert (H1 : (5 <= 5)%Z) by lia.
  destruct (empty_wildcard_window_gives_nan (FDRValueModel.init fixtures_two)
              5 5 0 H0 H1) as (Hraw & _ & Hout & Hchip).
  split; [exact Hraw|]. split; [exact Hout|].
  apply Hchip. lia.
Defined.

(* ================================================================= *)
(** * Further properties of the code *)

(** ** The normalisations *)

Lemma Rsum_map_scale {A} (c : R) (f : A -> R) (l : list A) :
  Rsum (map (fun x => f x * c) l) = Rsum (map f l) * c.
Proof. induction l; simpl; [lra|]. rewrite IHl. lra. Qed.

Lemma Rsum_map_shift (mu : R) (l : list R) :
  Rsum (map (fun x => x - mu) l) = Rsum l - INR (List.length l) * mu.
Proof.
  induction l as [|x l IH]; [simpl; lra|].
  cbn [map Rsum fold_right]. fold (Rsum (map (fun x => x - mu) l)). fold (Rsum l).
  rewrite IH. simpl List.length. rewrite S_INR. lra.
Qed.

Lemma np_std_nonzero_length (a : list R) : np_std a <> 0 -> 0 < INR (List.length a).
Proof.
  intros H. destruct a as [|x a].
  - exfalso. apply H. unfold np_std, np_mean. simpl.
    replace (0 / 0) with 0 by (unfold Rdiv; lra). apply sqrt_0.
  - simpl List.length. apply lt_0_INR. lia.
Qed.

Lemma np_mean_squares_nonneg (mu : R) (a : list R) :
  0 <= np_mean (map (fun x => (x - mu) * (x - mu)) a).
Proof.
  unfold np_mean. rewrite length_map.
  assert (Hs : 0 <= Rsum (map (fun x => (x - mu) * (x - mu)) a)).
  { apply Rsum_nonneg. intros y Hy. apply in_map_iff in Hy.
    destruct Hy as [z [<- _]]. apply Rle_0_sqr. }
  destruct a as [|x a].
  - simpl. unfold Rdiv. lra.
  - apply Rmult_le_pos; [assumption|]. left. apply Rinv_0_lt_compat.
    simpl List.length. apply lt_0_INR. lia.
Qed.

Lemma np_std_square (a : list R) :
  np_std a * np_std a =
  np_mean (map (fun x => (x - np_mean a) * (x - np_mean a)) a).
Proof. unfold np_std. apply sqrt_sqrt, np_mean_squares_nonneg. Qed.

Lemma np_std_nonneg (a : list R) : 0 <= np_std a.
Proof. unfold np_std. apply sqrt_pos. Qed.

(** The z-scores as reals, when the standard deviation is not zero. *)
Lemma zscore_finite (a : list R) :
  np_std a <> 0 ->
  zscore_normalisation a = map Fin (map (fun x => (x - np_mean a) / np_std a) a).
Proof.
  intros H. unfold zscore_normalisation. rewrite map_map.
  apply map_ext. intros x. unfold fl_div.
  destruct (Req_dec_T (np_std a) 0); [contradiction|reflexivity].
Qed.


Lemma Rsum_const (c : R) (l : list R) :
  (forall x, In x l -> x = c) -> Rsum l = INR (List.length l) * c.
Proof.
  induction l as [|x l IH]; intros H; [simpl; lra|].
  cbn [Rsum fold_right]. fold (Rsum l).
  rewrite IH by (intros; apply H; now right).
  rewrite (H x (or_introl eq_refl)). simpl List.length. rewrite S_INR. lra.
Qed.

Lemma np_mean_const (c : R) (l : list R) :
  l <> [] -> (forall x, In x l -> x = c) -> np_mean l = c.
Proof.
  intros Hne H. unfold np_mean. rewrite (Rsum_const c l H).
  field. destruct l; [contradiction|]. simpl List.length.
  apply not_0_INR. lia.
Qed.

Lemma np_std_const (c : R) (l : list R) :
  l <> [] -> (forall x, In x l -> x = c) -> np_std l = 0.
Proof.
  intros Hne H. unfold np_std. rewrite (np_mean_const c l Hne H).
  replace (np_mean _) with 0; [apply sqrt_0|].
  symmetry. unfold np_mean. rewrite (Rsum_const 0).
  - unfold Rdiv. ring.
  - intros y Hy. apply in_map_iff in Hy. destruct Hy as [x [<- Hx]].
    rewrite (H x Hx). ring.
Qed.

Lemma fl_div_zero_by_zero : fl_div (Fin 0) (Fin 0) = NaN.
Proof.
  unfold fl_div, fl_sign.
  destruct (Req_dec_T 0 0); [|contradiction].
  destruct (Rlt_dec 0 0); [lra|reflexivity].
Qed.


Lemma Rsum_member_le (l : list R) (x : R) :
  (forall y, In y l -> 0 <= y) -> In x l -> x <= Rsum l.
Proof.
  induction l as [|y l IH]; intros Hpos Hin; [contradiction|].
  cbn [Rsum fold_right]. fold (Rsum l).
  assert (0 <= y) by (apply Hpos; now left).
  assert (0 <= Rsum l) by (apply Rsum_nonneg; intros; apply Hpos; now right).
  destruct Hin as [->|Hin]; [lra|].
  assert (x <= Rsum l) by (apply IH; [intros; apply Hpos; now right|assumption]).
  lra.
Qed.

(** A deviation from the mean is at most [sqrt n] standard deviations. *)
Lemma deviation_bound (a : list R) (x : R) :
  In x a ->
  (x - np_mean a) * (x - np_mean a)
  <= INR (List.length a) * (np_std a * np_std a).
Proof.
  intros Hin. rewrite np_std_square. unfold np_mean at 3. rewrite length_map.
  set (mu := np_mean a).
  assert (Hn : 0 < INR (List.length a)).
  { destruct a; [contradiction|]. simpl List.length. apply lt_0_INR. lia. }
  replace (INR (List.length a) *
           (Rsum (map (fun x0 => (x0 - mu) * (x0 - mu)) a) / INR (List.length a)))
    with (Rsum (map (fun x0 => (x0 - mu) * (x0 - mu)) a)) by (field; lra).
  apply Rsum_member_le.
  - intros y Hy. apply in_map_iff in Hy. destruct Hy as [z [<- _]]. apply Rle_0_sqr.
  - apply in_map_iff. now exists x.
Qed.

(** X3.  Every value [-(z / 2) + 5] that [get_fdr_value] forms from the
    z-scores of [n] raw sums is NaN or lies within [sqrt n / 2] of 5: its
    distance [d] from 5 satisfies [4 * d * d <= n]. *)
Theorem rescaled_score_range (a : list R) (s : fl) :
  In s (map rescale (zscore_normalisation a)) ->
  s = NaN \/
  exists r, s = Fin r /\ 4 * ((r - 5) * (r - 5)) <= INR (List.length a).
Proof.
  intros Hin. rewrite rescale_zscore in Hin.
  apply in_map_iff in Hin. destruct Hin as [x [<- Hx]].
  unfold spec_score. destruct (Req_dec_T (np_std a) 0) as [|Hs]; [now left|].
  right. eexists. split; [reflexivity|].
  pose proof (deviation_bound a x Hx) as Hb.
  set (mu := np_mean a) in *. set (sigma := np_std a) in *.
  assert (Hsq : 0 < sigma * sigma).
  { pose proof (np_std_nonneg a). fold sigma in H. nra. }
  replace (4 * ((- ((x - mu) / sigma / 2) + 5 - 5) * (- ((x - mu) / sigma / 2) + 5 - 5)))
    with ((x - mu) * (x - mu) / (sigma * sigma)) by (field; exact Hs).
  apply (Rmult_le_reg_r (sigma * sigma)); [exact Hsq|].
  replace ((x - mu) * (x - mu) / (sigma * sigma) * (sigma * sigma))
    with ((x - mu) * (x - mu)) by (field; exact Hs).
  exact Hb.
Qed.

Lemma rescaled_score_range_witness :
  Fin 4.5 = NaN \/
  exists r, Fin 4.5 = Fin r /\ 4 * ((r - 5) * (r - 5)) <= INR (List.length [3; 1]).
Proof.
  apply (rescaled_score_range [3; 1] (Fin 4.5)).
  rewrite two_team_scores by lra. now left.
Defined.

(** X4.  Within one computation a larger raw sum never gets a larger score:
    of two teams, the one with the smaller raw sum stands before (or ties
    with) the other in the descending order of the scores. *)
Theorem harder_schedule_never_scores_higher (a : list R) (x y : R) (sx sy : fl) :
  In (x, sx) (combine a (map rescale (zscore_normalisation a))) ->
  In (y, sy) (combine a (map rescale (zscore_normalisation a))) ->
  x <= y ->
  desc_before sx sy = true.
Proof.
  rewrite rescale_zscore, combine_map_r.
  intros Hx Hy Hle.
  apply in_map_iff in Hx. destruct Hx as [x' [[= <- <-] _]].
  apply in_map_iff in Hy. destruct Hy as [y' [[= <- <-] _]].
  unfold spec_score. destruct (Req_dec_T (np_std a) 0) as [|Hs]; [reflexivity|].
  simpl. pose proof (np_std_nonneg a) as Hpos.
  set (mu := np_mean a) in *. set (sigma := np_std a) in *.
  destruct (Rle_dec (- ((y' - mu) / sigma / 2) + 5) (- ((x' - mu) / sigma / 2) + 5))
    as [|Hn]; [reflexivity|].
  exfalso. apply Hn.
  assert (Hi : 0 < / sigma) by (apply Rinv_0_lt_compat; lra).
  unfold Rdiv. nra.
Qed.

Lemma harder_schedule_never_scores_higher_witness :
  desc_before (Fin 5.5) (Fin 4.5) = true.
Proof.
  apply (harder_schedule_never_scores_higher [3; 1] 1 3 (Fin 5.5) (Fin 4.5)).
  - rewrite two_team_scores by lra. simpl. right. left. reflexivity.
  - rewrite two_team_scores by lra. simpl. left. reflexivity.
  - lra.
Defined.

Lemma fold_left_Rmin_spec (l : list R) (x : R) :
  (forall y, In y (x :: l) -> fold_left Rmin l x <= y) /\
  In (fold_left Rmin l x) (x :: l).
Proof.
  revert x. induction l as [|z l IH]; intros x.
  - simpl. split; [intros y [<-|[]]; lra|now left].
  - cbn [fold_left]. destruct (IH (Rmin x z)) as [Hle Hin]. split.
    + intros y Hy.
      assert (H0 : fold_left Rmin l (Rmin x z) <= Rmin x z) by (apply Hle; now left).
      destruct Hy as [<-|[<-|Hy]].
      * pose proof (Rmin_l x z). lra.
      * pose proof (Rmin_r x z). lra.
      * apply Hle. now right.
    + destruct Hin as [Hin|Hin]; [|right; now right].
      rewrite <- Hin. unfold Rmin. destruct (Rle_dec x z); [now left|right; now left].
Qed.

Lemma fold_left_Rmax_spec (l : list R) (x : R) :
  (forall y, In y (x :: l) -> y <= fold_left Rmax l x) /\
  In (fold_left Rmax l x) (x :: l).
Proof.
  revert x. induction l as [|z l IH]; intros x.
  - simpl. split; [intros y [<-|[]]; lra|now left].
  - cbn [fold_left]. destruct (IH (Rmax x z)) as [Hle Hin]. split.
    + intros y Hy.
      assert (H0 : Rmax x z <= fold_left Rmax l (Rmax x z)) by (apply Hle; now left).
      destruct Hy as [<-|[<-|Hy]].
      * pose proof (Rmax_l x z). lra.
      * pose proof (Rmax_r x z). lra.
      * apply Hle. now right.
    + destruct Hin as [Hin|Hin]; [|right; now right].
      rewrite <- Hin. unfold Rmax. destruct (Rle_dec x z); [right; now left|now left].
Qed.

(** What [np.min] and [np.max] return on a non-empty array. *)
Lemma np_min_max_spec (a : list R) :
  a <> [] ->
  exists lo hi,
    np_min a = Ok lo /\ np_max a = Ok hi /\ In lo a /\ In hi a /\
    forall x, In x a -> lo <= x <= hi.
Proof.
  intros Hne. destruct a as [|x l]; [contradiction|].
  destruct (fold_left_Rmin_spec l x) as [Hlo Hloin].
  destruct (fold_left_Rmax_spec l x) as [Hhi Hhiin].
  exists (fold_left Rmin l x), (fold_left Rmax l x).
  repeat split; try assumption; [now apply Hlo|now apply Hhi].
Qed.

(** X5.  [min_max_normalisation] raises ValueError on an empty array; on an
    array with two different elements every result is finite and in
    [0, 1], the smallest element maps to 0 and the largest to 1; on a
    non-empty constant array every result is NaN. *)
Theorem min_max_normalisation_range (a : list R) :
  (a = [] -> min_max_normalisation a = Raise ValueError) /\
  ((exists x y, In x a /\ In y a /\ x <> y) ->
   exists zs,
     min_max_normalisation a = Ok (map Fin zs) /\
     List.length zs = List.length a /\
     (forall z, In z zs -> 0 <= z <= 1) /\ In 0 zs /\ In 1 zs) /\
  (a <> [] -> (forall x y, In x a -> In y a -> x = y) ->
   min_max_normalisation a = Ok (map (fun _ => NaN) a)).
Proof.
  split; [intros ->; reflexivity|]. split.
  - intros (x & y & Hx & Hy & Hxy).
    assert (Hne : a <> []) by (destruct a; [contradiction|discriminate]).
    destruct (np_min_max_spec a Hne) as (lo & hi & Hmin & Hmax & Hlo & Hhi & Hb).
    assert (Hgap : lo < hi).
    { pose proof (Hb x Hx). pose proof (Hb y Hy).
      destruct (Rle_lt_dec hi lo); [exfalso; apply Hxy; lra|assumption]. }
    exists (map (fun x => (x - lo) / (hi - lo)) a).
    unfold min_max_normalisation. rewrite Hmin, Hmax. simpl.
    split; [|split; [now rewrite length_map|split; [|split]]].
    + f_equal. rewrite map_map. apply map_ext. intros z. unfold fl_div.
      destruct (Req_dec_T (hi - lo) 0); [lra|reflexivity].
    + intros z Hz. apply in_map_iff in Hz. destruct Hz as [w [<- Hw]].
      pose proof (Hb w Hw) as Hbw.
      assert (Hi : 0 < / (hi - lo)) by (apply Rinv_0_lt_compat; lra).
      split.
      * apply Rmult_le_pos; lra.
      * apply (Rmult_le_reg_r (hi - lo)); [lra|].
        replace ((w - lo) / (hi - lo) * (hi - lo)) with (w - lo) by (field; lra).
        lra.
    + apply in_map_iff. exists lo. split; [|assumption]. unfold Rdiv. ring.
    + apply in_map_iff. exists hi. split; [|assumption]. field. lra.
  - intros Hne Heq.
    destruct (np_min_max_spec a Hne) as (lo & hi & Hmin & Hmax & Hlo & Hhi & Hb).
    unfold min_max_normalisation. rewrite Hmin, Hmax. simpl. f_equal.
    apply map_ext_in. intros z Hz.
    rewrite (Heq hi lo Hhi Hlo), (Heq z lo Hz Hlo).
    replace (lo - lo) with 0 by ring. apply fl_div_zero_by_zero.
Qed.

Lemma min_max_normalisation_range_witness :
  min_max_normalisation [] = Raise ValueError /\
  (exists zs,
     min_max_normalisation [2; 4; 3] = Ok (map Fin zs) /\
     List.length zs = 3%nat /\
     (forall z, In z zs -> 0 <= z <= 1) /\ In 0 zs /\ In 1 zs) /\
  min_max_normalisation [7; 7] = Ok [NaN; NaN].
Proof.
  destruct (min_max_normalisation_range []) as [H0 _].
  destruct (min_max_normalisation_range [2; 4; 3]) as (_ & H1 & _).
  destruct (min_max_normalisation_range [7; 7]) as (_ & _ & H2).
  split; [now apply H0|]. split.
  - apply H1. exists 2, 4. simpl. repeat split; try tauto. lra.
  - apply H2; [discriminate|]. simpl. intros x y Hx Hy.
    destruct Hx as [<-|[<-|[]]]; destruct Hy as [<-|[<-|[]]]; reflexivity.
Defined.


(** ** The fixture table that a computation returns *)


Lemma rint_close (x : R) : IZR (rint x) - 1/2 <= x <= IZR (rint x) + 1/2.
Proof.
  unfold rint. destruct (base_Int_part x) as [H1 H2].
  destruct (Rlt_dec (x - IZR (Int_part x)) (1/2)); [lra|].
  destruct (Rlt_dec (1/2) (x - IZR (Int_part x))).
  - rewrite plus_IZR. lra.
  - destruct (Z.even (Int_part x)); [lra|]. rewrite plus_IZR. lra.
Qed.

Lemma rint_monotone (x y : R) : x <= y -> (rint x <= rint y)%Z.
Proof.
  intros Hle. destruct (Z.le_gt_cases (rint x) (rint y)) as [|Hgt]; [assumption|].
  exfalso.
  assert (H1 : IZR (rint y) + 1 <= IZR (rint x)).
  { rewrite <- plus_IZR. apply IZR_le. lia. }
  pose proof (rint_close x). pose proof (rint_close y).
  assert (Hxy : x = y) by lra.
  subst y. lia.
Qed.

Lemma round2_monotone (x y : R) : x <= y -> round2 x <= round2 y.
Proof.
  intros H. unfold round2.
  assert (Hz : (rint (x * 100) <= rint (y * 100))%Z) by (apply rint_monotone; lra).
  apply IZR_le in Hz. lra.
Qed.

Lemma fl_round2_keeps_order (a b : fl) :
  desc_before a b = true -> desc_before (fl_round2 a) (fl_round2 b) = true.
Proof.
  destruct a as [x| | |], b as [y| | |]; simpl; try congruence.
  destruct (Rle_dec y x) as [H|]; [|discriminate]. intros _.
  destruct (Rle_dec (round2 y) (round2 x)) as [|Hn]; [reflexivity|].
  exfalso. apply Hn. now apply round2_monotone.
Qed.

Lemma Sorted_map {A B} (R1 : A -> A -> Prop) (R2 : B -> B -> Prop)
    (f : A -> B) (l : list A) :
  (forall a b, R1 a b -> R2 (f a) (f b)) ->
  Sorted R1 l -> Sorted R2 (map f l).
Proof.
  intros Hf Hs. induction Hs as [|a l Hl IH Hhd]; simpl; constructor.
  - exact IH.
  - destruct Hhd; simpl; constructor. now apply Hf.
Qed.

(** X8.  The table that [get_fdr_value] returns and stores lists the teams
    by their (rounded) FDR value in descending order, NaN last, and has one
    row per team of the table that was read. *)
Theorem fdr_table_sorted_descending (self self' : FDRValueModel.t)
    (gw wc_gw fh_gw : Z) (out : fixtures_df) :
  get_fdr_value gw wc_gw fh_gw self = (Ok out, self') ->
  Sorted (fun r1 r2 => desc_before (snd r1) (snd r2) = true) (scored_rows out) /\
  List.length (scored_rows out) = List.length (base_rows (df self)) /\
  df self' = out.
Proof.
  intros Hrun.
  destruct (get_fdr_value_cases self gw wc_gw fh_gw) as [(raws & Hraw & H)|(e & H)];
    rewrite H in Hrun; [|discriminate].
  injection Hrun as <- <-. simpl. split; [|split; [|reflexivity]].
  - unfold scored_table.
    apply (Sorted_map (fun r1 r2 : team_row * fl => desc_before (snd r1) (snd r2) = true)).
    + intros a b Hab. simpl. now apply fl_round2_keeps_order.
    + apply (sort_values_desc_sorted (@snd team_row fl)).
  - apply scored_table_length. eapply raw_fdr_results_length, Hraw.
Qed.

Lemma fdr_table_sorted_descending_witness :
  Sorted (fun r1 r2 : team_row * fl => desc_before (snd r1) (snd r2) = true)
         [(flat_row "B" 2 1, Fin 5.5); (flat_row "A" 1 3, Fin 4.5)].
Proof.
  exact (proj1 (fdr_table_sorted_descending (FDRValueModel.init fixtures_two) _
                  1 2 0 _ fdr_run_two)).
Defined.

(** ** The wildcard branch *)

Lemma wildcard_fold (wc_gw fh_gw : Z) (row : team_row) (l : list Z) (acc : R) :
  (forall i, In i l -> i <> fh_gw ->
     (i < wc_gw)%Z /\ (1 <= i <= Z.of_nat (List.length (ratings row)))%Z) ->
  foldR (wildcard_step wc_gw fh_gw row) l acc =
  Ok (acc + Rsum (map (fun i => rating_at row i * ln (IZR (wc_gw - i + 1)))
                      (filter (fun i => negb (i =? fh_gw)%Z) l))).
Proof.
  revert acc. induction l as [|i l IH]; intros acc H; simpl.
  - f_equal. lra.
  - assert (Hl : forall j, In j l -> j <> fh_gw ->
              (j < wc_gw)%Z /\ (1 <= j <= Z.of_nat (List.length (ratings row)))%Z)
      by (intros j Hj; apply H; now right).
    unfold wildcard_step at 1.
    destruct (Z.eqb_spec i fh_gw) as [->|Hne]; simpl.
    + now apply IH.
    + destruct (H i (or_introl eq_refl) Hne) as (Hw & Hc).
      rewrite (py_getitem_nth _ _ 0) by lia. simpl.
      change (nth (Z.to_nat (i - 1)) (ratings row) 0) with (rating_at row i).
      unfold math_log. destruct (Z.leb_spec (- i + wc_gw + 1) 0); [lia|]. simpl.
      rewrite IH by assumption. f_equal.
      replace (- i + wc_gw + 1)%Z with (wc_gw - i + 1)%Z by lia. lra.
Qed.

Lemma wildcard_raw (gw wc_gw fh_gw : Z) (rows : list team_row) :
  wc_gw <> 0%Z -> (1 <= gw)%Z ->
  Forall (fun row => (wc_gw - 1 <= Z.of_nat (List.length (ratings row)))%Z) rows ->
  raw_fdr_results gw wc_gw fh_gw rows = Ok (map (wildcard_sum gw wc_gw fh_gw) rows).
Proof.
  intros Hwc Hgw Hcols. unfold raw_fdr_results.
  destruct (Z.eqb_spec wc_gw 0); [contradiction|].
  apply mapR_ok. intros row Hin.
  rewrite Forall_forall in Hcols. specialize (Hcols row Hin).
  rewrite wildcard_fold.
  - unfold wildcard_sum. f_equal. lra.
  - intros i Hi _. apply in_py_range in Hi. lia.
Qed.

(** In the wildcard loop the only exception is the index error. *)
Lemma wildcard_fold_no_domain_error (wc_gw fh_gw : Z) (row : team_row)
    (l : list Z) (acc : R) :
  (forall i, In i l -> (i < wc_gw)%Z) ->
  (exists v, foldR (wildcard_step wc_gw fh_gw row) l acc = Ok v) \/
  foldR (wildcard_step wc_gw fh_gw row) l acc = Raise IndexError.
Proof.
  revert acc. induction l as [|i l IH]; intros acc H; simpl; [left; now eexists|].
  assert (Hl : forall j, In j l -> (j < wc_gw)%Z) by (intros; apply H; now right).
  unfold wildcard_step at 1 3.
  destruct (Z.eqb_spec i fh_gw); simpl; [now apply IH|].
  unfold py_getitem.
  destruct ((0 <=? _) && (_ <? _))%Z; [|now right].
  destruct (nth_error _ _); simpl; [|now right].
  unfold math_log. specialize (H i (or_introl eq_refl)).
  destruct (Z.leb_spec (- i + wc_gw + 1) 0); [lia|]. simpl. now apply IH.
Qed.

Lemma mapR_error_kinds {A B} (f : A -> result B) (l : list A) (e0 : exn) :
  (forall a, In a l -> (exists v, f a = Ok v) \/ f a = Raise e0) ->
  (exists vs, mapR f l = Ok vs) \/ mapR f l = Raise e0.
Proof.
  induction l as [|a l IH]; intros H; simpl; [left; now eexists|].
  destruct (H a (or_introl eq_refl)) as [[v Hv]|He]; [|rewrite He; now right].
  rewrite Hv. simpl.
  destruct IH as [[vs Hvs]|He]; [intros; apply H; now right| |].
  - rewrite Hvs. left. now eexists.
  - rewrite He. now right.
Qed.

(** X9.  With a wildcard planned ([wc_gw <> 0]), for a 1-based gameweek and
    a table with at least [wc_gw - 1] gameweek columns, every raw score is
    the sum over [gw <= i < wc_gw], [i <> fh_gw], of the rating at [i] times
    [ln (wc_gw - i + 1)], and the call returns.  Whatever the arguments, the
    wildcard branch never raises the math domain error: it returns or
    raises IndexError. *)
Theorem wildcard_scores (self : FDRValueModel.t) (gw wc_gw fh_gw : Z) :
  wc_gw <> 0%Z ->
  ((1 <= gw)%Z ->
   Forall (fun row => (wc_gw - 1 <= Z.of_nat (List.length (ratings row)))%Z)
          (base_rows (df self)) ->
   raw_fdr_results gw wc_gw fh_gw (base_rows (df self))
   = Ok (map (wildcard_sum gw wc_gw fh_gw) (base_rows (df self))) /\
   exists out,
     get_fdr_value gw wc_gw fh_gw self = (Ok (Scored out), {| df := Scored out |})) /\
  ((exists out self', get_fdr_value gw wc_gw fh_gw self = (Ok out, self')) \/
   get_fdr_value gw wc_gw fh_gw self = (Raise IndexError, self)).
Proof.
  intros Hwc. split.
  - intros Hgw Hcols.
    pose proof (wildcard_raw gw wc_gw fh_gw _ Hwc Hgw Hcols) as Hraw.
    split; [exact Hraw|]. eexists. apply get_fdr_value_returns. exact Hraw.
  - assert (Hk : (exists vs, raw_fdr_results gw wc_gw fh_gw (base_rows (df self)) = Ok vs)
                 \/ raw_fdr_results gw wc_gw fh_gw (base_rows (df self)) = Raise IndexError).
    { unfold raw_fdr_results. destruct (Z.eqb_spec wc_gw 0); [contradiction|].
      apply mapR_error_kinds. intros row _.
      apply wildcard_fold_no_domain_error.
      intros i Hi. apply in_py_range in Hi. lia. }
    destruct Hk as [[vs Hvs]|He].
    + left. do 2 eexists. apply get_fdr_value_returns. exact Hvs.
    + right. now apply get_fdr_value_raises.
Qed.

Lemma wildcard_scores_witness :
  raw_fdr_results 1 3 0 fixtures_two
  = Ok (map (wildcard_sum 1 3 0) fixtures_two) /\
  exists out,
    get_fdr_value 1 3 0 (FDRValueModel.init fixtures_two)
    = (Ok (Scored out), {| df := Scored out |}).
Proof.
  assert (H3 : 3%Z <> 0%Z) by discriminate.
  apply (proj1 (wildcard_scores (FDRValueModel.init fixtures_two) 1 3 0 H3)).
  - lia.
  - simpl. repeat constructor; simpl; lia.
Defined.

(** X10.  Every wildcard gameweek that [get_chip_gw]'s test accepts (other
    than 0) makes [get_fdr_value] return on a table with the 38 gameweek
    columns of a season, whatever the free-hit gameweek. *)
Theorem accepted_wildcard_returns (self : FDRValueModel.t) (gw wc_gw fh_gw : Z) :
  valid_chip_gw gw wc_gw = true -> wc_gw <> 0%Z ->
  Forall (fun row => (38 <= Z.of_nat (List.length (ratings row)))%Z)
         (base_rows (df self)) ->
  exists out,
    get_fdr_value gw wc_gw fh_gw self = (Ok (Scored out), {| df := Scored out |}) /\
    List.length out = List.length (base_rows (df self)).
Proof.
  intros Hvalid Hwc Hcols.
  assert (Hr : (1 <= gw)%Z /\ (wc_gw <= 38)%Z).
  { unfold valid_chip_gw in Hvalid.
    rewrite !orb_true_iff, !andb_true_iff, !Z.leb_le, Z.eqb_eq in Hvalid. lia. }
  assert (Hraw : raw_fdr_results gw wc_gw fh_gw (base_rows (df self))
                 = Ok (map (wildcard_sum gw wc_gw fh_gw) (base_rows (df self)))).
  { apply wildcard_raw; [assumption|lia|].
    eapply Forall_impl; [|exact Hcols]. intros row H. simpl in H. lia. }
  eexists. split; [apply get_fdr_value_returns; exact Hraw|].
  apply scored_table_length. now rewrite length_map.
Qed.

Lemma accepted_wildcard_returns_witness :
  exists out,
    get_fdr_value 5 12 7 (FDRValueModel.init [season_row "A" 1 3; season_row "B" 2 1])
    = (Ok (Scored out), {| df := Scored out |}) /\
    List.length out = 2%nat.
Proof.
  assert (H12 : 12%Z <> 0%Z) by discriminate.
  apply (accepted_wildcard_returns
           (FDRValueModel.init [season_row "A" 1 3; season_row "B" 2 1])
           5 12 7 eq_refl H12).
  simpl. repeat constructor; simpl; lia.
Defined.

(** ** Gameweek 0 *)

Lemma py_getitem_minus_one {A} (l : list A) (d : A) :
  l <> [] ->
  py_getitem l (-1) = Ok (nth (Z.to_nat (Z.of_nat (List.length l) - 1)) l d).
Proof.
  intros Hne. unfold py_getitem.
  assert (Hn : (1 <= Z.of_nat (List.length l))%Z)
    by (destruct l; [contradiction|simpl List.length; lia]).
  change (-1 <? 0)%Z with true. cbv iota.
  destruct (Z.leb_spec 0 (Z.of_nat (List.length l) + -1)); [|lia].
  destruct (Z.ltb_spec (Z.of_nat (List.length l) + -1) (Z.of_nat (List.length l)));
    [|lia]. simpl.
  replace (Z.of_nat (List.length l) + -1)%Z with (Z.of_nat (List.length l) - 1)%Z by lia.
  destruct (nth_error l (Z.to_nat (Z.of_nat (List.length l) - 1))) eqn:E.
  - f_equal. symmetry. now apply nth_error_nth.
  - apply nth_error_None in E. lia.
Qed.

Lemma filter_all {A} (f : A -> bool) (l : list A) :
  (forall a, In a l -> f a = true) -> filter f l = l.
Proof.
  induction l as [|a l IH]; intros H; simpl; [reflexivity|].
  rewrite (H a (or_introl eq_refl)). f_equal. apply IH. intros; apply H; now right.
Qed.

(** The raw sums of a call for gameweek 0: index 0 reads the last recorded
    gameweek. *)
Lemma gameweek_zero_raw (rows : list team_row) (fh_gw : Z) :
  (fh_gw < 0 \/ 9 < fh_gw)%Z ->
  Forall (fun row => (9 <= Z.of_nat (List.length (ratings row)))%Z) rows ->
  raw_fdr_results 0 0 fh_gw rows =
  Ok (map (fun row =>
             rating_at row (Z.of_nat (List.length (ratings row))) * ln 8
             + Rsum (map (fun i => rating_at row i * window_weight 0 i)
                         (py_range 1 10)))
          rows).
Proof.
  intros Hfh Hcols.
  unfold raw_fdr_results. change (0 =? 0)%Z with true. cbv iota.
  apply mapR_ok. intros row Hin.
  rewrite Forall_forall in Hcols. specialize (Hcols row Hin).
  change (py_range 0 (0 + 10)) with (0%Z :: py_range 1 10).
  cbn [foldR]. unfold no_wildcard_step at 1.
  destruct (Z.eqb_spec 0 fh_gw); [lia|].
  change (in_range 0 0 (0 + 6)) with true. cbv iota.
  change (0 - 1)%Z with (-1)%Z.
  rewrite (py_getitem_minus_one _ 0)
    by (destruct (ratings row); [simpl in Hcols; lia|discriminate]).
  change (math_log (- 0 + 8)) with (Ok (ln 8)). cbn [rbind].
  rewrite no_wildcard_fold.
  - rewrite filter_all.
    + f_equal. unfold rating_at. lra.
    + intros i Hi. apply in_py_range in Hi.
      destruct (Z.eqb_spec i fh_gw); [lia|reflexivity].
  - intros i Hi _. apply in_py_range in Hi. lia.
Qed.

(** C9, as stated, fails on its lower bound: a call for gameweek 0 on the
    two-team table returns a table. *)
Lemma gameweek_zero_returns :
  base_rows (df (FDRValueModel.init fixtures_two)) <> [] /\
  (exists out self',
     get_fdr_value 0 0 (-1) (FDRValueModel.init fixtures_two) = (Ok out, self')) /\
  ~ (1 <= 0 <= 7)%Z.
Proof.
  split; [simpl; discriminate|]. split; [|lia].
  eexists. eexists. apply get_fdr_value_returns.
  apply gameweek_zero_raw; [lia|].
  simpl. repeat constructor; simpl; lia.
Qed.

(** X11.  Gameweek 0 is not refused: with no wildcard planned and the free
    hit outside gameweeks 0 to 9, on a table with at least 9 gameweek columns
    the call returns, and the term of index 0 is the rating of the last
    recorded gameweek (Python's index -1) times [ln 8]. *)
Theorem gameweek_zero_reads_last_column (self : FDRValueModel.t) (fh_gw : Z) :
  (fh_gw < 0 \/ 9 < fh_gw)%Z ->
  Forall (fun row => (9 <= Z.of_nat (List.length (ratings row)))%Z)
         (base_rows (df self)) ->
  raw_fdr_results 0 0 fh_gw (base_rows (df self)) =
  Ok (map (fun row =>
             rating_at row (Z.of_nat (List.length (ratings row))) * ln 8
             + Rsum (map (fun i => rating_at row i * window_weight 0 i)
                         (py_range 1 10)))
          (base_rows (df self))) /\
  exists out,
    get_fdr_value 0 0 fh_gw self = (Ok (Scored out), {| df := Scored out |}).
Proof.
  intros Hfh Hcols.
  pose proof (gameweek_zero_raw (base_rows (df self)) fh_gw Hfh Hcols) as Hraw.
  split; [exact Hraw|]. eexists. apply get_fdr_value_returns. exact Hraw.
Qed.

Lemma gameweek_zero_reads_last_column_witness :
  exists out,
    get_fdr_value 0 0 (-1) (FDRValueModel.init fixtures_two)
    = (Ok (Scored out), {| df := Scored out |}).
Proof.
  apply (gameweek_zero_reads_last_column (FDRValueModel.init fixtures_two) (-1)).
  - lia.
  - simpl. repeat constructor; simpl; lia.
Defined.

(** ** Training the predictor *)

Section PredictorTraining.
Context {SK : Sklearn}.
Import CleanSheetPointsModel.

(** X12.  When both fits succeed, [train_model] stores the parameters fitted
    from the instance's own data and sets the flag, whatever the state
    before (a trained instance is fitted again); and on an untrained
    instance, calling [train_model] and then [predict] gives the answer and
    the final state of calling [predict] alone. *)
Theorem explicit_training_composes (self : CleanSheetPointsModel.t) (x : R)
    (p : scaler_params) (q : sgd_params) :
  scaler_fit (x_data self) = Ok p ->
  sgd_fit (map (scaler_transform p) (x_data self)) (y_data self) = Ok q ->
  train_model self =
  (Ok tt, mk (x_data self) (y_data self) (Some p) (Some q) true
             (S (trainings self))) /\
  (is_trained self = false ->
   (train_model ;;; predict x)%monad self = predict x self).
Proof.
  intros Hp Hq.
  assert (Ht : train_model self =
               (Ok tt, mk (x_data self) (y_data self) (Some p) (Some q) true
                          (S (trainings self)))).
  { unfold train_model, bind, get, put, lift. simpl. rewrite Hp. simpl.
    rewrite Hq. reflexivity. }
  split; [exact Ht|].
  intros Hu. rewrite (predict_untrained self x p q Hu Hp Hq).
  unfold bind at 1. rewrite Ht.
  unfold predict, bind, get, ret. reflexivity.
Qed.

(** X13.  A fit that raises is not remembered: [predict] on an untrained
    instance whose scaler fit or regressor fit raises [e] raises [e] and
    leaves the instance untrained, having counted one more training, so the
    next [predict] trains again. *)
Theorem failed_training_is_retried (self : CleanSheetPointsModel.t) (x : R) (e : exn) :
  is_trained self = false ->
  scaler_fit (x_data self) = Raise e \/
  (exists p, scaler_fit (x_data self) = Ok p /\
             sgd_fit (map (scaler_transform p) (x_data self)) (y_data self) = Raise e) ->
  exists self',
    predict x self = (Raise e, self') /\
    is_trained self' = false /\
    trainings self' = S (trainings self) /\
    x_data self' = x_data self /\ y_data self' = y_data self /\
    forall x', trainings (snd (predict x' self')) = S (S (trainings self)).
Proof.
  intros Hu Hfail.
  assert (H : exists self',
            predict x self = (Raise e, self') /\
            is_trained self' = false /\
            trainings self' = S (trainings self) /\
            x_data self' = x_data self /\ y_data self' = y_data self).
  { unfold predict, train_model, bind, get, put, lift, ret. rewrite Hu. simpl.
    destruct Hfail as [Hs|(p & Hp & Hq)].
    - rewrite Hs. simpl. eexists. split; [reflexivity|]. simpl. now repeat split.
    - rewrite Hp. simpl. rewrite Hq. simpl.
      eexists. split; [reflexivity|]. simpl. now repeat split. }
  destruct H as (self' & Hrun & Ht & Hn & Hx & Hy).
  exists self'. repeat split; try assumption.
  intros x'. rewrite (predict_untrained_counts self' x' Ht). now rewrite Hn.
Qed.

End PredictorTraining.

Lemma explicit_training_composes_witness :
  let fresh := CleanSheetPointsModel.init (SK := demo_sklearn) [1; 2] [3; 5] in
  CleanSheetPointsModel.train_model fresh =
  (Ok tt, CleanSheetPointsModel.mk (SK := demo_sklearn) [1; 2] [3; 5]
            (Some (np_mean [1; 2])) (Some (np_mean [3; 5])) true 1) /\
  (CleanSheetPointsModel.train_model ;;; CleanSheetPointsModel.predict 4)%monad fresh
  = CleanSheetPointsModel.predict 4 fresh.
Proof.
  intros fresh.
  destruct (explicit_training_composes (SK := demo_sklearn) fresh 4
              (np_mean [1; 2]) (np_mean [3; 5]) eq_refl eq_refl) as [H1 H2].
  split; [exact H1|]. apply H2. reflexivity.
Defined.

Lemma failed_training_is_retried_witness :
  exists self',
    CleanSheetPointsModel.predict (SK := strict_sklearn) 1
      (CleanSheetPointsModel.init (SK := strict_sklearn) [] [])
    = (Raise ValueError, self') /\
    CleanSheetPointsModel.is_trained self' = false /\
    CleanSheetPointsModel.trainings self' = 1%nat.
Proof.
  destruct (failed_training_is_retried (SK := strict_sklearn)
              (CleanSheetPointsModel.init (SK := strict_sklearn) [] []) 1 ValueError
              eq_refl (or_introl eq_refl))
    as (self' & H1 & H2 & H3 & _).
  exists self'. now repeat split.
Defined.

(** ** What a position method returns and what it leaves alone *)

Section PositionResults.
Context {SK : Sklearn}.
Import AssetValueModel.

Lemma position_table_set_other (pos pos' : position_kind) (s : t) (d : player_df) :
  pos' <> pos ->
  position_table pos' (set_position_table pos s d) = position_table pos' s.
Proof. destruct pos, pos'; intros H; try reflexivity; contradiction. Qed.

Lemma forM_length {S A B} (body : A -> M S B) (l : list A) (s s' : S) (vs : list B) :
  forM l body s = (Ok vs, s') -> List.length vs = List.length l.
Proof.
  revert s s' vs. induction l as [|a l IH]; intros s s' vs; simpl.
  - unfold ret. intros [= <- _]. reflexivity.
  - unfold bind. destruct (body a s) as [[b|e] s1]; [|discriminate].
    destruct (forM l body s1) as [[bs|e] s2] eqn:E; [|discriminate].
    unfold ret. intros [= <- _]. simpl. f_equal. eapply IH, E.
Qed.

Lemma forM_Forall2 {S A B} (P : A -> B -> Prop) (body : A -> M S B)
    (l : list A) (s s' : S) (vs : list B) :
  (forall a s0 b s1, body a s0 = (Ok b, s1) -> P a b) ->
  forM l body s = (Ok vs, s') -> Forall2 P l vs.
Proof.
  intros HP. revert s s' vs. induction l as [|a l IH]; intros s s' vs; simpl.
  - unfold ret. intros [= <- _]. constructor.
  - unfold bind. destruct (body a s) as [[b|e] s1] eqn:Eb; [|discriminate].
    destruct (forM l body s1) as [[bs|e] s2] eqn:E; [|discriminate].
    unfold ret. intros [= <- _]. constructor; [eapply HP, Eb|eapply IH, E].
Qed.

Lemma Forall2_combine {A B} (P : A -> B -> Prop) (l : list A) (l' : list B)
    (a : A) (b : B) :
  Forall2 P l l' -> In (a, b) (combine l l') -> P a b.
Proof.
  induction 1 as [|x y l l' Hxy _ IH]; simpl; [contradiction|].
  intros [[= <- <-]|Hin]; [assumption|now apply IH].
Qed.

(** The state and the outcome of a position method, step by step. *)
Lemma position_method_run (pos : position_kind) (src : cs_source)
    (xpts_of : R -> player_row -> R) (gw wc_gw fh_gw : Z) (s : t) :
  let loop := forM (base_rows (position_table pos s))
                   (row_body src xpts_of gw wc_gw fh_gw) s in
  position_method pos src xpts_of gw wc_gw fh_gw s =
  match fst loop with
  | Ok res =>
      let d := write_columns (position_table pos s) res in
      (Ok d, set_position_table pos (snd loop) d)
  | Raise e => (Raise e, snd loop)
  end.
Proof.
  intros loop. unfold position_method, bind, get, put, ret. fold loop.
  pose proof (forM_tables src xpts_of gw wc_gw fh_gw pos
                (base_rows (position_table pos s)) s) as Htab.
  fold loop in Htab.
  destruct loop as [[res|e] sm]; simpl in *; [|reflexivity].
  now rewrite Htab, position_table_set.
Qed.

(** X14.  A position method never touches the tables of the other three
    positions, and when it raises it leaves its own table as it was: no
    partial result is written. *)
Theorem position_tables_frame (pos pos' : position_kind) (gw wc_gw fh_gw : Z)
    (s s' : t) (r : result player_df) :
  compute_values pos gw wc_gw fh_gw s = (r, s') ->
  (pos' <> pos \/ exists e, r = Raise e) ->
  position_table pos' s' = position_table pos' s.
Proof.
  rewrite compute_values_shape, position_method_run. cbv zeta.
  pose proof (forM_tables (position_source pos) (position_xpts pos) gw wc_gw fh_gw
                pos' (base_rows (position_table pos s)) s) as Htab.
  destruct (forM _ _ s) as [[res|e] sm]; simpl in *.
  - intros [= <- <-] [Hne|[e He]]; [|discriminate].
    now rewrite position_table_set_other.
  - intros [= <- <-] _. exact Htab.
Qed.

(** X15.  A position method that returns gives back, and stores, a table
    with exactly the players it read, ordered by value in descending order,
    NaN last. *)
Theorem position_result_sorted (pos : position_kind) (gw wc_gw fh_gw : Z)
    (s s' : t) (out : player_df) :
  compute_values pos gw wc_gw fh_gw s = (Ok out, s') ->
  position_table pos s' = out /\
  Permutation (base_rows out) (base_rows (position_table pos s)) /\
  Sorted (fun r1 r2 => desc_before (value (snd r1)) (value (snd r2)) = true)
         (scored_rows out).
Proof.
  rewrite compute_values_shape, position_method_run. cbv zeta.
  destruct (forM _ _ s) as [[res|e] sm] eqn:Eloop; simpl; [|discriminate].
  intros [= <- <-]. rewrite position_table_set, write_columns_eq.
  split; [reflexivity|]. simpl. split.
  - rewrite (Permutation_map fst (sort_values_desc_perm _ _)).
    rewrite map_fst_combine; [reflexivity|].
    rewrite length_map. eapply forM_length, Eloop.
  - apply (sort_values_desc_sorted (fun r : player_row * derived => value (snd r))).
Qed.


End PositionResults.

(** ** A player whose team is not in the fixture table *)

Lemma get_fdr_value_keeps_teams (F F' : FDRValueModel.t) (gw wc_gw fh_gw : Z)
    (r : result fixtures_df) :
  get_fdr_value gw wc_gw fh_gw F = (r, F') ->
  Permutation (map team (base_rows (df F'))) (map team (base_rows (df F))).
Proof.
  intros Hrun.
  destruct (get_fdr_value_cases F gw wc_gw fh_gw) as [(raws & Hraw & H)|(e & H)];
    rewrite H in Hrun; injection Hrun as <- <-; [|reflexivity].
  simpl. rewrite map_map. apply scored_table_teams.
  eapply raw_fdr_results_length, Hraw.
Qed.

Lemma lookup_absent (F : FDRValueModel.t) (name : string) :
  ~ In name (map team (base_rows (df F))) ->
  exists e, get_fdr_value_by_team name F = (Raise e, F).
Proof.
  intros Habs. destruct (df F) as [rows|rows] eqn:E.
  - exists KeyError. now apply (lookup_bare F name rows).
  - exists IndexError. rewrite (lookup_scored F name rows E).
    destruct (filter _ rows) as [|r l] eqn:Ef; [reflexivity|].
    exfalso. apply Habs.
    assert (Hr : In r (filter (fun r => String.eqb (team (fst r)) name) rows))
      by (rewrite Ef; now left).
    apply filter_In in Hr. destruct Hr as [Hr Heq]. cbv beta in Heq.
    apply String.eqb_eq in Heq. rewrite <- Heq. simpl. rewrite map_map.
    apply in_map_iff. now exists r.
Qed.

Lemma fdr_lookup_absent (F : FDRValueModel.t) (gw wc_gw fh_gw : Z) (name : string) :
  ~ In name (map team (base_rows (df F))) ->
  exists e F',
    fdr_lookup gw wc_gw fh_gw name F = (Raise e, F') /\
    Permutation (map team (base_rows (df F'))) (map team (base_rows (df F))).
Proof.
  intros Habs. unfold fdr_lookup, bind.
  destruct (get_fdr_value gw wc_gw fh_gw F) as [[out|e] F1] eqn:E.
  - pose proof (get_fdr_value_keeps_teams _ _ _ _ _ _ E) as Hp.
    destruct (lookup_absent F1 name) as [e He].
    + intros Hin. apply Habs. eapply Permutation_in; [exact Hp|exact Hin].
    + rewrite He. now exists e, F1.
  - exists e, F1. split; [reflexivity|].
    eapply get_fdr_value_keeps_teams, E.
Qed.

Lemma fdr_lookup_keeps_teams (F F' : FDRValueModel.t) (gw wc_gw fh_gw : Z)
    (name : string) (r : result fl) :
  fdr_lookup gw wc_gw fh_gw name F = (r, F') ->
  Permutation (map team (base_rows (df F'))) (map team (base_rows (df F))).
Proof.
  unfold fdr_lookup, bind.
  destruct (get_fdr_value gw wc_gw fh_gw F) as [[out|e] F1] eqn:E.
  - intros H. pose proof (lookup_keeps_model F1 name) as Hk.
    rewrite H in Hk. simpl in Hk. subst F'.
    eapply get_fdr_value_keeps_teams, E.
  - intros [= <- <-]. eapply get_fdr_value_keeps_teams, E.
Qed.

Section MissingTeam.
Context {SK : Sklearn}.
Import AssetValueModel.

Variables (src : cs_source) (xpts_of : R -> player_row -> R) (gw wc_gw fh_gw : Z).

Let body := row_body src xpts_of gw wc_gw fh_gw.

Let teams (s : t) : list string := map team (base_rows (df (fdr_value_model s))).

Lemma clean_sheet_points_keeps_fdr (x : R) (s : t) :
  fdr_value_model (snd (clean_sheet_points src x s)) = fdr_value_model s.
Proof.
  destruct src; unfold clean_sheet_points, zoom, ret; simpl; try reflexivity.
  - now destruct (CleanSheetPointsModel.predict x (clean_sheet_points_model_gk_def s)).
  - now destruct (CleanSheetPointsModel.predict x (clean_sheet_points_model_mid s)).
Qed.

Lemma row_body_keeps_teams (row : player_row) (s : t) :
  Permutation (teams (snd (body row s))) (teams s).
Proof.
  unfold body, row_body, bind, teams.
  pose proof (clean_sheet_points_keeps_fdr (xGCp90 row) s) as Hc.
  destruct (clean_sheet_points src (xGCp90 row) s) as [[cs|e] sa]; simpl in *;
    [|now rewrite Hc].
  change (AssetValueModel.get_fdr_value gw wc_gw fh_gw (player_team row) sa)
    with (zoom fdr_value_model set_fdr_value_model
            (fdr_lookup gw wc_gw fh_gw (player_team row)) sa).
  unfold zoom.
  destruct (fdr_lookup gw wc_gw fh_gw (player_team row) (fdr_value_model sa))
    as [[fv|e] F'] eqn:Ef; simpl;
    rewrite (fdr_lookup_keeps_teams _ _ _ _ _ _ _ Ef); now rewrite Hc.
Qed.

Lemma row_body_missing_team (row : player_row) (s : t) :
  ~ In (player_team row) (teams s) -> exists e, fst (body row s) = Raise e.
Proof.
  intros Habs. unfold body, row_body, bind.
  pose proof (clean_sheet_points_keeps_fdr (xGCp90 row) s) as Hc.
  destruct (clean_sheet_points src (xGCp90 row) s) as [[cs|e] sa]; simpl in *;
    [|now exists e].
  change (AssetValueModel.get_fdr_value gw wc_gw fh_gw (player_team row) sa)
    with (zoom fdr_value_model set_fdr_value_model
            (fdr_lookup gw wc_gw fh_gw (player_team row)) sa).
  unfold zoom.
  destruct (fdr_lookup_absent (fdr_value_model sa) gw wc_gw fh_gw (player_team row))
    as (e & F' & He & _).
  - unfold teams in Habs. now rewrite Hc.
  - rewrite He. simpl. now exists e.
Qed.

Lemma forM_missing_team (rows : list player_row) (row : player_row) (s : t) :
  In row rows -> ~ In (player_team row) (teams s) ->
  exists e, fst (forM rows body s) = Raise e.
Proof.
  revert s. induction rows as [|r rows IH]; intros s Hin Habs; [contradiction|].
  simpl. unfold bind.
  pose proof (row_body_keeps_teams r s) as Hk.
  destruct Hin as [->|Hin].
  - destruct (row_body_missing_team row s Habs) as [e He].
    destruct (body row s) as [[v|e'] s1]; simpl in *; [discriminate|now exists e'].
  - destruct (body r s) as [[v|e'] s1]; simpl in *; [|now exists e'].
    destruct (IH s1 Hin) as [e He].
    + intros H. apply Habs. eapply Permutation_in; [exact Hk|exact H].
    + destruct (forM rows body s1) as [[vs|e''] s2]; simpl in *;
        [discriminate|now exists e''].
Qed.

End MissingTeam.

(** X17.  A position method never returns a table when one of its players
    belongs to a team that the fixture table does not have: it raises, and
    the position's table stays as it was. *)
Theorem missing_team_raises {SK : Sklearn} (pos : position_kind) (gw wc_gw fh_gw : Z)
    (s : AssetValueModel.t) (row : player_row) :
  In row (base_rows (position_table pos s)) ->
  ~ In (player_team row)
       (map team (base_rows (df (AssetValueModel.fdr_value_model s)))) ->
  exists e s',
    compute_values pos gw wc_gw fh_gw s = (Raise e, s') /\
    position_table pos s' = position_table pos s.
Proof.
  intros Hin Habs.
  rewrite compute_values_shape, position_method_run. cbv zeta.
  destruct (forM_missing_team (position_source pos) (position_xpts pos) gw wc_gw fh_gw
              _ row s Hin Habs) as [e He].
  pose proof (forM_tables (position_source pos) (position_xpts pos) gw wc_gw fh_gw
                pos (base_rows (position_table pos s)) s) as Htab.
  destruct (forM _ _ s) as [[res|e'] sm]; simpl in *; [discriminate|].
  now exists e', sm.
Qed.

Lemma missing_team_raises_witness :
  exists e s',
    compute_values (SK := demo_sklearn) Forward 1 2 0
      (model_with_forward fixtures_two "Z") = (Raise e, s') /\
    AssetValueModel.forwards s' = Bare [quiet_forward "X" "Z"].
Proof.
  apply (missing_team_raises (SK := demo_sklearn) Forward 1 2 0
           (model_with_forward fixtures_two "Z") (quiet_forward "X" "Z")).
  - simpl. now left.
  - simpl. intros [H|[H|[]]]; discriminate.
Defined.

Lemma forward_run_two :
  exists out s1,
    compute_values (SK := demo_sklearn) Forward 1 2 0
      (model_with_forward fixtures_two "B") = (Ok out, s1) /\
    scored_rows out =
    [(quiet_forward "X" "B",
      to_derived (AssetValueModel.finish (AssetValueModel.xpts_fwd 0 0 0 1 0)
                                         (Fin 5.5) 1))].
Proof.
  pose proof (forward_single_run (SK := demo_sklearn)
                (model_with_forward fixtures_two "B") 1 2 0
                (quiet_forward "X" "B") _ _ (Fin 5.5) eq_refl fdr_run_two eq_refl)
    as Hrun.
  cbv zeta in Hrun. do 2 eexists. split; [exact Hrun|reflexivity].
Qed.

Lemma position_tables_frame_witness :
  exists out s1,
    compute_values (SK := demo_sklearn) Forward 1 2 0
      (model_with_forward fixtures_two "B") = (Ok out, s1) /\
    AssetValueModel.goalkeepers s1 = Bare [].
Proof.
  destruct forward_run_two as (out & s1 & Hrun & _).
  exists out, s1. split; [exact Hrun|].
  apply (position_tables_frame (SK := demo_sklearn) Forward Goalkeeper 1 2 0
           _ s1 _ Hrun).
  left. discriminate.
Defined.

Lemma position_result_sorted_witness :
  exists out s1,
    compute_values (SK := demo_sklearn) Forward 1 2 0
      (model_with_forward fixtures_two "B") = (Ok out, s1) /\
    AssetValueModel.forwards s1 = out /\
    Permutation (base_rows out) [quiet_forward "X" "B"].
Proof.
  destruct forward_run_two as (out & s1 & Hrun & _).
  exists out, s1. split; [exact Hrun|].
  destruct (position_result_sorted (SK := demo_sklearn) Forward 1 2 0 _ s1 out Hrun)
    as (H1 & H2 & _).
  split; [exact H1|exact H2].
Defined.


(** ** The console functions of [system.py] *)

Lemma valid_chip_gw_range (g c : Z) :
  valid_chip_gw g c = true ->
  c = 0%Z \/
  ((1 <= g <= 38)%Z /\ (g <= c <= 38)%Z /\ (2 <= c)%Z /\
   ((g <= 19)%Z <-> (c <= 19)%Z)).
Proof.
  unfold valid_chip_gw.
  rewrite !orb_true_iff, !andb_true_iff, !Z.leb_le, Z.eqb_eq. lia.
Qed.

Lemma get_chip_gw_valid (g : Z) (lines rest : System.console) (v : Z) :
  System.get_chip_gw g lines = Some (v, rest) -> valid_chip_gw g v = true.
Proof.
  induction lines as [|[n|] lines IH]; simpl; [discriminate| |assumption].
  destruct (valid_chip_gw g n) eqn:Ev; [|assumption].
  now intros [= <- <-].
Qed.

(** X18.  [get_chip_gw] returns the first typed int that passes the test,
    skipping the lines that are not ints and the ints that fail it.  What it
    returns is 0 or a gameweek of the current half-season that is not
    before the current gameweek and not gameweek 1; when the current
    gameweek is outside 1..38 it can only return 0. *)
Theorem get_chip_gw_first_valid (g : Z) (lines : System.console) :
  (forall v rest,
     System.get_chip_gw g lines = Some (v, rest) ->
     exists skipped,
       lines = skipped ++ Some v :: rest /\
       valid_chip_gw g v = true /\
       (forall l, In l skipped ->
          l = None \/ exists n, l = Some n /\ valid_chip_gw g n = false) /\
       (v = 0%Z \/
        ((1 <= g <= 38)%Z /\ (g <= v <= 38)%Z /\ (2 <= v)%Z /\
         ((g <= 19)%Z <-> (v <= 19)%Z)))) /\
  (System.get_chip_gw g lines = None <->
   forall n, In (Some n) lines -> valid_chip_gw g n = false).
Proof.
  induction lines as [|[n|] lines [IH1 IH2]]; simpl.
  - split; [discriminate|]. split; [contradiction|reflexivity].
  - destruct (valid_chip_gw g n) eqn:Ev.
    + split.
      * intros v rest [= <- <-]. exists []. repeat split; try assumption.
        -- contradiction.
        -- now apply valid_chip_gw_range.
      * split; [discriminate|]. intros H.
        specialize (H n (or_introl eq_refl)). congruence.
    + split.
      * intros v rest H. destruct (IH1 v rest H) as (sk & -> & Hv & Hsk & Hr).
        exists (Some n :: sk). repeat split; try assumption.
        intros l [<-|Hl]; [right; now exists n|now apply Hsk].
      * rewrite IH2. split.
        -- intros H m [[= <-]|Hm]; [assumption|now apply H].
        -- intros H m Hm. apply H. now right.
  - split.
    + intros v rest H. destruct (IH1 v rest H) as (sk & -> & Hv & Hsk & Hr).
      exists (None :: sk). repeat split; try assumption.
      intros l [<-|Hl]; [now left|now apply Hsk].
    + rewrite IH2. split.
      * intros H m [Hm|Hm]; [discriminate|now apply H].
      * intros H m Hm. apply H. now right.
Qed.

Lemma get_chip_gw_first_valid_witness :
  exists skipped,
    [None; Some 3; Some 25; Some 7; Some 9]%Z = skipped ++ Some 7%Z :: [Some 9%Z] /\
    valid_chip_gw 5 7 = true.
Proof.
  destruct (proj1 (get_chip_gw_first_valid 5 [None; Some 3; Some 25; Some 7; Some 9]%Z)
              7%Z [Some 9%Z] eq_refl) as (sk & H1 & H2 & _).
  exists sk. split; assumption.
Defined.

(** X19.  [get_gw_number] returns the first typed int as it is, with no
    range check; after a gameweek outside 1..38, [get_chip_gw] accepts
    nothing but 0 for either chip. *)
Theorem get_gw_number_unchecked (lines : System.console) :
  (forall n rest,
     System.get_gw_number lines = Some (n, rest) ->
     exists k, lines = repeat None k ++ Some n :: rest) /\
  (forall k n rest, System.get_gw_number (repeat None k ++ Some n :: rest)
                    = Some (n, rest)) /\
  (forall g lines' v rest,
     (g < 1 \/ 38 < g)%Z ->
     System.get_chip_gw g lines' = Some (v, rest) -> v = 0%Z).
Proof.
  split; [|split].
  - induction lines as [|[m|] lines IH]; simpl; [discriminate| |].
    + intros n rest [= <- <-]. now exists 0%nat.
    + intros n rest H. destruct (IH n rest H) as [k ->]. now exists (S k).
  - intros k n rest. induction k; simpl; [reflexivity|assumption].
  - intros g lines' v rest Hg. induction lines' as [|[m|] l IH]; simpl;
      [discriminate| |assumption].
    destruct (valid_chip_gw g m) eqn:Ev; [|assumption].
    intros [= <- <-]. apply valid_chip_gw_range in Ev. lia.
Qed.

Lemma get_gw_number_unchecked_witness :
  System.get_gw_number [None; Some 99%Z; Some 4%Z] = Some (99%Z, [Some 4%Z]) /\
  (forall v rest,
     System.get_chip_gw 99 [Some 20; Some 0; Some 5]%Z = Some (v, rest) -> v = 0%Z).
Proof.
  destruct (get_gw_number_unchecked [None; Some 99%Z; Some 4%Z]) as (_ & H2 & H3).
  split.
  - exact (H2 1%nat 99%Z [Some 4%Z]).
  - intros v rest. apply (H3 99%Z). lia.
Defined.

(** X20.  [run] asks for the Wildcard first and the Free Hit second, keeps
    the gameweek, and ends with [is_running] set and both chips passing the
    test; in particular neither chip is a past gameweek. *)
Theorem run_sets_valid_chips (self self' : System.chips)
    (lines rest : System.console) :
  System.run self lines = Some (self', rest) ->
  System.is_running self' = true /\
  System.gw self' = System.gw self /\
  valid_chip_gw (System.gw self) (System.wc_gw self') = true /\
  valid_chip_gw (System.gw self) (System.fh_gw self') = true /\
  exists mid,
    System.get_chip_gw (System.gw self) lines = Some (System.wc_gw self', mid) /\
    System.get_chip_gw (System.gw self) mid = Some (System.fh_gw self', rest).
Proof.
  unfold System.run.
  destruct (System.get_chip_gw (System.gw self) lines) as [[wc mid]|] eqn:E1;
    [|discriminate].
  destruct (System.get_chip_gw (System.gw self) mid) as [[fh rest']|] eqn:E2;
    [|discriminate].
  intros [= <- <-]. simpl.
  pose proof (get_chip_gw_valid _ _ _ _ E1) as Hv1.
  pose proof (get_chip_gw_valid _ _ _ _ E2) as Hv2.
  repeat split; try assumption. now exists mid.
Qed.

Lemma run_sets_valid_chips_witness :
  exists self' rest,
    System.run (System.init 5) [Some 3; Some 7; None; Some 0; Some 9]%Z
    = Some (self', rest) /\
    System.is_running self' = true /\
    System.wc_gw self' = 7%Z /\ System.fh_gw self' = 0%Z.
Proof.
  do 2 eexists. split; [reflexivity|].
  destruct (run_sets_valid_chips (System.init 5) _
              [Some 3; Some 7; None; Some 0; Some 9]%Z _ eq_refl) as (H1 & _).
  split; [exact H1|]. split; reflexivity.
Defined.

(** ** Bounds on the defensive-contribution term *)

Lemma defcon_term_def_bound (d : R) : defcon_term_def d < 2.0001.
Proof.
  destruct defcon_term_def_at_mid_hi as [_ Hhi].
  destruct (Rle_lt_dec d 13.33) as [Hd|Hd].
  - assert (Hm : defcon_term_def d <= defcon_term_def 13.33)
      by (apply defcon_term_monotone; lra).
    lra.
  - unfold defcon_term_def. rewrite defcon_term_above by lra. lra.
Qed.

Lemma defcon_term_mid_fwd_bound (d : R) : defcon_term_mid_fwd d <= 2.
Proof.
  destruct defcon_term_mid_fwd_at_mid_hi as [_ Hhi].
  destruct (Rle_lt_dec d 16) as [Hd|Hd].
  - assert (Hm : defcon_term_mid_fwd d <= defcon_term_mid_fwd 16)
      by (apply defcon_term_monotone; lra).
    lra.
  - unfold defcon_term_mid_fwd. rewrite defcon_term_above by lra. lra.
Qed.

Lemma defcon_term_nonneg (low mid_hi scale offset d : R) :
  0 < scale -> 0 <= offset -> 0 <= d ->
  0 <= defcon_term d low mid_hi 1.2 scale offset.
Proof.
  intros Hs Ho Hd. unfold defcon_term.
  destruct (Rlt_dec d low); [lra|].
  destruct (Rle_dec d mid_hi); [|lra].
  pose proof (py_pow_nonneg (d - low) 1.2).
  assert (0 <= py_pow (d - low) 1.2 / scale)
    by (apply Rmult_le_pos; [assumption|left; now apply Rinv_0_lt_compat]).
  lra.
Qed.

(** X21.  Defensive contributions add at most 2 expected points for
    midfielders and forwards and less than 2.0001 for defenders, however
    large they are, and never subtract any when they are not negative. *)
Theorem defcon_points_bounded (xg xa cs b d y : R) :
  AssetValueModel.xpts_def xg xa cs b d y < 2 + xg * 6 + xa * 3 + cs + b + 2.0001 - y /\
  AssetValueModel.xpts_mid xg xa cs b d y <= 2 + xg * 5 + xa * 3 + cs + b + 2 - y /\
  AssetValueModel.xpts_fwd xg xa b d y <= 2 + xg * 4 + xa * 3 + b + 2 - y /\
  (0 <= d ->
   2 + xg * 6 + xa * 3 + cs + b - y <= AssetValueModel.xpts_def xg xa cs b d y /\
   2 + xg * 5 + xa * 3 + cs + b - y <= AssetValueModel.xpts_mid xg xa cs b d y /\
   2 + xg * 4 + xa * 3 + b - y <= AssetValueModel.xpts_fwd xg xa b d y).
Proof.
  rewrite xpts_def_defcon, xpts_mid_defcon, xpts_fwd_defcon.
  pose proof (defcon_term_def_bound d). pose proof (defcon_term_mid_fwd_bound d).
  repeat split; try lra.
  - pose proof (defcon_term_nonneg 5 13.33 6.38 0.005 d ltac:(lra) ltac:(lra) H1).
    unfold defcon_term_def. lra.
  - pose proof (defcon_term_nonneg 6 16 8 0.006 d ltac:(lra) ltac:(lra) H1).
    unfold defcon_term_mid_fwd. lra.
  - pose proof (defcon_term_nonneg 6 16 8 0.006 d ltac:(lra) ltac:(lra) H1).
    unfold defcon_term_mid_fwd. lra.
Qed.

Lemma defcon_points_bounded_witness :
  2 + 0 * 4 + 0 * 3 + 0 - 0 <= AssetValueModel.xpts_fwd 0 0 0 40 0 /\
  AssetValueModel.xpts_fwd 0 0 0 40 0 <= 2 + 0 * 4 + 0 * 3 + 0 + 2 - 0.
Proof.
  destruct (defcon_points_bounded 0 0 0 0 40 0) as (_ & _ & Hup & Hlow).
  split; [|exact Hup].
  apply Hlow. lra.
Defined.

(** ** A free hit outside the window *)

Lemma foldR_ext {A B} (f g : B -> A -> result B) (l : list A) (acc : B) :
  (forall a b, In a l -> f b a = g b a) -> foldR f l acc = foldR g l acc.
Proof.
  revert acc. induction l as [|a l IH]; intros acc H; simpl; [reflexivity|].
  rewrite (H a acc (or_introl eq_refl)).
  destruct (g acc a); simpl; [|reflexivity].
  apply IH. intros; apply H; now right.
Qed.

(** X22.  A free-hit gameweek outside the window that is summed (ten weeks
    from [gw] with no wildcard, [gw] up to [wc_gw - 1] with one) has no
    effect: the call gives the result and leaves the model that it gives
    and leaves with any other free-hit gameweek outside the window, 0
    included. *)
Theorem free_hit_outside_window (self : FDRValueModel.t) (gw wc_gw fh1 fh2 : Z) :
  let hi := if (wc_gw =? 0)%Z then (gw + 10)%Z else wc_gw in
  (fh1 < gw \/ hi <= fh1)%Z -> (fh2 < gw \/ hi <= fh2)%Z ->
  get_fdr_value gw wc_gw fh1 self = get_fdr_value gw wc_gw fh2 self.
Proof.
  intros hi H1 H2.
  assert (Hraw : raw_fdr_results gw wc_gw fh1 (base_rows (df self))
                 = raw_fdr_results gw wc_gw fh2 (base_rows (df self))).
  { unfold raw_fdr_results. subst hi.
    destruct (Z.eqb_spec wc_gw 0) as [Hwc|Hwc].
    - apply mapR_ext. intros row _. apply foldR_ext.
      intros i acc Hi. apply in_py_range in Hi. unfold no_wildcard_step.
      destruct (Z.eqb_spec i fh1); [lia|]. destruct (Z.eqb_spec i fh2); [lia|].
      reflexivity.
    - apply mapR_ext. intros row _. apply foldR_ext.
      intros i acc Hi. apply in_py_range in Hi. unfold wildcard_step.
      destruct (Z.eqb_spec i fh1); [lia|]. destruct (Z.eqb_spec i fh2); [lia|].
      reflexivity. }
  unfold get_fdr_value, bind, get, lift. now rewrite Hraw.
Qed.

Lemma free_hit_outside_window_witness :
  get_fdr_value 1 2 0 (FDRValueModel.init fixtures_two)
  = get_fdr_value 1 2 30 (FDRValueModel.init fixtures_two).
Proof.
  apply (free_hit_outside_window (FDRValueModel.init fixtures_two) 1 2 0 30);
    simpl; lia.
Defined.

(** ** The aggregator inside the asset value model *)

Section FdrColumn.
Context {SK : Sklearn}.
Import AssetValueModel.



End FdrColumn.


(* ================================================================= *)
(** * The code over binary64 *)

(** ** The idealised model as an instance *)

Lemma exact_float64_laws : Float64_laws exact_float64.
Proof.
  split.
  - intros A key l. apply sort_values_desc_perm.
  - intros A key l. apply (sort_values_desc_sorted key).
  - intros n _. apply two_decimals_IZR.
Qed.

(** At exact arithmetic the binary64 model is the idealised one. *)
Lemma get_fdr_value_exact (gw wc_gw fh_gw : Z) :
  FDRValueModel64.get_fdr_value (F := exact_float64) gw wc_gw fh_gw =
  FDRValueModel.get_fdr_value gw wc_gw fh_gw.
Proof. reflexivity. Qed.

Lemma compute_values_exact {SK : Sklearn} (pos : position_kind) (gw wc_gw fh_gw : Z) :
  compute_values64 (F := exact_float64) pos gw wc_gw fh_gw =
  compute_values pos gw wc_gw fh_gw.
Proof. destruct pos; reflexivity. Qed.

(** ** Running [get_fdr_value] *)

Section Fdr64.
Context {F : Float64}.

(** The frame that [get_fdr_value] stores and returns, from the rows it
    read and the raw sums it accumulated. *)
Let scored_table64 (rows : list team_row) (raws : list R) : list (team_row * fl) :=
  map FDRValueModel64.round_row
    (sort64 snd
       (combine rows
          (map FDRValueModel64.rescale (FDRValueModel64.zscore_normalisation raws)))).

Lemma get_fdr_value64_returns (self : FDRValueModel.t) (gw wc_gw fh_gw : Z)
    (raws : list R) :
  FDRValueModel64.raw_fdr_results gw wc_gw fh_gw (base_rows (df self)) = Ok raws ->
  FDRValueModel64.get_fdr_value gw wc_gw fh_gw self =
  (Ok (Scored (scored_table64 (base_rows (df self)) raws)),
   {| df := Scored (scored_table64 (base_rows (df self)) raws) |}).
Proof.
  intros H. unfold FDRValueModel64.get_fdr_value, bind, get, lift, put, ret.
  rewrite H. reflexivity.
Qed.

Lemma get_fdr_value64_raises (self : FDRValueModel.t) (gw wc_gw fh_gw : Z) (e : exn) :
  FDRValueModel64.raw_fdr_results gw wc_gw fh_gw (base_rows (df self)) = Raise e ->
  FDRValueModel64.get_fdr_value gw wc_gw fh_gw self = (Raise e, self).
Proof.
  intros H. unfold FDRValueModel64.get_fdr_value, bind, get, lift, put, ret.
  rewrite H. reflexivity.
Qed.

Lemma raw_fdr_results64_length (gw wc_gw fh_gw : Z) (rows : list team_row)
    (raws : list R) :
  FDRValueModel64.raw_fdr_results gw wc_gw fh_gw rows = Ok raws ->
  List.length raws = List.length rows.
Proof.
  unfold FDRValueModel64.raw_fdr_results. destruct (wc_gw =? 0)%Z; apply mapR_length.
Qed.

Lemma window_weight64_first (gw i : Z) :
  (gw <= i < gw + 6)%Z -> window_weight64 gw i = log64 (- i + 8).
Proof.
  intros H. unfold window_weight64.
  destruct (Z.leb_spec gw i); [|lia].
  destruct (Z.leb_spec i (gw + 5)); [|lia]. simpl.
  now replace (- i + 8)%Z with (8 - i)%Z by lia.
Qed.

Lemma window_weight64_rest (gw i : Z) :
  (gw + 6 <= i)%Z -> window_weight64 gw i = - (IZR i /! 25) +! 0.5.
Proof.
  intros H. unfold window_weight64.
  destruct (Z.leb_spec i (gw + 5)); [lia|].
  rewrite andb_false_r. unfold fadd, fsub. f_equal. lra.
Qed.

(** The loop of the no-wildcard branch accumulates the weighted terms of
    the window, in the order of the gameweeks. *)
Lemma no_wildcard_fold64 (gw fh_gw : Z) (row : team_row) (l : list Z) (acc : R) :
  (forall i, In i l -> i <> fh_gw ->
     (gw <= i < gw + 10)%Z /\
     (1 <= i <= Z.of_nat (List.length (ratings row)))%Z /\
     ((i < gw + 6)%Z -> (i <= 7)%Z)) ->
  foldR (FDRValueModel64.no_wildcard_step gw fh_gw row) l acc =
  Ok (fold_left (fun a i => a +! rating_at row i *! window_weight64 gw i)
                (filter (fun i => negb (i =? fh_gw)%Z) l) acc).
Proof.
  revert acc. induction l as [|i l IH]; intros acc H; simpl; [reflexivity|].
  assert (Hl : forall j, In j l -> j <> fh_gw ->
            (gw <= j < gw + 10)%Z /\
            (1 <= j <= Z.of_nat (List.length (ratings row)))%Z /\
            ((j < gw + 6)%Z -> (j <= 7)%Z))
    by (intros j Hj; apply H; now right).
  unfold FDRValueModel64.no_wildcard_step at 1.
  destruct (Z.eqb_spec i fh_gw) as [->|Hne]; simpl.
  - now apply IH.
  - destruct (H i (or_introl eq_refl) Hne) as (Hw & Hc & Hlog).
    rewrite (py_getitem_nth _ _ 0) by lia. simpl.
    change (nth (Z.to_nat (i - 1)) (ratings row) 0) with (rating_at row i).
    unfold in_range.
    destruct (Z.leb_spec gw i); [|lia]. simpl.
    destruct (Z.ltb_spec i (gw + 6)); simpl.
    + unfold FDRValueModel64.math_log.
      destruct (Z.leb_spec (- i + 8) 0); [lia|]. simpl.
      rewrite IH by assumption.
      now rewrite window_weight64_first by lia.
    + destruct (Z.leb_spec (gw + 6) i); [|lia].
      destruct (Z.ltb_spec i (gw + 10)); [|lia]. simpl.
      rewrite IH by assumption.
      now rewrite window_weight64_rest by lia.
Qed.

Lemma no_wildcard_raw64 (gw fh_gw : Z) (rows : list team_row) :
  no_wildcard_pre gw fh_gw rows ->
  FDRValueModel64.raw_fdr_results gw 0 fh_gw rows =
  Ok (map (weighted_sum64 gw fh_gw) rows).
Proof.
  intros (Hgw & Hcols & Hlog). unfold FDRValueModel64.raw_fdr_results. simpl.
  apply mapR_ok. intros row Hin.
  rewrite Forall_forall in Hcols. specialize (Hcols row Hin).
  rewrite no_wildcard_fold64; [reflexivity|].
  intros i Hi Hne. apply in_py_range in Hi.
  repeat split; try lia. intros Hlt. apply Hlog; [lia|assumption].
Qed.

(** The code's normalise-then-rescale, element by element, in the
    specification's words. *)
Lemma rescale_zscore64 (a : list R) :
  map FDRValueModel64.rescale (FDRValueModel64.zscore_normalisation a) =
  map (spec_score64 (mean64 a) (std64 a)) a.
Proof.
  unfold FDRValueModel64.zscore_normalisation. rewrite map_map. reflexivity.
Qed.

(** C1 (amended).  With no wildcard planned, for a 1-based gameweek whose
    ten-week window lies inside the recorded columns and whose first six
    weeks stop at gameweek 7, in whatever way binary64 rounds: the raw
    score of every team is the weighted sum of the specification, taken
    in the order of the gameweeks, and the call returns the table that has,
    for each team, the row that was read with its ratings rounded and
    [-(normalized / 2) + 5] of its raw sum rounded to two decimals. *)
Theorem no_wildcard_scores (self : FDRValueModel.t) (gw fh_gw : Z) :
  Float64_laws F ->
  no_wildcard_pre gw fh_gw (base_rows (df self)) ->
  let rows := base_rows (df self) in
  let raws := map (weighted_sum64 gw fh_gw) rows in
  let score := fun row =>
    spec_score64 (mean64 raws) (std64 raws) (weighted_sum64 gw fh_gw row) in
  FDRValueModel64.raw_fdr_results gw 0 fh_gw rows = Ok raws /\
  exists out,
    FDRValueModel64.get_fdr_value gw 0 fh_gw self =
    (Ok (Scored out), {| df := Scored out |}) /\
    out = map FDRValueModel64.round_row
            (sort64 snd (map (fun row => (row, score row)) rows)) /\
    Permutation out
      (map (fun row => (round_ratings64 row, fl_round64 (score row))) rows).
Proof.
  intros Hlaws Hpre rows raws score.
  pose proof (no_wildcard_raw64 gw fh_gw rows Hpre) as Hraw.
  split; [exact Hraw|].
  assert (Htab : scored_table64 rows raws =
                 map FDRValueModel64.round_row
                   (sort64 snd (map (fun row => (row, score row)) rows))).
  { unfold scored_table64. rewrite rescale_zscore64. unfold raws.
    rewrite map_map, combine_map_r. reflexivity. }
  exists (scored_table64 rows raws). split; [|split].
  - now apply get_fdr_value64_returns.
  - exact Htab.
  - rewrite Htab.
    rewrite (Permutation_map _ (sort64_perm F Hlaws _ snd _)).
    rewrite map_map. reflexivity.
Qed.


(** Every outcome of [get_fdr_value]: a table stored and returned, or an
    exception and the model as it was. *)
Lemma get_fdr_value64_cases (self : FDRValueModel.t) (gw wc_gw fh_gw : Z) :
  (exists raws,
     FDRValueModel64.raw_fdr_results gw wc_gw fh_gw (base_rows (df self)) = Ok raws /\
     FDRValueModel64.get_fdr_value gw wc_gw fh_gw self =
     (Ok (Scored (scored_table64 (base_rows (df self)) raws)),
      {| df := Scored (scored_table64 (base_rows (df self)) raws) |})) \/
  (exists e, FDRValueModel64.get_fdr_value gw wc_gw fh_gw self = (Raise e, self)).
Proof.
  destruct (FDRValueModel64.raw_fdr_results gw wc_gw fh_gw (base_rows (df self)))
    as [raws|e] eqn:E.
  - left. exists raws. split; [reflexivity|]. now apply get_fdr_value64_returns.
  - right. exists e. now apply get_fdr_value64_raises.
Qed.

Lemma scored_table64_base (rows : list team_row) (raws : list R) :
  Float64_laws F ->
  List.length raws = List.length rows ->
  Permutation (map fst (scored_table64 rows raws)) (map round_ratings64 rows).
Proof.
  intros Hlaws H. unfold scored_table64. rewrite map_map.
  change (fun x : team_row * fl => fst (FDRValueModel64.round_row x))
    with (fun x : team_row * fl => round_ratings64 (fst x)).
  rewrite <- (map_map fst round_ratings64).
  apply Permutation_map.
  rewrite (Permutation_map fst (sort64_perm F Hlaws _ snd _)).
  rewrite map_fst_combine; [reflexivity|].
  unfold FDRValueModel64.zscore_normalisation. now rewrite !length_map.
Qed.

Lemma round_ratings64_id (row : team_row) :
  Forall (fun x => round64 x = x) (ratings row) -> round_ratings64 row = row.
Proof.
  intros H. destruct row as [t p rs]. unfold round_ratings64. simpl in *.
  f_equal. induction H as [|x l Hx _ IH]; simpl; [reflexivity|].
  now rewrite Hx, IH.
Qed.

Lemma map_round_ratings64_id (rows : list team_row) :
  unchanged_by_round64 rows -> map round_ratings64 rows = rows.
Proof.
  intros H. induction H as [|row l Hrow _ IH]; simpl; [reflexivity|].
  now rewrite round_ratings64_id, IH.
Qed.

Lemma int_ratings_unchanged (rows : list team_row) :
  Float64_laws F -> int_ratings rows -> unchanged_by_round64 rows.
Proof.
  intros Hlaws H. unfold int_ratings, unchanged_by_round64 in *.
  eapply Forall_impl; [|exact H]. intros row Hrow.
  eapply Forall_impl; [|exact Hrow]. intros x (n & Hn & ->).
  now apply (round64_int F Hlaws).
Qed.

(** C3 (amended).  In whatever way binary64 rounds and the table is
    sorted: a call that returns leaves in the stored table the rows it
    read, in some order, each rating replaced by its rounding to two
    decimals; the ratings are as they were when that rounding leaves them
    alone, as it does when they are ints.  A call that raises leaves the
    model as it was. *)
Theorem stored_ratings_rounded (self self' : FDRValueModel.t)
    (gw wc_gw fh_gw : Z) (res : result fixtures_df) :
  Float64_laws F ->
  FDRValueModel64.get_fdr_value gw wc_gw fh_gw self = (res, self') ->
  match res with
  | Ok out =>
      df self' = out /\
      Permutation (base_rows (df self')) (map round_ratings64 (base_rows (df self))) /\
      (unchanged_by_round64 (base_rows (df self)) ->
       Permutation (base_rows (df self')) (base_rows (df self))) /\
      (int_ratings (base_rows (df self)) ->
       Permutation (base_rows (df self')) (base_rows (df self)))
  | Raise _ => self' = self
  end.
Proof.
  intros Hlaws Hrun.
  destruct (get_fdr_value64_cases self gw wc_gw fh_gw) as [(raws & Hraw & H)|(e & H)];
    rewrite H in Hrun; injection Hrun as <- <-; [|reflexivity].
  simpl. split; [reflexivity|].
  assert (Hp : Permutation (map fst (scored_table64 (base_rows (df self)) raws))
                           (map round_ratings64 (base_rows (df self)))).
  { apply scored_table64_base; [exact Hlaws|].
    eapply raw_fdr_results64_length, Hraw. }
  split; [exact Hp|].
  assert (Hid : unchanged_by_round64 (base_rows (df self)) ->
                Permutation (map fst (scored_table64 (base_rows (df self)) raws))
                            (base_rows (df self))).
  { intros H2. now rewrite map_round_ratings64_id in Hp. }
  split; [exact Hid|].
  intros Hint. apply Hid. now apply int_ratings_unchanged.
Qed.

End Fdr64.

Lemma no_wildcard_scores_witness :
  no_wildcard_pre 1 0 fixtures_two /\
  exists out,
    FDRValueModel64.get_fdr_value (F := exact_float64) 1 0 0
      (FDRValueModel.init fixtures_two)
    = (Ok (Scored out), {| df := Scored out |}) /\
    Permutation out
      (map (fun row =>
              (round_ratings64 (F := exact_float64) row,
               fl_round64 (F := exact_float64)
                 (spec_score64 (F := exact_float64)
                    (np_mean (map (weighted_sum64 (F := exact_float64) 1 0) fixtures_two))
                    (np_std (map (weighted_sum64 (F := exact_float64) 1 0) fixtures_two))
                    (weighted_sum64 (F := exact_float64) 1 0 row))))
           fixtures_two).
Proof.
  split; [exact no_wildcard_pre_two|].
  destruct (no_wildcard_scores (F := exact_float64) (FDRValueModel.init fixtures_two)
              1 0 exact_float64_laws no_wildcard_pre_two) as (_ & out & Hrun & _ & Hp).
  exists out. split; [exact Hrun|exact Hp].
Defined.

Lemma int_ratings_two : int_ratings fixtures_two.
Proof.
  repeat constructor.
  all: first [ exists 3%Z; split; [simpl; lia|reflexivity]
             | exists 1%Z; split; [simpl; lia|reflexivity] ].
Qed.

Lemma stored_ratings_rounded_witness :
  exists out self',
    FDRValueModel64.get_fdr_value (F := exact_float64) 1 2 0
      (FDRValueModel.init fixtures_two) = (Ok out, self') /\
    df self' = out /\
    Permutation (base_rows (df self')) fixtures_two.
Proof.
  exists (Scored [(flat_row "B" 2 1, Fin 5.5); (flat_row "A" 1 3, Fin 4.5)]).
  exists {| df := Scored [(flat_row "B" 2 1, Fin 5.5); (flat_row "A" 1 3, Fin 4.5)] |}.
  pose proof (stored_ratings_rounded (F := exact_float64)
                (FDRValueModel.init fixtures_two) _ 1 2 0 _
                exact_float64_laws fdr_run_two) as (H1 & _ & _ & H3).
  split; [exact fdr_run_two|]. split; [exact H1|].
  exact (H3 int_ratings_two).
Defined.

(** The computation repeats itself on a table that it leaves in place: when
    the rows that it stores are the rows that it read, in the same order, a
    second run reads what the first one read. *)
Lemma fdr_repeats_when_unmoved {F : Float64} (self : FDRValueModel.t)
    (gw wc_gw fh_gw : Z) :
  (forall out self',
     FDRValueModel64.get_fdr_value gw wc_gw fh_gw self = (Ok out, self') ->
     base_rows out = base_rows (df self)) ->
  fdr_repeats gw wc_gw fh_gw self.
Proof.
  intros Hsame out self' Hrun. pose proof (Hsame out self' Hrun) as Hrows.
  destruct (get_fdr_value64_cases self gw wc_gw fh_gw) as [(raws & Hraw & H)|(e & H)];
    rewrite H in Hrun; [|discriminate].
  injection Hrun as <- <-.
  rewrite (get_fdr_value64_returns _ gw wc_gw fh_gw raws).
  - cbn [df base_rows] in *. now rewrite Hrows.
  - cbn [df base_rows] in *. now rewrite Hrows.
Qed.

(** ** The position methods over binary64 *)

Section PositionLoop64.
Context {SK : Sklearn} {F : Float64}.
Import AssetValueModel.

(** The four methods of the source are instances of one shape. *)
Lemma compute_values64_shape (pos : position_kind) (gw wc_gw fh_gw : Z) :
  compute_values64 pos gw wc_gw fh_gw =
  position_method64 pos (position_source pos) (position_xpts64 pos) gw wc_gw fh_gw.
Proof. destruct pos; reflexivity. Qed.

Lemma write_columns64_eq (d : player_df) (res : list appended) :
  AssetValueModel64.write_columns d res =
  Scored (sort64 (fun r => value (snd r))
            (combine (base_rows d) (map to_derived res))).
Proof.
  unfold AssetValueModel64.write_columns, AssetValueModel64.update_df.
  apply f_equal. apply f_equal. apply f_equal.
  induction res as [|c res IH]; simpl; [reflexivity|]. now rewrite IH.
Qed.


Lemma row_body64_tables (src : cs_source) (xpts_of : R -> player_row -> R)
    (gw wc_gw fh_gw : Z) (row : player_row) (pos : position_kind) (s : t) :
  position_table pos (snd (row_body64 src xpts_of gw wc_gw fh_gw row s)) =
  position_table pos s.
Proof.
  unfold row_body64, bind, AssetValueModel64.get_fdr_value, zoom, ret.
  destruct pos, src; unfold clean_sheet_points, zoom, ret; simpl;
    repeat match goal with
           | |- context [CleanSheetPointsModel.predict ?x ?c] =>
               destruct (CleanSheetPointsModel.predict x c) as [[?|?] ?]; simpl
           | |- context [bind ?m ?k ?G] =>
               destruct (bind m k G) as [[?|?] ?]; simpl
           end; reflexivity.
Qed.


Variables (src : cs_source) (xpts_of : R -> player_row -> R) (gw wc_gw fh_gw : Z).

Let body := row_body64 src xpts_of gw wc_gw fh_gw.




Lemma forM64_tables (pos : position_kind) (rows : list player_row) (s : t) :
  position_table pos (snd (forM rows body s)) = position_table pos s.
Proof.
  revert s. induction rows as [|row rows IH]; intros s; simpl; [reflexivity|].
  unfold bind.
  pose proof (row_body64_tables src xpts_of gw wc_gw fh_gw row pos s) as Hb.
  fold body in Hb.
  destruct (body row s) as [[v|e] s1]; simpl in *; [|assumption].
  specialize (IH s1). destruct (forM rows body s1) as [[vs|e] s2]; simpl in *;
    congruence.
Qed.


(** The state and the outcome of a position method, step by step. *)
Lemma position_method64_run (pos : position_kind) (s : t) :
  let loop := forM (base_rows (position_table pos s)) body s in
  position_method64 pos src xpts_of gw wc_gw fh_gw s =
  match fst loop with
  | Ok res =>
      let d := AssetValueModel64.write_columns (position_table pos s) res in
      (Ok d, set_position_table pos (snd loop) d)
  | Raise e => (Raise e, snd loop)
  end.
Proof.
  intros loop. unfold position_method64, bind, get, put, ret. fold body. fold loop.
  pose proof (forM64_tables pos (base_rows (position_table pos s)) s) as Htab.
  fold loop in Htab.
  destruct loop as [[res|e] sm]; simpl in *; [|reflexivity].
  now rewrite Htab, position_table_set.
Qed.

End PositionLoop64.

(** ** Sorted frames without equal keys *)




Section ComputeValuesTwice64.
Context {SK : Sklearn} {F : Float64}.
Import AssetValueModel.



End ComputeValuesTwice64.

(** ** What a position method writes for a player *)

Section PositionRows64.
Context {SK : Sklearn} {F : Float64}.
Import AssetValueModel.

Variables (src : cs_source) (xpts_of : R -> player_row -> R) (gw wc_gw fh_gw : Z).

Let body := row_body64 src xpts_of gw wc_gw fh_gw.

(** A model whose predictor is not changed by a further prediction. *)
Let settled (s : t) : Prop := forall x, snd (clean_sheet_points src x s) = s.

Lemma clean_sheet_points_frame_table (x : R) (pos : position_kind) (s : t)
    (d : player_df) :
  fst (clean_sheet_points src x (set_position_table pos s d)) =
  fst (clean_sheet_points src x s).
Proof.
  destruct pos, src; unfold clean_sheet_points, zoom, ret; simpl; try reflexivity;
    match goal with
    | |- context [CleanSheetPointsModel.predict ?y ?c] =>
        now destruct (CleanSheetPointsModel.predict y c)
    end.
Qed.

Lemma settled_set_fdr (s : t) (G : FDRValueModel.t) :
  settled s ->
  settled (set_fdr_value_model s G) /\
  forall x, fst (clean_sheet_points src x (set_fdr_value_model s G)) =
            fst (clean_sheet_points src x s).
Proof.
  intros Hs. split; intros x; rewrite clean_sheet_points_frame_fdr; simpl;
    [now rewrite Hs|reflexivity].
Qed.

(** One more row leaves a settled predictor as it is. *)
Lemma row_body64_keeps_predictor (row : player_row) (s : t) :
  settled s ->
  settled (snd (body row s)) /\
  forall x, fst (clean_sheet_points src x (snd (body row s))) =
            fst (clean_sheet_points src x s).
Proof.
  intros Hs. unfold body, row_body64, bind.
  pose proof (Hs (xGCp90 row)) as Hx.
  destruct (clean_sheet_points src (xGCp90 row) s) as [[c|e] sa]; simpl in Hx;
    subst sa; [|split; [exact Hs|reflexivity]].
  unfold AssetValueModel64.get_fdr_value, zoom.
  destruct (bind _ _ (fdr_value_model s)) as [[f|e] G]; simpl;
    now apply settled_set_fdr.
Qed.

Lemma forM64_keeps_predictor (rows : list player_row) (s : t) :
  settled s ->
  settled (snd (forM rows body s)) /\
  forall x, fst (clean_sheet_points src x (snd (forM rows body s))) =
            fst (clean_sheet_points src x s).
Proof.
  revert s. induction rows as [|row rows IH]; intros s Hs; simpl.
  - split; [exact Hs|reflexivity].
  - unfold bind.
    destruct (row_body64_keeps_predictor row s Hs) as [H1 H2].
    destruct (body row s) as [[v|e] s1]; simpl in *; [|now split].
    destruct (IH s1 H1) as [H3 H4].
    destruct (forM rows body s1) as [[vs|e] s2]; simpl in *;
      (split; [exact H3|intros x; now rewrite H4, H2]).
Qed.

(** Every triple that the loop appends is formed from the row it belongs
    to, with the clean-sheet points that the predictor still gives for
    that row when the loop is over. *)
Lemma forM64_rows (rows : list player_row) (s s' : t) (vs : list appended) :
  forM rows body s = (Ok vs, s') ->
  Forall2 (fun row v =>
             exists cs,
               fst (clean_sheet_points src (xGCp90 row) s') = Ok cs /\
               v = AssetValueModel64.finish (xpts_of cs row) (snd (fst v))
                                            (price row))
          rows vs.
Proof.
  revert s s' vs. induction rows as [|row rows IH]; intros s s' vs; simpl.
  - unfold ret. intros [= <- _]. constructor.
  - unfold bind. destruct (body row s) as [[v|e] s1] eqn:Eb; [|discriminate].
    destruct (forM rows body s1) as [[bs|e] s2] eqn:E; [|discriminate].
    unfold ret. intros [= <- <-]. constructor; [|eapply IH, E].
    unfold body, row_body64, bind in Eb.
    destruct (clean_sheet_points src (xGCp90 row) s) as [[cs|e] sa] eqn:Ecs;
      [|discriminate].
    destruct (clean_sheet_points_settles _ _ _ _ _ Ecs) as (Ha & Hb & _).
    unfold AssetValueModel64.get_fdr_value, zoom in Eb.
    destruct (bind _ _ (fdr_value_model sa)) as [[f|e] G]; [|discriminate].
    unfold ret in Eb. injection Eb as <- <-.
    exists cs. split; [|reflexivity].
    destruct (settled_set_fdr sa G Ha) as [Hs1 Hf1].
    destruct (forM64_keeps_predictor rows _ Hs1) as [_ Hk].
    rewrite E in Hk. simpl in Hk. rewrite Hk, Hf1, Hb. reflexivity.
Qed.

End PositionRows64.

Section PositionResults64.
Context {SK : Sklearn} {F : Float64}.
Import AssetValueModel.

(** X16.  In whatever way binary64 rounds, for a position table without
    negative prices: in every row of a returned table the three written
    columns fit together.  The expected points are the
    position's formula on the row's statistics and on the clean-sheet
    points that the position's predictor, as the method leaves it,
    predicts for the row's xGCp90; the value is
    [(12 * xPts + 8 * FDR value) / price ** 0.25] of that same row. *)
Theorem position_result_rows_consistent (pos : position_kind) (gw wc_gw fh_gw : Z)
    (s s' : t) (out : player_df) (p : player_row) (d : derived) :
  Float64_laws F ->
  compute_values64 pos gw wc_gw fh_gw s = (Ok out, s') ->
  In (p, d) (scored_rows out) ->
  prices_not_negative (base_rows (position_table pos s)) ->
  (exists cs_pts,
     fst (clean_sheet_points (position_source pos) (xGCp90 p) s') = Ok cs_pts /\
     xPts d = position_xpts64 pos cs_pts p) /\
  value d = AssetValueModel64.asset_value (xPts d) (FDR_value d) (price p).
Proof.
  intros Hlaws. rewrite compute_values64_shape, position_method64_run. cbv zeta.
  destruct (forM _ _ s) as [[res|e] sm] eqn:Eloop; simpl; [|discriminate].
  intros [= <- <-]. rewrite write_columns64_eq. simpl. intros Hin _.
  apply (Permutation_in _ (sort64_perm F Hlaws _ _ _)) in Hin.
  pose proof (forM64_rows _ _ _ _ _ _ _ _ _ Eloop) as HF.
  assert (HF' : Forall2 (fun row d0 =>
                  (exists cs_pts,
                     fst (clean_sheet_points (position_source pos) (xGCp90 row) sm)
                     = Ok cs_pts /\
                     xPts d0 = position_xpts64 pos cs_pts row) /\
                  value d0 = AssetValueModel64.asset_value (xPts d0) (FDR_value d0)
                                                           (price row))
                (base_rows (position_table pos s)) (map to_derived res)).
  { clear -HF. induction HF as [|row v rows vs (cs & Hcs & Hv) _ IH]; simpl;
      constructor; [|assumption].
    rewrite Hv. simpl. split; [now exists cs|reflexivity]. }
  destruct (Forall2_combine _ _ _ p d HF' Hin) as [(cs & Hcs & Hx) Hv].
  split; [|exact Hv]. exists cs. split; [|exact Hx].
  now rewrite clean_sheet_points_frame_table.
Qed.


End PositionResults64.

(** ** Runs at exact arithmetic *)


Lemma prices_quiet_forward :
  prices_not_negative
    (base_rows (position_table (SK := demo_sklearn) Forward
                  (model_with_forward fixtures_two "B"))).
Proof. repeat constructor. simpl. lra. Qed.


Lemma position_result_rows_consistent_witness :
  exists out s1 d,
    compute_values64 (SK := demo_sklearn) (F := exact_float64) Forward 1 2 0
      (model_with_forward fixtures_two "B") = (Ok out, s1) /\
    In (quiet_forward "X" "B", d) (scored_rows out) /\
    xPts d = position_xpts64 (F := exact_float64) Forward 0 (quiet_forward "X" "B") /\
    value d = AssetValueModel64.asset_value (F := exact_float64)
                (xPts d) (FDR_value d) 1.
Proof.
  destruct forward_run_two as (out & s1 & Hrun & Hrows).
  exists out, s1.
  exists (to_derived (AssetValueModel.finish
                        (AssetValueModel.xpts_fwd 0 0 0 1 0) (Fin 5.5) 1)).
  assert (Hin : In (quiet_forward "X" "B",
                    to_derived (AssetValueModel.finish
                                  (AssetValueModel.xpts_fwd 0 0 0 1 0) (Fin 5.5) 1))
                   (scored_rows out))
    by (rewrite Hrows; left; reflexivity).
  destruct (position_result_rows_consistent (SK := demo_sklearn) (F := exact_float64)
              Forward 1 2 0 (model_with_forward fixtures_two "B") s1 out
              (quiet_forward "X" "B") _ exact_float64_laws Hrun Hin
              prices_quiet_forward)
    as [(cs & Hcs & Hx) Hv].
  split; [exact Hrun|]. split; [exact Hin|]. split; [|exact Hv].
  simpl in Hcs. injection Hcs as <-. exact Hx.
Defined.

